(** * pstake-native, x/liquidstakeibc: epoch workflows and IBC transfer hooks

    A shallow embedding of [keeper/hooks.go]: the three IBC transfer
    callbacks ([OnRecvIBCTransferPacket], [OnAcknowledgementIBCTransferPacket],
    [OnTimeoutIBCTransferPacket]) and the six epoch workflows
    ([DepositWorkflow], [LSMWorkflow], [UndelegationWorkflow],
    [ValidatorUndelegationWorkflow], [RewardsWorkflow], [RebalanceWorkflow]).
    A second part embeds [types/keys.go] and [types/hostchain.go] of
    x/ratesync: store keys, port identifiers and the validation of a host
    chain and its features.

    Conventions.
    - [sdk.Int] is [Z]; [sdk.Dec] is a [Z] scaled by 10^18.  The panics of the
      SDK constructors (256-bit overflow, negative coin amounts, malformed
      denominations) are not modelled.  Run-time panics of the hook file
      itself are: indexing [res.MsgResponses[0]], and dereferencing
      [hc.RewardsAccount], the pointer the file tests against nil elsewhere.
      The other pointers of a host chain (delegation account, params, flags)
      are taken as set.
    - The keeper's key-value stores are lists in iteration order.  Writing
      under an existing key replaces the entry in place, writing under a fresh
      key appends.
    - Everything the hook file hands to another module (message router,
      interchain-account transactions, bank, interchain queries) is recorded
      in a log of the keeper state, in call order; what the other module
      answers is given by the [Externals] interface.
    - Logger and telemetry calls have no effect on the state and are left out. *)

From Stdlib Require Import Ascii String.
From Stdlib.Strings Require Byte.
From stdpp Require Import base decidable option list strings numbers pretty.

Open Scope Z_scope.

(** ** Data model *)

Module Coin.
Record t := mk { Denom : string; Amount : Z }.
End Coin.
Abbreviation Coin := Coin.t.

(** [sdk.Dec]: 18 decimal places, stored as the scaled integer. *)
Module Dec.
Record t := mk { raw : Z }.
Definition Precision : Z := 10 ^ 18.
Definition Zero : t := mk 0.
Definition Add (a b : t) : t := mk (raw a + raw b).
(** [MulInt] multiplies the scaled integer, no rounding takes place. *)
Definition MulInt (d : t) (i : Z) : t := mk (raw d * i).
(** [TruncateInt] drops the fractional digits, rounding towards zero. *)
Definition TruncateInt (d : t) : Z := Z.quot (raw d) Precision.
End Dec.
Abbreviation Dec := Dec.t.

Inductive ICAChannelState := ICAAccount_ICA_CHANNEL_CREATING | ICAAccount_ICA_CHANNEL_CREATED.

Module ICAAccount.
Record t := mk {
    Address : string;
    Balance : Coin;
    Owner : string;
    ChannelState : ICAChannelState
  }.
Definition with_Balance (b : Coin) (a : t) : t :=
    mk (Address a) b (Owner a) (ChannelState a).
End ICAAccount.
Abbreviation ICAAccount := ICAAccount.t.

Module Validator.
Record t := mk {
    OperatorAddress : string;
    DelegatedAmount : Z;
    Weight : Dec;
    UnbondingEpoch : Z
  }.
End Validator.
Abbreviation Validator := Validator.t.

Module HostChain.
Record t := mk {
    ChainId : string;
    Active : bool;
    ChannelId : string;
    ConnectionId : string;
    HostDenom : string;
    DelegationAccount : ICAAccount;
    (** [RewardsAccount] and [RewardParams] are pointers the hook file tests
        against nil; [RewardParams] is only ever tested, so it is a flag. *)
    RewardsAccount : option ICAAccount;
    HasRewardParams : bool;
    Validators : list Validator;
    RestakeFee : Dec;              (* Params.RestakeFee *)
    UnbondingFactor : Z;
    FlagsLsm : bool                (* Flags.Lsm *)
  }.
Definition with_DelegationAccount (a : ICAAccount) (h : t) : t :=
    mk (ChainId h) (Active h) (ChannelId h) (ConnectionId h) (HostDenom h) a
       (RewardsAccount h) (HasRewardParams h) (Validators h) (RestakeFee h)
       (UnbondingFactor h) (FlagsLsm h).
Definition with_Validators (vs : list Validator) (h : t) : t :=
    mk (ChainId h) (Active h) (ChannelId h) (ConnectionId h) (HostDenom h)
       (DelegationAccount h) (RewardsAccount h) (HasRewardParams h) vs
       (RestakeFee h) (UnbondingFactor h) (FlagsLsm h).
End HostChain.
Abbreviation HostChain := HostChain.t.

Inductive DepositState := Deposit_DEPOSIT_PENDING | Deposit_DEPOSIT_SENT | Deposit_DEPOSIT_RECEIVED | Deposit_DEPOSIT_DELEGATING.

Module Deposit.
Record t := mk {
    ChainId : string;
    Amount : Coin;
    Epoch : Z;
    State : DepositState;
    IbcSequenceId : string
  }.
Definition key (d : t) : string * Z := (ChainId d, Epoch d).
Definition with_Amount (a : Z) (d : t) : t :=
    mk (ChainId d) (Coin.mk (Coin.Denom (Amount d)) a) (Epoch d) (State d) (IbcSequenceId d).
Definition with_State_Sequence (s : DepositState) (q : string) (d : t) : t :=
    mk (ChainId d) (Amount d) (Epoch d) s q.
End Deposit.
Abbreviation Deposit := Deposit.t.

Inductive LSMDepositState :=
  LSMDeposit_DEPOSIT_PENDING | LSMDeposit_DEPOSIT_SENT | LSMDeposit_DEPOSIT_RECEIVED | LSMDeposit_DEPOSIT_UNTOKENIZING.

Module LSMDeposit.
Record t := mk {
    ChainId : string;
    Id : string;
    IbcDenom : string;
    Shares : Dec;
    State : LSMDepositState;
    IbcSequenceId : string
  }.
Definition key (d : t) : string * string := (ChainId d, Id d).
Definition with_State_Sequence (s : LSMDepositState) (q : string) (d : t) : t :=
    mk (ChainId d) (Id d) (IbcDenom d) (Shares d) s q.
End LSMDeposit.
Abbreviation LSMDeposit := LSMDeposit.t.

Inductive UnbondingState :=
  | Unbonding_UNBONDING_PENDING
  | Unbonding_UNBONDING_INITIATED
  | Unbonding_UNBONDING_MATURING
  | Unbonding_UNBONDING_MATURED
  | Unbonding_UNBONDING_CLAIMABLE
  | Unbonding_UNBONDING_FAILED.

Module Unbonding.
Record t := mk {
    ChainId : string;
    EpochNumber : Z;
    UnbondAmount : Coin;
    BurnAmount : Coin;
    State : UnbondingState;
    IbcSequenceId : string
  }.
Definition key (u : t) : string * Z := (ChainId u, EpochNumber u).
Definition with_State (s : UnbondingState) (u : t) : t :=
    mk (ChainId u) (EpochNumber u) (UnbondAmount u) (BurnAmount u) s (IbcSequenceId u).
Definition with_IbcSequenceId (q : string) (u : t) : t :=
    mk (ChainId u) (EpochNumber u) (UnbondAmount u) (BurnAmount u) (State u) q.
End Unbonding.
Abbreviation Unbonding := Unbonding.t.

Module ValidatorUnbonding.
Record t := mk {
    ChainId : string;
    EpochNumber : Z;
    MatureTime : Z;
    ValidatorAddress : string;
    Amount : Coin;
    IbcSequenceId : string
  }.
Definition key (u : t) : string * string * Z :=
    (ChainId u, ValidatorAddress u, EpochNumber u).
Definition with_IbcSequenceId (q : string) (u : t) : t :=
    mk (ChainId u) (EpochNumber u) (MatureTime u) (ValidatorAddress u) (Amount u) q.
End ValidatorUnbonding.
Abbreviation ValidatorUnbonding := ValidatorUnbonding.t.

Inductive RedelegateTxState := RedelegateTx_REDELEGATE_SENT | RedelegateTx_REDELEGATE_ACKED.

Module RedelegateTx.
Record t := mk {
    ChainId : string;
    IbcSequenceId : string;
    State : RedelegateTxState
  }.
Definition key (r : t) : string * string := (ChainId r, IbcSequenceId r).
End RedelegateTx.
Abbreviation RedelegateTx := RedelegateTx.t.

Global Instance Coin_eq_dec : EqDecision Coin.
Proof. solve_decision. Defined.
Global Instance ICAChannelState_eq_dec : EqDecision ICAChannelState.
Proof. solve_decision. Defined.
Global Instance DepositState_eq_dec : EqDecision DepositState.
Proof. solve_decision. Defined.
Global Instance LSMDepositState_eq_dec : EqDecision LSMDepositState.
Proof. solve_decision. Defined.
Global Instance UnbondingState_eq_dec : EqDecision UnbondingState.
Proof. solve_decision. Defined.
Global Instance Deposit_eq_dec : EqDecision Deposit.
Proof. solve_decision. Defined.

(** ** Remote messages: the tagged union of what the workflows build *)

Module MsgTransfer.
Record t := mk {
    SourcePort : string;
    SourceChannel : string;
    Token : Coin;
    Sender : string;
    Receiver : string;
    TimeoutHeight : Z * Z;
    TimeoutTimestamp : Z;
    Memo : string
  }.
End MsgTransfer.
Abbreviation MsgTransfer := MsgTransfer.t.

Inductive Msg :=
  | MsgUndelegate (DelegatorAddress ValidatorAddress : string) (Amount : Coin)
  | MsgWithdrawDelegatorReward (DelegatorAddress ValidatorAddress : string)
  | MsgBeginRedelegate (DelegatorAddress ValidatorSrcAddress ValidatorDstAddress : string)
                       (Amount : Coin).

(** ** Events *)

Inductive EventType :=
  | EventTypeUnbondingMaturedReceived
  | EventTypeValidatorUnbondingMaturedReceived
  | EventAutocompoundRewardsReceived
  | EventStakingDepositTransferReceived
  | EventLSMDepositTransferReceived
  | EventStakingDepositTransferTimeout
  | EventLSMDepositTransferTimeout
  | EventTypeDelegationWorkflow
  | EventUnsuccessfulUndelegationInitiation
  | EventTypeUndelegationWorkflow
  | EventTypeValidatorUndelegationWorkflow
  | EventTypeRewardsWorkflow
  | EventTypeLSMWorkflow
  | EventForeign (name : string).

Inductive AttributeKey :=
  | AttributeChainID
  | AttributeEpoch
  | AttributeUnbondingMaturedAmount
  | AttributeValidatorUnbondingMaturedAmount
  | AttributeAutocompoundTransfer
  | AttributePstakeAutocompoundFee
  | AttributeIBCSequenceID
  | AttributeTotalEpochDepositAmount
  | AttributeTotalEpochUnbondingAmount
  | AttributeTotalEpochBurnAmount
  | AttributeICAMessages
  | AttributeValidatorAddress
  | AttributeValidatorUnbondingAmount
  | AttributeLSMDepositsSharesAmount.

(** Attribute values are kept as data, not rendered to text. *)
Inductive AttributeValue :=
  | VString (s : string)
  | VInt (z : Z)
  | VCoin (c : Coin)
  | VDec (d : Dec)
  | VMsgs (ms : list Msg).

Module Event.
Record t := mk { Type_ : EventType; Attributes : list (AttributeKey * AttributeValue) }.
End Event.
Abbreviation Event := Event.t.

Definition NewEvent (ty : EventType) (attrs : list (AttributeKey * AttributeValue)) : Event :=
  Event.mk ty attrs.
Definition NewAttribute (k : AttributeKey) (v : AttributeValue) : AttributeKey * AttributeValue :=
  (k, v).
Definition NewCoin (denom : string) (amount : Z) : Coin := Coin.mk denom amount.

(** ** Errors *)

Inductive Error :=
  | ErrExternal (msg : string)          (* an error handed in by the caller *)
  | ErrUnmarshal                        (* ModuleCdc.UnmarshalJSON failed *)
  | ErrInvalidAcknowledgement
  | ErrCouldNotParseAmount (amount : string)
  | ErrHostChainNotRegistered (chainId : string)
  | ErrDepositNotFound (chainId : string) (epoch : Z)
  | ErrParsingAmount (amount : string)
  | ErrFailedDeposit (feeAddress : string).

(** ** Keeper state *)

(** What the hook file hands to the message router and to the
    interchain-account controller, with the answer it got: whether the router
    accepted the transfer, and the sequence id of the interchain-account
    transaction ([None] for an error).  [chainId] names the host chain on
    whose behalf the call is made; it is bookkeeping of the model. *)
Inductive Outbound :=
  | SentTransfer (chainId : string) (msg : MsgTransfer) (accepted : bool)
  | SentICATx (chainId connectionId owner : string) (msgs : list Msg)
              (sequenceID : option string).

Definition Outbound_chain (o : Outbound) : string :=
  match o with
  | SentTransfer c _ _ => c
  | SentICATx c _ _ _ _ => c
  end.

Inductive InterchainQuery :=
  | QueryRewardsBalance (chainId : string)
  | QueryNonCompoundableRewardsBalance (chainId : string).

Record Keeper := mkKeeper {
  hostChains : list HostChain;
  deposits : list Deposit;
  lsmDeposits : list LSMDeposit;
  unbondings : list Unbonding;
  validatorUnbondings : list ValidatorUnbonding;
  redelegateTxs : list RedelegateTx;
  FeeAddress : string;                       (* GetParams(ctx).FeeAddress *)
  DelegationEpochNumber : Z;                 (* GetEpochNumber(ctx, DelegationEpoch) *)
  BlockTime : Z;                             (* ctx.BlockTime().UnixNano() *)
  events : list Event;                       (* ctx.EventManager() *)
  outbox : list Outbound;
  feeTransfers : list (list Coin * string);  (* SendProtocolFee calls that succeeded *)
  cValueUpdates : list string;               (* UpdateCValue calls, by chain id *)
  queries : list InterchainQuery
}.

Definition set_hostChains (f : list HostChain → list HostChain) (k : Keeper) : Keeper :=
  mkKeeper (f (hostChains k)) (deposits k) (lsmDeposits k) (unbondings k)
    (validatorUnbondings k) (redelegateTxs k) (FeeAddress k) (DelegationEpochNumber k)
    (BlockTime k) (events k) (outbox k) (feeTransfers k) (cValueUpdates k) (queries k).
Definition set_deposits (f : list Deposit → list Deposit) (k : Keeper) : Keeper :=
  mkKeeper (hostChains k) (f (deposits k)) (lsmDeposits k) (unbondings k)
    (validatorUnbondings k) (redelegateTxs k) (FeeAddress k) (DelegationEpochNumber k)
    (BlockTime k) (events k) (outbox k) (feeTransfers k) (cValueUpdates k) (queries k).
Definition set_lsmDeposits (f : list LSMDeposit → list LSMDeposit) (k : Keeper) : Keeper :=
  mkKeeper (hostChains k) (deposits k) (f (lsmDeposits k)) (unbondings k)
    (validatorUnbondings k) (redelegateTxs k) (FeeAddress k) (DelegationEpochNumber k)
    (BlockTime k) (events k) (outbox k) (feeTransfers k) (cValueUpdates k) (queries k).
Definition set_unbondings (f : list Unbonding → list Unbonding) (k : Keeper) : Keeper :=
  mkKeeper (hostChains k) (deposits k) (lsmDeposits k) (f (unbondings k))
    (validatorUnbondings k) (redelegateTxs k) (FeeAddress k) (DelegationEpochNumber k)
    (BlockTime k) (events k) (outbox k) (feeTransfers k) (cValueUpdates k) (queries k).
Definition set_validatorUnbondings
    (f : list ValidatorUnbonding → list ValidatorUnbonding) (k : Keeper) : Keeper :=
  mkKeeper (hostChains k) (deposits k) (lsmDeposits k) (unbondings k)
    (f (validatorUnbondings k)) (redelegateTxs k) (FeeAddress k) (DelegationEpochNumber k)
    (BlockTime k) (events k) (outbox k) (feeTransfers k) (cValueUpdates k) (queries k).
Definition set_redelegateTxs (f : list RedelegateTx → list RedelegateTx) (k : Keeper) : Keeper :=
  mkKeeper (hostChains k) (deposits k) (lsmDeposits k) (unbondings k)
    (validatorUnbondings k) (f (redelegateTxs k)) (FeeAddress k) (DelegationEpochNumber k)
    (BlockTime k) (events k) (outbox k) (feeTransfers k) (cValueUpdates k) (queries k).
Definition set_events (f : list Event → list Event) (k : Keeper) : Keeper :=
  mkKeeper (hostChains k) (deposits k) (lsmDeposits k) (unbondings k)
    (validatorUnbondings k) (redelegateTxs k) (FeeAddress k) (DelegationEpochNumber k)
    (BlockTime k) (f (events k)) (outbox k) (feeTransfers k) (cValueUpdates k) (queries k).
Definition set_outbox (f : list Outbound → list Outbound) (k : Keeper) : Keeper :=
  mkKeeper (hostChains k) (deposits k) (lsmDeposits k) (unbondings k)
    (validatorUnbondings k) (redelegateTxs k) (FeeAddress k) (DelegationEpochNumber k)
    (BlockTime k) (events k) (f (outbox k)) (feeTransfers k) (cValueUpdates k) (queries k).
Definition set_feeTransfers
    (f : list (list Coin * string) → list (list Coin * string)) (k : Keeper) : Keeper :=
  mkKeeper (hostChains k) (deposits k) (lsmDeposits k) (unbondings k)
    (validatorUnbondings k) (redelegateTxs k) (FeeAddress k) (DelegationEpochNumber k)
    (BlockTime k) (events k) (outbox k) (f (feeTransfers k)) (cValueUpdates k) (queries k).
Definition set_cValueUpdates (f : list string → list string) (k : Keeper) : Keeper :=
  mkKeeper (hostChains k) (deposits k) (lsmDeposits k) (unbondings k)
    (validatorUnbondings k) (redelegateTxs k) (FeeAddress k) (DelegationEpochNumber k)
    (BlockTime k) (events k) (outbox k) (feeTransfers k) (f (cValueUpdates k)) (queries k).
Definition set_queries (f : list InterchainQuery → list InterchainQuery) (k : Keeper) : Keeper :=
  mkKeeper (hostChains k) (deposits k) (lsmDeposits k) (unbondings k)
    (validatorUnbondings k) (redelegateTxs k) (FeeAddress k) (DelegationEpochNumber k)
    (BlockTime k) (events k) (outbox k) (feeTransfers k) (cValueUpdates k) (f (queries k)).

(** ** Keyed stores *)

Section store.
Context {A K : Type} `{EqDecision K} (key : A → K).

Fixpoint store_get (i : K) (l : list A) : option A :=
  match l with
  | [] => None
  | x :: l' => if decide (key x = i) then Some x else store_get i l'
  end.

Definition store_set (x : A) (l : list A) : list A :=
  match store_get (key x) l with
  | Some _ => (λ y, if decide (key y = key x) then x else y) <$> l
  | None => l ++ [x]
  end.

Definition store_delete (i : K) (l : list A) : list A :=
  filter (λ y, key y ≠ i) l.

End store.

(** ** Control flow of a Go function body over the keeper state

    [Next a] falls through to the following statement, [Exit e] is a
    [return] of the enclosing function ([e] is its error, [None] for nil and
    for functions without a result), [Panic] is a run-time panic. *)

Inductive Flow (A : Type) : Type :=
  | Next (a : A)
  | Exit (e : option Error)
  | Panic.
Arguments Next {A} a.
Arguments Exit {A} e.
Arguments Panic {A}.

Definition M (A : Type) : Type := Keeper → Keeper * Flow A.

Global Instance M_ret : MRet M := λ A a k, (k, Next a).
Global Instance M_bind : MBind M := λ A B f m k,
  match m k with
  | (k', Next a) => f a k'
  | (k', Exit e) => (k', Exit e)
  | (k', Panic) => (k', Panic)
  end.

Definition gets {A} (f : Keeper → A) : M A := λ k, (k, Next (f k)).
Definition modify (f : Keeper → Keeper) : M unit := λ k, (f k, Next tt).
Definition exit {A} (e : option Error) : M A := λ k, (k, Exit e).
Definition panic {A} : M A := λ k, (k, Panic).
Definition skip : M unit := mret tt.

(** [for _, x := range l { body }]: a [return] or panic in the body ends
    the loop; [continue] is the body falling through. *)
Fixpoint for_range {X : Type} (l : list X) (body : X → M unit) : M unit :=
  match l with
  | [] => skip
  | x :: l' => body x ;; for_range l' body
  end.

(** The state a function leaves behind, and the error it returns. *)
Definition exec {A} (m : M A) (k : Keeper) : Keeper := fst (m k).
Definition result {A} (m : M A) (k : Keeper) : Flow A := snd (m k).
Definition returned {A} (m : M A) (k : Keeper) : option (option Error) :=
  match snd (m k) with
  | Next _ => Some None
  | Exit e => Some e
  | Panic => None
  end.

(** ** Machine integers *)

(** Go's [int64] addition wraps around; [uint64(x)] reinterprets the bits. *)
Definition int64 (z : Z) : Z := (z + 2 ^ 63) `mod` 2 ^ 64 - 2 ^ 63.
Definition uint64 (z : Z) : Z := z `mod` 2 ^ 64.

(** ** Packets *)

Module FungibleTokenPacketData.
Record t := mk {
  Denom : string;
  Amount : string;
  Sender : string;
  Receiver : string;
  Memo : string
}.
End FungibleTokenPacketData.
Abbreviation FungibleTokenPacketData := FungibleTokenPacketData.t.

(** [Data] is what [ModuleCdc.UnmarshalJSON(packet.GetData(), &data)] yields,
    [None] when it returns an error. *)
Module Packet.
Record t := mk {
  Sequence : Z;
  SourcePort : string;
  SourceChannel : string;
  DestinationPort : string;
  DestinationChannel : string;
  Data : option FungibleTokenPacketData
}.
End Packet.
Abbreviation Packet := Packet.t.

(** [sdk.NewIntFromString]: an optional sign and at least one decimal digit,
    at most 256 bits. *)
Definition digit_value (c : Ascii.ascii) : option Z :=
  let n := Z.of_nat (Ascii.nat_of_ascii c) in
  if (48 <=? n) && (n <=? 57) then Some (n - 48) else None.

Fixpoint parse_digits (acc : Z) (s : string) : option Z :=
  match s with
  | EmptyString => Some acc
  | String c s' =>
      match digit_value c with
      | Some d => parse_digits (10 * acc + d) s'
      | None => None
      end
  end.

Definition parse_unsigned (s : string) : option Z :=
  match s with
  | EmptyString => None
  | _ => parse_digits 0 s
  end.

Definition NewIntFromString (s : string) : option Z :=
  let parsed :=
    match s with
    | String "-"%char s' => Z.opp <$> parse_unsigned s'
    | String "+"%char s' => parse_unsigned s'
    | _ => parse_unsigned s
    end in
  match parsed with
  | Some i => if Z.abs i <? 2 ^ 256 then Some i else None
  | None => None
  end.

(** [sdk.NewCoins] drops zero coins. *)
Definition NewCoins (cs : list Coin) : list Coin :=
  filter (λ c, Coin.Amount c ≠ 0) cs.


(** [DecCoin.TruncateDecimal]: the integer part, as a coin. *)
Definition TruncateDecimal (denom : string) (amount : Dec) : Coin :=
  NewCoin denom (Dec.TruncateInt amount).

(** ** Collaborators outside the hook file

    Other modules and the parts of this module the hook file only calls.
    Answers may depend on the whole keeper state at the time of the call. *)

Inductive RouterResult :=
  | RouterError
  (** [MsgResponses] holds, per response, the sequence [cdc.Unmarshal]
      decodes from it, [None] when decoding fails. *)
  | RouterResponse (Events : list Event) (MsgResponses : list (option Z)).

Class Externals := {
  (** authtypes.NewModuleAddress(DepositModuleAccount).String(), which is
      also GetDepositModuleAccount(ctx).GetAddress().String() *)
  DepositModuleAddress : string;
  UndelegationModuleAddress : string;
  IBCTimeoutTimestamp : Z;
  UnbondingStateEpochLimit : Z;
  DelegationEpoch : string;
  UndelegationEpoch : string;
  RewardsEpochIdentifier : string;
  RedelegationEpochIdentifer : string;
  IsUnbondingEpoch : Z → Z → bool;
  CurrentUnbondingEpoch : Z → Z → Z;
  IBCDenom : HostChain → string;
  (** msgRouter.Handler(msg)(ctx, msg) *)
  msgRouterHandler : Keeper → MsgTransfer → RouterResult;
  (** the sequence id GenerateAndExecuteICATx returns, [None] for an error *)
  icaTxResult : Keeper → string → string → list Msg → option string;
  GenerateUndelegateMessages : HostChain → Z → option (list Msg);
  GenerateRedelegateMsgs : Keeper → HostChain → list Msg;
  (** the host-chain store RedistributeValidatorWeight leaves behind *)
  redistributedHostChains : Keeper → HostChain → Validator → list HostChain;
  (** whether SendProtocolFee returns an error *)
  sendProtocolFeeFails : Keeper → list Coin → string → bool;
  queryRewardsFails : Keeper → HostChain → bool;
  queryNonCompoundableRewardsFails : Keeper → HostChain → bool
}.

Definition PortID : string := "transfer".
Definition ZeroHeight : Z * Z := (0, 0).

Definition NewMsgTransfer (port channel : string) (token : Coin) (sender receiver : string)
    (timeoutHeight : Z * Z) (timeoutTimestamp : Z) (memo : string) : MsgTransfer :=
  MsgTransfer.mk port channel token sender receiver timeoutHeight timeoutTimestamp memo.

(** ** Keeper accessors

    The store accessors live in other files of the keeper package. *)

(** Modelled from the spec: [GetAllHostChains], the Host Chain Registry's
    records in iteration order. *)
Definition GetAllHostChains (k : Keeper) : list HostChain := hostChains k.

(** Modelled from the spec: [GetHostChain], the registry is a keyed store
    (chain id to aggregate). *)
Definition GetHostChain (chainId : string) (k : Keeper) : option HostChain :=
  store_get HostChain.ChainId chainId (hostChains k).

(** Modelled from the spec: [SetHostChain], a write to the registry under
    the chain id. *)
Definition SetHostChain (hc : HostChain) : Keeper → Keeper :=
  set_hostChains (store_set HostChain.ChainId hc).

(** Modelled from the spec: [GetHostChainFromHostDenom], the denom-to-chain
    match of an inbound transfer. *)
Definition GetHostChainFromHostDenom (denom : string) (k : Keeper) : option HostChain :=
  store_get HostChain.HostDenom denom (hostChains k).

(** Modelled from the spec: [GetTransactionSequenceID], a deterministic
    string composed from outbound channel id + numeric packet sequence. *)
Definition GetTransactionSequenceID (channelID : string) (sequence : Z) : string :=
  channelID +:+ "-sequence-" +:+ pretty sequence.

(** Modelled from the spec: [SetDeposit], a write under the key
    (chain id, epoch). *)
Definition SetDeposit (d : Deposit) : Keeper → Keeper :=
  set_deposits (store_set Deposit.key d).

(** Modelled from the spec: [DeleteDeposit], removal of the record under
    (chain id, epoch). *)
Definition DeleteDeposit (d : Deposit) : Keeper → Keeper :=
  set_deposits (store_delete Deposit.key (Deposit.key d)).

(** Modelled from the spec: [GetDepositForChainAndEpoch], the deposit
    record of a chain for an epoch. *)
Definition GetDepositForChainAndEpoch (chainId : string) (epoch : Z) (k : Keeper)
    : option Deposit :=
  store_get Deposit.key (chainId, epoch) (deposits k).

(** Modelled from the spec: [GetDepositsWithSequenceID], all Deposit records
    carrying the matching sequence id. *)
Definition GetDepositsWithSequenceID (sequenceID : string) (k : Keeper) : list Deposit :=
  filter (λ d, Deposit.IbcSequenceId d = sequenceID) (deposits k).

(** Modelled from the spec: [GetPendingDepositsBeforeEpoch], the pending
    deposits whose epoch is ≤ the current epoch. *)
Definition GetPendingDepositsBeforeEpoch (epoch : Z) (k : Keeper) : list Deposit :=
  filter (λ d, Deposit.Epoch d ≤ epoch ∧ Deposit.State d = Deposit_DEPOSIT_PENDING)
         (deposits k).

(** Modelled from the spec: [RevertDepositsState], revert the records to
    their pending pre-send state: PENDING, sequence id cleared. *)
Definition RevertDepositsState (ds : list Deposit) (k : Keeper) : Keeper :=
  foldl (λ k d, SetDeposit (Deposit.with_State_Sequence Deposit_DEPOSIT_PENDING "" d) k) k ds.

(** Modelled from the spec: [SetLSMDeposit], a write under the record's
    unique id. *)
Definition SetLSMDeposit (d : LSMDeposit) : Keeper → Keeper :=
  set_lsmDeposits (store_set LSMDeposit.key d).

(** Modelled from the spec: [GetLSMDepositsFromIbcSequenceID], all LSMDeposit
    records carrying the matching sequence id. *)
Definition GetLSMDepositsFromIbcSequenceID (sequenceID : string) (k : Keeper)
    : list LSMDeposit :=
  filter (λ d, LSMDeposit.IbcSequenceId d = sequenceID) (lsmDeposits k).

(** Modelled from the spec: [GetTransferableLSMDeposits], the eligible
    (pending) tokenized-share records of a chain. *)
Definition GetTransferableLSMDeposits (chainId : string) (k : Keeper) : list LSMDeposit :=
  filter (λ d, LSMDeposit.ChainId d = chainId ∧ LSMDeposit.State d = LSMDeposit_DEPOSIT_PENDING)
         (lsmDeposits k).

(** Modelled from the spec: [UpdateLSMDepositsStateAndSequence], settling
    many records in a single state update. *)
Definition UpdateLSMDepositsStateAndSequence (ds : list LSMDeposit)
    (state : LSMDepositState) (sequenceID : string) (k : Keeper) : Keeper :=
  foldl (λ k d, SetLSMDeposit (LSMDeposit.with_State_Sequence state sequenceID d) k) k ds.

(** Modelled from the spec: [RevertLSMDepositsState], revert the records to
    their pending pre-send state: PENDING, sequence id cleared. *)
Definition RevertLSMDepositsState (ds : list LSMDeposit) : Keeper → Keeper :=
  UpdateLSMDepositsStateAndSequence ds LSMDeposit_DEPOSIT_PENDING "".

(** Modelled from the spec: [GetUnbonding], the single Unbonding record of a
    chain for an epoch bucket. *)
Definition GetUnbonding (chainId : string) (epoch : Z) (k : Keeper) : option Unbonding :=
  store_get Unbonding.key (chainId, epoch) (unbondings k).

(** Modelled from the spec: [SetUnbonding], a write under (chain id, epoch). *)
Definition SetUnbonding (u : Unbonding) : Keeper → Keeper :=
  set_unbondings (store_set Unbonding.key u).

(** Modelled from the spec: [FilterUnbondings], the Unbonding records that
    satisfy a predicate. *)
Definition FilterUnbondings (f : Unbonding → bool) (k : Keeper) : list Unbonding :=
  filter (λ u, f u = true) (unbondings k).

(** Modelled from the spec: [SetValidatorUnbonding], a write under
    (chain, validator, epoch). *)
Definition SetValidatorUnbonding (u : ValidatorUnbonding) : Keeper → Keeper :=
  set_validatorUnbondings (store_set ValidatorUnbonding.key u).

(** Modelled from the spec: [SetRedelegationTx], one record per submitted
    redelegation message. *)
Definition SetRedelegationTx (r : RedelegateTx) : Keeper → Keeper :=
  set_redelegateTxs (store_set RedelegateTx.key r).

(** ** The hook file *)

Section hooks.
Context `{Externals}.

Definition EmitEvent (e : Event) : M unit := modify (set_events (λ es, es ++ [e])).
Definition EmitEvents (es' : list Event) : M unit := modify (set_events (λ es, es ++ es')).

(** A call of another function of the keeper: its [return] ends the callee,
    not the caller. *)
Definition call (m : M unit) : M unit := λ k,
  match m k with
  | (k', Next _) => (k', Next tt)
  | (k', Exit _) => (k', Next tt)
  | (k', Panic) => (k', Panic)
  end.

(** [handler := k.msgRouter.Handler(msg); res, err := handler(ctx, msg)]: the
    call is logged, the router's answer is returned. *)
Definition routeTransfer (chainId : string) (msg : MsgTransfer) : M RouterResult := λ k,
  let res := msgRouterHandler k msg in
  let accepted := match res with RouterError => false | RouterResponse _ _ => true end in
  (set_outbox (λ o, o ++ [SentTransfer chainId msg accepted]) k, Next res).

(** Modelled from the spec: [GenerateAndExecuteICATx], the remote
    batch-transaction collaborator: (connection id, account owner, ordered
    message list) in, locally assigned sequence identifier or error out. *)
Definition GenerateAndExecuteICATx (chainId connectionId owner : string) (msgs : list Msg)
    : M (option string) := λ k,
  let res := icaTxResult k connectionId owner msgs in
  (set_outbox (λ o, o ++ [SentICATx chainId connectionId owner msgs res]) k, Next res).

(** Modelled from the spec: [SendProtocolFee], forward the fee to the
    protocol fee address; it is always called on the deposit module account.
    [true] when it returned no error. *)
Definition SendProtocolFee (amount : list Coin) (feeAddress : string) : M bool := λ k,
  if sendProtocolFeeFails k amount feeAddress then (k, Next false)
  else (set_feeTransfers (λ l, l ++ [(amount, feeAddress)]) k, Next true).

(** Modelled from the spec: [UpdateCValue], recompute the chain's exchange
    value; the model records that it was called. *)
Definition UpdateCValue (hc : HostChain) : M unit :=
  modify (set_cValueUpdates (λ l, l ++ [HostChain.ChainId hc])).

(** Modelled from the spec: [RedistributeValidatorWeight], redistribute the
    removed validator's weight among the remaining validators with weight: a
    rewrite of the registry, which the loops over the chains fetched before do
    not read again. *)
Definition RedistributeValidatorWeight (hc : HostChain) (validator : Validator) : M unit :=
  modify (λ k, set_hostChains (λ _, redistributedHostChains k hc validator) k).

(** Modelled from the spec: the two fire-and-forget balance queries of the
    Rewards pipeline; [true] when the query was sent without error. *)
Definition QueryRewardsHostChainAccountBalance (hc : HostChain) : M bool := λ k,
  (set_queries (λ q, q ++ [QueryRewardsBalance (HostChain.ChainId hc)]) k,
   Next (negb (queryRewardsFails k hc))).

Definition QueryNonCompoundableRewardsHostChainAccountBalance (hc : HostChain) : M bool := λ k,
  (set_queries (λ q, q ++ [QueryNonCompoundableRewardsBalance (HostChain.ChainId hc)]) k,
   Next (negb (queryNonCompoundableRewardsFails k hc))).

(** *** IBC transfer hooks *)

Definition settle_matured_unbonding (hc : HostChain) (unbonding : Unbonding) : M unit :=
  let unbonding := Unbonding.with_IbcSequenceId "" unbonding in
  let unbonding := Unbonding.with_State Unbonding_UNBONDING_CLAIMABLE unbonding in
  modify (SetUnbonding unbonding) ;;
  EmitEvent (NewEvent EventTypeUnbondingMaturedReceived
    [ NewAttribute AttributeChainID (VString (HostChain.ChainId hc));
      NewAttribute AttributeEpoch (VInt (Unbonding.EpochNumber unbonding));
      NewAttribute AttributeUnbondingMaturedAmount
        (VCoin (NewCoin (HostChain.HostDenom hc)
                        (Coin.Amount (Unbonding.UnbondAmount unbonding)))) ]).

(** The transfer is part of the undelegation process. *)
Definition OnRecv_undelegation (hc : HostChain) (data : FungibleTokenPacketData) : M unit :=
  if decide (FungibleTokenPacketData.Sender data
               = ICAAccount.Address (HostChain.DelegationAccount hc)
             ∧ FungibleTokenPacketData.Receiver data = UndelegationModuleAddress
             ∧ FungibleTokenPacketData.Memo data = "")
  then
    (* get all the matured unbondings of the chain and update their states *)
    unbondings ← gets (FilterUnbondings (λ u,
      bool_decide (Unbonding.ChainId u = HostChain.ChainId hc
                   ∧ Unbonding.State u = Unbonding_UNBONDING_MATURED)));
    for_range unbondings (settle_matured_unbonding hc)
  else skip.

(** The transfer is part of a total validator unbonding. *)
Definition OnRecv_validator_unbonding (hc : HostChain) (data : FungibleTokenPacketData)
    : M unit :=
  if decide (FungibleTokenPacketData.Sender data
               = ICAAccount.Address (HostChain.DelegationAccount hc)
             ∧ FungibleTokenPacketData.Receiver data = DepositModuleAddress
             ∧ FungibleTokenPacketData.Memo data = "")
  then
    (* add the unbonded amount to the deposit record for that chain/epoch *)
    currentEpoch ← gets DelegationEpochNumber;
    found ← gets (GetDepositForChainAndEpoch (HostChain.ChainId hc) currentEpoch);
    match found with
    | None => exit (Some (ErrDepositNotFound (HostChain.ChainId hc) currentEpoch))
    | Some deposit =>
      match NewIntFromString (FungibleTokenPacketData.Amount data) with
      | None => exit (Some (ErrParsingAmount (FungibleTokenPacketData.Amount data)))
      | Some transferAmount =>
        let deposit :=
          Deposit.with_Amount (Coin.Amount (Deposit.Amount deposit) + transferAmount)
                              deposit in
        modify (SetDeposit deposit) ;;
        EmitEvent (NewEvent EventTypeValidatorUnbondingMaturedReceived
          [ NewAttribute AttributeChainID (VString (HostChain.ChainId hc));
            NewAttribute AttributeValidatorUnbondingMaturedAmount
              (VCoin (NewCoin (HostChain.HostDenom hc) transferAmount)) ])
      end
    end
  else skip.

(** The transfer is part of the autocompounding process.  The condition
    reads [hc.RewardsAccount.Address] first, whatever the other operands. *)
Definition OnRecv_autocompounding (hc : HostChain) (data : FungibleTokenPacketData)
    : M unit :=
  rewardsAccount ← match HostChain.RewardsAccount hc with
                    | None => panic
                    | Some a => mret a
                    end;
  if decide (FungibleTokenPacketData.Sender data = ICAAccount.Address rewardsAccount
             ∧ FungibleTokenPacketData.Receiver data = DepositModuleAddress
             ∧ FungibleTokenPacketData.Memo data = "")
  then
    (* parse the transfer amount *)
    match NewIntFromString (FungibleTokenPacketData.Amount data) with
    | None => exit (Some (ErrParsingAmount (FungibleTokenPacketData.Amount data)))
    | Some transferAmount =>
      (* calculate protocol fee *)
      let feeAmount := Dec.MulInt (HostChain.RestakeFee hc) transferAmount in
      let fee := TruncateDecimal (IBCDenom hc) feeAmount in
      (* send the protocol fee *)
      feeAddress ← gets FeeAddress;
      sent ← SendProtocolFee (NewCoins [fee]) feeAddress;
      if negb sent then exit (Some (ErrFailedDeposit feeAddress)) else
      (* add the deposit amount to the deposit record for that chain/epoch *)
      currentEpoch ← gets DelegationEpochNumber;
      found ← gets (GetDepositForChainAndEpoch (HostChain.ChainId hc) currentEpoch);
      match found with
      | None => exit (Some (ErrDepositNotFound (HostChain.ChainId hc) currentEpoch))
      | Some deposit =>
        (* update the deposit *)
        let deposit :=
          Deposit.with_Amount
            (Coin.Amount (Deposit.Amount deposit)
             + (transferAmount - Dec.TruncateInt feeAmount)) deposit in
        modify (SetDeposit deposit) ;;
        (* update the c value for the auto compounding chain *)
        UpdateCValue hc ;;
        EmitEvent (NewEvent EventAutocompoundRewardsReceived
          [ NewAttribute AttributeChainID (VString (HostChain.ChainId hc));
            NewAttribute AttributeAutocompoundTransfer
              (VCoin (NewCoin (HostChain.HostDenom hc) transferAmount));
            NewAttribute AttributePstakeAutocompoundFee
              (VCoin (NewCoin (HostChain.HostDenom hc) (Dec.TruncateInt feeAmount))) ])
      end
    end
  else skip.

Definition OnRecvIBCTransferPacket (packet : Packet) (transferAckSuccess : bool) : M unit :=
  if negb transferAckSuccess then exit None else
  match Packet.Data packet with
  | None => exit (Some ErrUnmarshal)
  | Some data =>
    (* if the transfer isn't from any of the registered host chains, return *)
    let denom := FungibleTokenPacketData.Denom data in
    found ← gets (GetHostChainFromHostDenom denom);
    match found with
    | None => exit None
    | Some hc =>
      OnRecv_undelegation hc data ;;
      OnRecv_validator_unbonding hc data ;;
      OnRecv_autocompounding hc data ;;
      exit None
    end
  end.

(** Body of the loop over the deposits an acknowledgement settles. *)
Definition OnAcknowledgement_deposit (sequenceID : string) (transferAmount : Z)
    (deposit : Deposit) : M unit :=
  (* update the deposit state *)
  let deposit := Deposit.with_State_Sequence Deposit_DEPOSIT_RECEIVED "" deposit in
  modify (SetDeposit deposit) ;;
  found ← gets (GetHostChain (Deposit.ChainId deposit));
  match found with
  | None => exit (Some (ErrHostChainNotRegistered (Deposit.ChainId deposit)))
  | Some hc =>
    let balance := ICAAccount.Balance (HostChain.DelegationAccount hc) in
    let hc :=
      HostChain.with_DelegationAccount
        (ICAAccount.with_Balance
           (Coin.mk (Coin.Denom balance) (Coin.Amount balance + transferAmount))
           (HostChain.DelegationAccount hc)) hc in
    modify (SetHostChain hc) ;;
    (* emit events for the deposits received *)
    EmitEvent (NewEvent EventStakingDepositTransferReceived
      [ NewAttribute AttributeChainID (VString (HostChain.ChainId hc));
        NewAttribute AttributeIBCSequenceID (VString sequenceID) ])
  end.

(** Body of the loops that emit one event per LSM deposit. *)
Definition emit_lsmDeposit_event (ty : EventType) (sequenceID : string)
    (lsmDeposit : LSMDeposit) : M unit :=
  found ← gets (GetHostChain (LSMDeposit.ChainId lsmDeposit));
  match found with
  | None => exit (Some (ErrHostChainNotRegistered (LSMDeposit.ChainId lsmDeposit)))
  | Some hc =>
    EmitEvent (NewEvent ty
      [ NewAttribute AttributeChainID (VString (HostChain.ChainId hc));
        NewAttribute AttributeIBCSequenceID (VString sequenceID) ])
  end.

Definition OnAcknowledgementIBCTransferPacket (packet : Packet)
    (acknowledgement : option bool) (transferAckErr : option Error) : M unit :=
  match transferAckErr with
  | Some err => exit (Some err)
  | None =>
  (* validate the ack: [acknowledgement] is the decoded ack's Success(),
     [None] when the bytes do not decode *)
  match acknowledgement with
  | None => exit (Some ErrUnmarshal)
  | Some success =>
  if negb success then exit (Some ErrInvalidAcknowledgement) else
  match Packet.Data packet with
  | None => exit (Some ErrUnmarshal)
  | Some data =>
  match NewIntFromString (FungibleTokenPacketData.Amount data) with
  | None => exit (Some (ErrCouldNotParseAmount (FungibleTokenPacketData.Amount data)))
  | Some transferAmount =>
    let sequenceID :=
      GetTransactionSequenceID (Packet.SourceChannel packet) (Packet.Sequence packet) in
    (* if the sender is the deposit module account, mark the corresponding
       deposits as received and update the balance *)
    (if decide (FungibleTokenPacketData.Sender data = DepositModuleAddress) then
       (* process liquid stake deposits *)
       deposits ← gets (GetDepositsWithSequenceID sequenceID);
       for_range deposits (OnAcknowledgement_deposit sequenceID transferAmount) ;;
       (* mark tokenized LSM token delegations as received *)
       lsmDeposits ← gets (GetLSMDepositsFromIbcSequenceID sequenceID);
       modify (UpdateLSMDepositsStateAndSequence lsmDeposits LSMDeposit_DEPOSIT_RECEIVED "") ;;
       (* emit events for the lsm deposits received *)
       for_range lsmDeposits
         (emit_lsmDeposit_event EventLSMDepositTransferReceived sequenceID)
     else skip) ;;
    exit None
  end end end end.

(** Body of the loop that emits one event per deposit that timed out. *)
Definition OnTimeout_deposit (sequenceID : string) (deposit : Deposit) : M unit :=
  found ← gets (GetHostChain (Deposit.ChainId deposit));
  match found with
  | None => exit (Some (ErrHostChainNotRegistered (Deposit.ChainId deposit)))
  | Some hc =>
    EmitEvent (NewEvent EventStakingDepositTransferTimeout
      [ NewAttribute AttributeChainID (VString (HostChain.ChainId hc));
        NewAttribute AttributeIBCSequenceID (VString sequenceID) ])
  end.

Definition OnTimeoutIBCTransferPacket (packet : Packet) (transferTimeoutErr : option Error)
    : M unit :=
  match transferTimeoutErr with
  | Some err => exit (Some err)
  | None =>
  match Packet.Data packet with
  | None => exit (Some ErrUnmarshal)
  | Some data =>
    let sequenceID :=
      GetTransactionSequenceID (Packet.SourceChannel packet) (Packet.Sequence packet) in
    (* just take action when the transfer has been sent from the deposit
       module account *)
    (if decide (FungibleTokenPacketData.Sender data = DepositModuleAddress) then
       (* revert the state of the deposits that timed out *)
       deposits ← gets (GetDepositsWithSequenceID sequenceID);
       modify (RevertDepositsState deposits) ;;
       (* emit events for the deposits that timed out *)
       for_range deposits (OnTimeout_deposit sequenceID) ;;
       (* revert the state of the LSM deposits that timed out *)
       lsmDeposits ← gets (GetLSMDepositsFromIbcSequenceID sequenceID);
       modify (RevertLSMDepositsState lsmDeposits) ;;
       (* emit events for the lsm deposits that timed out *)
       for_range lsmDeposits
         (emit_lsmDeposit_event EventLSMDepositTransferTimeout sequenceID)
     else skip) ;;
    exit None
  end end.

(** *** Workflows *)

Definition DepositWorkflow_deposit (epoch : Z) (deposit : Deposit) : M unit :=
  found ← gets (GetHostChain (Deposit.ChainId deposit));
  match found with
  | None => skip   (* continue *)
  | Some hc =>
    (* check if the deposit amount is larger than 0 *)
    if Coin.Amount (Deposit.Amount deposit) <=? 0 then
      (* delete empty deposits to save on storage *)
      (if Deposit.Epoch deposit <? epoch then modify (DeleteDeposit deposit) else skip)
      (* continue *)
    else
    (* don't do anything if the chain is not active *)
    if negb (HostChain.Active hc) then skip else
    blockTime ← gets BlockTime;
    let timeoutTimestamp := uint64 (int64 (blockTime + IBCTimeoutTimestamp)) in
    let msg := NewMsgTransfer PortID (HostChain.ChannelId hc) (Deposit.Amount deposit)
                 DepositModuleAddress (ICAAccount.Address (HostChain.DelegationAccount hc))
                 ZeroHeight timeoutTimestamp "" in
    res ← routeTransfer (HostChain.ChainId hc) msg;
    match res with
    | RouterError => skip   (* continue *)
    | RouterResponse events responses =>
      EmitEvents events ;;
      match responses with
      | [] => panic   (* res.MsgResponses[0] *)
      | None :: _ => skip   (* continue *)
      | Some sequence :: _ =>
        let deposit :=
          Deposit.with_State_Sequence Deposit_DEPOSIT_SENT
            (GetTransactionSequenceID (HostChain.ChannelId hc) sequence) deposit in
        modify (SetDeposit deposit) ;;
        EmitEvent (NewEvent EventTypeDelegationWorkflow
          [ NewAttribute AttributeChainID (VString (HostChain.ChainId hc));
            NewAttribute AttributeEpoch (VInt (Deposit.Epoch deposit));
            NewAttribute AttributeTotalEpochDepositAmount
              (VCoin (NewCoin (HostChain.HostDenom hc) (Coin.Amount (Deposit.Amount deposit))));
            NewAttribute AttributeIBCSequenceID (VString (Deposit.IbcSequenceId deposit)) ])
      end
    end
  end.

Definition DepositWorkflow (epoch : Z) : M unit :=
  deposits ← gets (GetPendingDepositsBeforeEpoch epoch);
  for_range deposits (DepositWorkflow_deposit epoch).

Definition unsuccessful_undelegation (hc : HostChain) (epoch : Z) (unbonding : Unbonding)
    : M unit :=
  (* mark the unbonding as failed *)
  let unbonding := Unbonding.with_State Unbonding_UNBONDING_FAILED unbonding in
  modify (SetUnbonding unbonding) ;;
  EmitEvent (NewEvent EventUnsuccessfulUndelegationInitiation
    [ NewAttribute AttributeChainID (VString (HostChain.ChainId hc));
      NewAttribute AttributeEpoch (VInt epoch) ]).

Definition UndelegationWorkflow_chain (epoch : Z) (hc : HostChain) : M unit :=
  (* don't do anything if the chain is not active *)
  if negb (HostChain.Active hc) then skip else
  (* not an unbonding epoch for the host chain, continue *)
  if negb (IsUnbondingEpoch (HostChain.UnbondingFactor hc) epoch) then skip else
  (* retrieve the unbonding for the current epoch *)
  found ← gets (GetUnbonding (HostChain.ChainId hc)
                  (CurrentUnbondingEpoch (HostChain.UnbondingFactor hc) epoch));
  match found with
  | None => skip   (* nothing to unbond for this epoch *)
  | Some unbonding =>
    (* check if there is anything to unbond *)
    if negb (0 <? Coin.Amount (Unbonding.UnbondAmount unbonding)) then skip else
    (* generate the undelegation messages *)
    match GenerateUndelegateMessages hc (Coin.Amount (Unbonding.UnbondAmount unbonding)) with
    | None => unsuccessful_undelegation hc epoch unbonding   (* continue *)
    | Some messages =>
      (* execute the ICA transactions *)
      res ← GenerateAndExecuteICATx (HostChain.ChainId hc) (HostChain.ConnectionId hc)
              (ICAAccount.Owner (HostChain.DelegationAccount hc)) messages;
      match res with
      | None => unsuccessful_undelegation hc epoch unbonding   (* continue *)
      | Some sequenceID =>
        (* update the unbonding ibc sequence id and state *)
        let unbonding := Unbonding.with_IbcSequenceId sequenceID unbonding in
        let unbonding := Unbonding.with_State Unbonding_UNBONDING_INITIATED unbonding in
        modify (SetUnbonding unbonding) ;;
        EmitEvent (NewEvent EventTypeUndelegationWorkflow
          [ NewAttribute AttributeChainID (VString (HostChain.ChainId hc));
            NewAttribute AttributeEpoch (VInt epoch);
            NewAttribute AttributeTotalEpochUnbondingAmount
              (VCoin (NewCoin (HostChain.HostDenom hc)
                              (Coin.Amount (Unbonding.UnbondAmount unbonding))));
            NewAttribute AttributeTotalEpochBurnAmount
              (VCoin (NewCoin (HostChain.HostDenom hc)
                              (Coin.Amount (Unbonding.BurnAmount unbonding))));
            NewAttribute AttributeICAMessages (VMsgs messages);
            NewAttribute AttributeIBCSequenceID (VString sequenceID) ])
      end
    end
  end.

Definition UndelegationWorkflow (epoch : Z) : M unit :=
  hcs ← gets GetAllHostChains;
  for_range hcs (UndelegationWorkflow_chain epoch).

Definition ValidatorUndelegationWorkflow_validator (epoch : Z) (hc : HostChain)
    (validator : Validator) : M unit :=
  (* check if there are validators that need to be unbonded *)
  if (0 <? Validator.UnbondingEpoch validator)
     && (int64 (Validator.UnbondingEpoch validator + UnbondingStateEpochLimit) <=? epoch)
  then
    (* unbond all delegated tokens from the validator *)
    let validatorUnbonding :=
      ValidatorUnbonding.mk (HostChain.ChainId hc) epoch 0
        (Validator.OperatorAddress validator)
        (NewCoin (HostChain.HostDenom hc) (Validator.DelegatedAmount validator)) "" in
    (* create the MsgUndelegate *)
    let message :=
      MsgUndelegate (ICAAccount.Address (HostChain.DelegationAccount hc))
        (ValidatorUnbonding.ValidatorAddress validatorUnbonding)
        (ValidatorUnbonding.Amount validatorUnbonding) in
    (* execute the ICA transaction *)
    res ← GenerateAndExecuteICATx (HostChain.ChainId hc) (HostChain.ConnectionId hc)
            (ICAAccount.Owner (HostChain.DelegationAccount hc)) [message];
    match res with
    | None => exit None   (* return *)
    | Some sequenceID =>
      (* update the unbonding sequence id *)
      let validatorUnbonding :=
        ValidatorUnbonding.with_IbcSequenceId sequenceID validatorUnbonding in
      modify (SetValidatorUnbonding validatorUnbonding) ;;
      (* redistribute the unbonding validator weight among all the other
         validators with weight *)
      RedistributeValidatorWeight hc validator ;;
      EmitEvent (NewEvent EventTypeValidatorUndelegationWorkflow
        [ NewAttribute AttributeChainID (VString (HostChain.ChainId hc));
          NewAttribute AttributeEpoch (VInt epoch);
          NewAttribute AttributeValidatorAddress
            (VString (ValidatorUnbonding.ValidatorAddress validatorUnbonding));
          NewAttribute AttributeValidatorUnbondingAmount
            (VCoin (NewCoin (HostChain.HostDenom hc)
                            (Coin.Amount (ValidatorUnbonding.Amount validatorUnbonding))));
          NewAttribute AttributeIBCSequenceID (VString sequenceID) ])
    end
  else skip.

Definition ValidatorUndelegationWorkflow_chain (epoch : Z) (hc : HostChain) : M unit :=
  (* don't do anything if the chain is not active *)
  if negb (HostChain.Active hc) then skip else
  (* not an unbonding epoch for the host chain, continue *)
  if negb (IsUnbondingEpoch (HostChain.UnbondingFactor hc) epoch) then skip else
  for_range (HostChain.Validators hc) (ValidatorUndelegationWorkflow_validator epoch hc).

Definition ValidatorUndelegationWorkflow (epoch : Z) : M unit :=
  hcs ← gets GetAllHostChains;
  for_range hcs (ValidatorUndelegationWorkflow_chain epoch).

(** The reward-withdrawal messages of a chain: one per validator with a
    positive delegation, appended in validator order. *)
Definition RewardsWorkflow_messages (hc : HostChain) : list Msg :=
  foldl (λ messages validator,
           if 0 <? Validator.DelegatedAmount validator then
             messages ++ [MsgWithdrawDelegatorReward
                            (ICAAccount.Address (HostChain.DelegationAccount hc))
                            (Validator.OperatorAddress validator)]
           else messages)
        [] (HostChain.Validators hc).

Definition RewardsWorkflow_chain (epoch : Z) (hc : HostChain) : M unit :=
  (* don't do anything if the chain is not active *)
  if negb (HostChain.Active hc) then skip else
  (* generate the messages *)
  let messages := RewardsWorkflow_messages hc in
  proceed ←
    (if (0 <? length messages)%nat then
       (* execute the ICA transactions *)
       res ← GenerateAndExecuteICATx (HostChain.ChainId hc) (HostChain.ConnectionId hc)
               (ICAAccount.Owner (HostChain.DelegationAccount hc)) messages;
       match res with
       | None => mret false   (* continue *)
       | Some _ =>
         EmitEvent (NewEvent EventTypeRewardsWorkflow
           [ NewAttribute AttributeChainID (VString (HostChain.ChainId hc));
             NewAttribute AttributeEpoch (VInt epoch);
             NewAttribute AttributeICAMessages (VMsgs messages) ]) ;;
         mret true
       end
     else mret true);
  if negb proceed then skip else
  match HostChain.RewardsAccount hc with
  | None => skip
  | Some rewardsAccount =>
    if decide (ICAAccount.ChannelState rewardsAccount = ICAAccount_ICA_CHANNEL_CREATED) then
      (if HostChain.HasRewardParams hc then
         _ ← QueryNonCompoundableRewardsHostChainAccountBalance hc; skip
       else skip) ;;
      _ ← QueryRewardsHostChainAccountBalance hc;
      skip
    else skip
  end.

Definition RewardsWorkflow (epoch : Z) : M unit :=
  hcs ← gets GetAllHostChains;
  for_range hcs (RewardsWorkflow_chain epoch).

(** A [range] loop that carries a local variable of the enclosing function. *)
Fixpoint for_range_acc {X S : Type} (l : list X) (acc : S) (body : S → X → M S) : M S :=
  match l with
  | [] => mret acc
  | x :: l' => acc' ← body acc x; for_range_acc l' acc' body
  end.

Definition LSMWorkflow_deposit (hc : HostChain) (totalLSMDepositsSharesAmount : Dec)
    (deposit : LSMDeposit) : M Dec :=
  blockTime ← gets BlockTime;
  let timeoutTimestamp := uint64 (int64 (blockTime + IBCTimeoutTimestamp)) in
  (* craft the IBC message *)
  let msg := NewMsgTransfer PortID (HostChain.ChannelId hc)
               (NewCoin (LSMDeposit.IbcDenom deposit)
                        (Dec.TruncateInt (LSMDeposit.Shares deposit)))
               DepositModuleAddress (ICAAccount.Address (HostChain.DelegationAccount hc))
               ZeroHeight timeoutTimestamp "" in
  (* send the message *)
  res ← routeTransfer (HostChain.ChainId hc) msg;
  match res with
  | RouterError => mret totalLSMDepositsSharesAmount   (* continue *)
  | RouterResponse events responses =>
    EmitEvents events ;;
    match responses with
    | [] => panic   (* res.MsgResponses[0] *)
    | None :: _ => mret totalLSMDepositsSharesAmount   (* continue *)
    | Some sequence :: _ =>
      (* update the deposit state and add the IBC sequence id *)
      modify (UpdateLSMDepositsStateAndSequence [deposit] LSMDeposit_DEPOSIT_SENT
                (GetTransactionSequenceID (HostChain.ChannelId hc) sequence)) ;;
      mret (Dec.Add totalLSMDepositsSharesAmount (LSMDeposit.Shares deposit))
    end
  end.

Definition LSMWorkflow_chain (hc : HostChain) : M unit :=
  if negb (HostChain.Active hc) || negb (HostChain.FlagsLsm hc) then
    skip   (* don't do anything on inactive or non-LSM chains *)
  else
    (* attempt to transfer all available LSM deposits *)
    transferable ← gets (GetTransferableLSMDeposits (HostChain.ChainId hc));
    totalLSMDepositsSharesAmount ←
      for_range_acc transferable Dec.Zero (LSMWorkflow_deposit hc);
    EmitEvent (NewEvent EventTypeLSMWorkflow
      [ NewAttribute AttributeChainID (VString (HostChain.ChainId hc));
        NewAttribute AttributeLSMDepositsSharesAmount (VDec totalLSMDepositsSharesAmount) ]).

Definition LSMWorkflow : M unit :=
  hcs ← gets GetAllHostChains;
  for_range hcs LSMWorkflow_chain.

Definition RebalanceWorkflow_msg (hc : HostChain) (msg : Msg) : M unit :=
  res ← GenerateAndExecuteICATx (HostChain.ChainId hc) (HostChain.ConnectionId hc)
          (ICAAccount.Owner (HostChain.DelegationAccount hc)) [msg];
  match res with
  | None => skip   (* continue *)
  | Some ibcSeq =>
    modify (SetRedelegationTx
              (RedelegateTx.mk (HostChain.ChainId hc) ibcSeq RedelegateTx_REDELEGATE_SENT))
  end.

(** RebalanceWorkflow tries to make redelegate transactions to host-chain to
    balance the delegations as per the weights. *)
Definition RebalanceWorkflow_chain (epoch : Z) (hc : HostChain) : M unit :=
  (* skip unbonding epoch, as we do not want to redelegate tokens that might
     be going through unbond txn in same epoch *)
  if IsUnbondingEpoch (HostChain.UnbondingFactor hc) epoch then skip else
  msgs ← gets (λ k, GenerateRedelegateMsgs k hc);
  (* send one msg per ica *)
  for_range msgs (RebalanceWorkflow_msg hc).

Definition RebalanceWorkflow (epoch : Z) : M unit :=
  hcs ← gets GetAllHostChains;
  for_range hcs (RebalanceWorkflow_chain epoch).

(** *** Epoch hook *)

Definition AfterEpochEnd (epochIdentifier : string) (epochNumber : Z) : M unit :=
  (if decide (epochIdentifier = DelegationEpoch) then
     call (DepositWorkflow epochNumber) ;;
     call LSMWorkflow
   else skip) ;;
  (if decide (epochIdentifier = UndelegationEpoch) then
     (* attempt to fully undelegate any validators that have been more than
        UnbondingStateEpochLimit epochs in UNBONDING state *)
     call (ValidatorUndelegationWorkflow epochNumber) ;;
     call (UndelegationWorkflow epochNumber)
   else skip) ;;
  (if decide (epochIdentifier = RewardsEpochIdentifier) then
     call (RewardsWorkflow epochNumber)
   else skip) ;;
  (if decide (epochIdentifier = RedelegationEpochIdentifer) then
     call (RebalanceWorkflow epochNumber)
   else skip) ;;
  exit None.

End hooks.

(** * x/ratesync/types: store keys, port identifiers and host-chain validation

    [types/keys.go] and [types/hostchain.go] of the ratesync module.  A Go
    [error] result is [Ok] for nil and [Err] otherwise. *)

Module ratesync.

(** ** Errors

    One constructor per [fmt.Errorf] and [errors.Wrapf] of the two files,
    with the values the message is formatted from. *)

Inductive FeatureType :=
  | FeatureType_LIQUID_STAKE_IBC
  | FeatureType_LIQUID_STAKE
  (** a number the enum does not name *)
  | FeatureType_unnamed (n : Z).

Inductive InstantiationState :=
  | InstantiationState_INSTANTIATION_NOT_INITIATED
  | InstantiationState_INSTANTIATION_INITIATED
  | InstantiationState_INSTANTIATION_COMPLETED
  (** a number the enum does not name *)
  | InstantiationState_unnamed (n : Z).

Inductive Error :=
  (** an error of a library function, returned as it is *)
  | ErrLibrary (msg : string)
  (** hostchain connectionID invalid *)
  | ErrInvalidConnectionID
  (** ica account address for ICAAccount_ICA_CHANNEL_CREATING should be empty *)
  | ErrCreatingWithAddress
  (** no features should be enabled without a valid ICA account *)
  | ErrFeaturesWithoutAccount
  (** ica account address for ICAAccount_ICA_CHANNEL_CREATED should not be empty *)
  | ErrCreatedWithoutAddress
  (** invalid feature type expected %s, got %s *)
  | ErrInvalidFeatureType (expected got : FeatureType)
  (** config with 0 code id should not have been initiated *)
  | ErrZeroCodeIDInitiated
  (** InstantiationState_INSTANTIATION_NOT_INITIATED cannot have contract address *)
  | ErrNotInitiatedWithContract
  (** feature cannot be turned on without instantiation complete *)
  | ErrEnabledBeforeCompletion
  (** InstantiationState_INSTANTIATION_INITIATED cannot have contract address *)
  | ErrInitiatedWithContract
  (** InstantiationState_INSTANTIATION_INITIATED cannot have 0 codeID *)
  | ErrInitiatedZeroCodeID
  (** InstantiationState_INSTANTIATION_COMPLETED cannot have empty contract address *)
  | ErrCompletedWithoutContract
  (** InstantiationState_INSTANTIATION_COMPLETED cannot have 0 codeID *)
  | ErrCompletedZeroCodeID
  (** invalid denom, expected a liquidstaking denom got %s *)
  | ErrInvalidDenom (denom : string)
  (** invalid portID, expect prefix %s *)
  | ErrInvalidPortID (prefix : string)
  (** strconv.ParseUint: invalid syntax, value out of range *)
  | ErrSyntax (num : string)
  | ErrRange (num : string).

Inductive Res (A : Type) : Type :=
  | Ok (a : A)
  | Err (e : Error).
Arguments Ok {A} a.
Arguments Err {A} e.

Global Instance Res_ret : MRet Res := λ A a, Ok a.
Global Instance Res_bind : MBind Res := λ A B f m,
  match m with
  | Ok a => f a
  | Err e => Err e
  end.

(** [if cond { return err }] *)
Definition fail_if (cond : Prop) `{Decision cond} (e : Error) : Res unit :=
  if decide cond then Err e else Ok tt.

(** ** keys.go *)

Definition ModuleName : string := "ratesync".
Definition StoreKey : string := ModuleName.
Definition RouterKey : string := ModuleName.
Definition MemStoreKey : string := "mem_ratesync".
Definition HostChainIDKeyPrefix : string := "host_chain_id".
Definition HostChainKeyPrefix : string := "host_chain".
Definition ParamsKeyPrefix : string := "params".
Definition LiquidStakeAllowAllDenoms : string := "*".
Definition LiquidStakeEpoch : string := "day".
Definition DefaultPortOwnerPrefix : string := "pstake_ratesync_".

(** [byte(v)]: the low eight bits. *)
Definition byte_of_Z (v : Z) : Byte.byte :=
  default Byte.x00 (Byte.of_N (Z.to_N (v `mod` 256))).

(** [binary.BigEndian.PutUint64] on a fresh eight-byte slice. *)
Definition PutUint64 (v : Z) : list Byte.byte :=
  [ byte_of_Z (v ≫ 56); byte_of_Z (v ≫ 48); byte_of_Z (v ≫ 40); byte_of_Z (v ≫ 32);
    byte_of_Z (v ≫ 24); byte_of_Z (v ≫ 16); byte_of_Z (v ≫ 8); byte_of_Z v ].

Definition KeyPrefix (p : string) : list Byte.byte := list_byte_of_string p.

Definition HostChainIDKey : list Byte.byte := KeyPrefix HostChainIDKeyPrefix.

(** HostChainKey returns the store key to retrieve a Chain from the index
    fields. *)
Definition HostChainKey (id : Z) : list Byte.byte :=
  let bz := PutUint64 id in
  KeyPrefix HostChainKeyPrefix ++ bz.

(** ** hostchain.go *)

Module LiquidStake.
Record t := mk {
  FeatureType : FeatureType;
  CodeID : Z;
  Instantiation : InstantiationState;
  ContractAddress : string;
  Denoms : list string;
  Enabled : bool
}.
End LiquidStake.
Abbreviation LiquidStake := LiquidStake.t.

Module Feature.
Record t := mk {
  LiquidStakeIBC : LiquidStake;
  LiquidStake : LiquidStake
}.
End Feature.
Abbreviation Feature := Feature.t.

(** The fields the functions of [hostchain.go] read. *)
Module HostChain.
Record t := mk {
  ConnectionId : string;
  IcaAccount : ICAAccount;
  Features : Feature
}.
End HostChain.
Abbreviation HostChain := HostChain.t.

Global Instance FeatureType_eq_dec : EqDecision FeatureType.
Proof. solve_decision. Defined.
Global Instance InstantiationState_eq_dec : EqDecision InstantiationState.
Proof. solve_decision. Defined.
Global Instance LiquidStake_eq_dec : EqDecision LiquidStake.
Proof. solve_decision. Defined.

(** What [hostchain.go] calls in ibc-go, in the SDK's bech32 package and in
    [x/liquidstakeibc/types].  A validator answers [None] for a nil error and
    the error otherwise. *)
Class Libraries := {
  (** ibcexported.LocalhostConnectionID *)
  LocalhostConnectionID : string;
  (** icatypes.ControllerPortPrefix *)
  ControllerPortPrefix : string;
  (** host.ConnectionIdentifierValidator *)
  ConnectionIdentifierValidator : string → option string;
  (** host.PortIdentifierValidator *)
  PortIdentifierValidator : string → option string;
  (** icatypes.NewControllerPortID: the port identifier, or an error *)
  NewControllerPortID : string → string + string;
  (** the error of bech32.DecodeAndConvert *)
  DecodeAndConvert : string → option string;
  (** liquidstakeibctypes.IsLiquidStakingDenom *)
  IsLiquidStakingDenom : string → bool
}.

(** [err] of a library call, returned when it is not nil. *)
Definition returned_if_error (err : option string) : Res unit :=
  match err with
  | Some msg => Err (ErrLibrary msg)
  | None => Ok tt
  end.

(** [strings.CutPrefix]. *)
Fixpoint trim_prefix (prefix s : string) : option string :=
  match prefix, s with
  | EmptyString, _ => Some s
  | String a prefix', String b s' => if decide (a = b) then trim_prefix prefix' s' else None
  | String _ _, EmptyString => None
  end.

Definition CutPrefix (s prefix : string) : string * bool :=
  match trim_prefix prefix s with
  | Some after => (after, true)
  | None => (s, false)
  end.

(** [strconv.ParseUint(s, 10, 64)]: decimal digits only, no sign, no
    underscores.  The loop ends at the first byte that is not a digit, or at
    the first digit with which the number leaves 64 bits ([n >= cutoff] and
    [n1 < n] in the library). *)
Fixpoint ParseUint_digits (s0 : string) (n : Z) (s : string) : Res Z :=
  match s with
  | EmptyString => Ok n
  | String c s' =>
      match digit_value c with
      | None => Err (ErrSyntax s0)
      | Some d =>
          if 2 ^ 64 <=? 10 * n + d then Err (ErrRange s0)
          else ParseUint_digits s0 (10 * n + d) s'
      end
  end.

Definition ParseUint (s : string) : Res Z :=
  match s with
  | EmptyString => Err (ErrSyntax s)
  | _ => ParseUint_digits s 0 s
  end.

(** [for _, x := range l { body }] where the body returns an error or
    falls through. *)
Fixpoint for_each {X : Type} (l : list X) (body : X → Res unit) : Res unit :=
  match l with
  | [] => Ok tt
  | x :: l' => body x ;; for_each l' body
  end.

(** [slices.Contains] *)
Definition Contains (l : list string) (x : string) : bool := bool_decide (x ∈ l).

Section hostchain.
Context `{Libraries}.

Definition ValidateLiquidStakeDenoms (denoms : list string) : Res unit :=
  let allowAll :=
    match denoms with
    | [denom] => bool_decide (denom = LiquidStakeAllowAllDenoms)
    | _ => false
    end in
  if allowAll then Ok tt else
  for_each denoms (λ denom,
    fail_if (IsLiquidStakingDenom denom = false) (ErrInvalidDenom denom)).

Definition LiquidStake_ValdidateBasic (lsConfig : LiquidStake) : Res unit :=
  (if decide (LiquidStake.CodeID lsConfig = 0) then
     fail_if (LiquidStake.Instantiation lsConfig
              ≠ InstantiationState_INSTANTIATION_NOT_INITIATED) ErrZeroCodeIDInitiated
   else Ok tt) ;;
  match LiquidStake.Instantiation lsConfig with
  | InstantiationState_INSTANTIATION_NOT_INITIATED =>
      fail_if (LiquidStake.ContractAddress lsConfig ≠ "") ErrNotInitiatedWithContract ;;
      fail_if (LiquidStake.Enabled lsConfig = true) ErrEnabledBeforeCompletion
  | InstantiationState_INSTANTIATION_INITIATED =>
      fail_if (LiquidStake.ContractAddress lsConfig ≠ "") ErrInitiatedWithContract ;;
      fail_if (LiquidStake.CodeID lsConfig = 0) ErrInitiatedZeroCodeID ;;
      fail_if (LiquidStake.Enabled lsConfig = true) ErrEnabledBeforeCompletion
  | InstantiationState_INSTANTIATION_COMPLETED =>
      fail_if (LiquidStake.ContractAddress lsConfig = "") ErrCompletedWithoutContract ;;
      returned_if_error (DecodeAndConvert (LiquidStake.ContractAddress lsConfig)) ;;
      fail_if (LiquidStake.CodeID lsConfig = 0) ErrCompletedZeroCodeID
  | InstantiationState_unnamed _ => Ok tt
  end ;;
  ValidateLiquidStakeDenoms (LiquidStake.Denoms lsConfig).

Definition LiquidStake_AllowsAllDenoms (lsConfig : LiquidStake) : bool :=
  match LiquidStake.Denoms lsConfig with
  | [denom] => bool_decide (denom = LiquidStakeAllowAllDenoms)
  | _ => false
  end.

Definition LiquidStake_AllowsDenom (lsConfig : LiquidStake) (denom : string) : bool :=
  if LiquidStake_AllowsAllDenoms lsConfig then true
  else Contains (LiquidStake.Denoms lsConfig) denom.

Definition LiquidStake_Equals (lsConfig l2 : LiquidStake) : bool :=
  if decide (LiquidStake.CodeID lsConfig ≠ LiquidStake.CodeID l2) then false else
  if decide (LiquidStake.Instantiation lsConfig ≠ LiquidStake.Instantiation l2) then false else
  if decide (LiquidStake.ContractAddress lsConfig ≠ LiquidStake.ContractAddress l2)
  then false else
  if negb (bool_decide (LiquidStake.Denoms lsConfig = LiquidStake.Denoms l2)) then false else
  if decide (LiquidStake.FeatureType lsConfig ≠ LiquidStake.FeatureType l2) then false else
  if decide (LiquidStake.Enabled lsConfig ≠ LiquidStake.Enabled l2) then false else
  true.

Definition Feature_ValdidateBasic (f : Feature) : Res unit :=
  fail_if (LiquidStake.FeatureType (Feature.LiquidStakeIBC f) ≠ FeatureType_LIQUID_STAKE_IBC)
    (ErrInvalidFeatureType FeatureType_LIQUID_STAKE_IBC
       (LiquidStake.FeatureType (Feature.LiquidStakeIBC f))) ;;
  LiquidStake_ValdidateBasic (Feature.LiquidStakeIBC f) ;;
  fail_if (LiquidStake.FeatureType (Feature.LiquidStake f) ≠ FeatureType_LIQUID_STAKE)
    (ErrInvalidFeatureType FeatureType_LIQUID_STAKE
       (LiquidStake.FeatureType (Feature.LiquidStake f))) ;;
  LiquidStake_ValdidateBasic (Feature.LiquidStake f).

Definition HostChain_ValidateBasic (hc : HostChain) : Res unit :=
  let err := ConnectionIdentifierValidator (HostChain.ConnectionId hc) in
  fail_if (¬ (err = None ∨ HostChain.ConnectionId hc = LocalhostConnectionID))
    ErrInvalidConnectionID ;;
  (if decide (ICAAccount.Owner (HostChain.IcaAccount hc) ≠ "") then
     match NewControllerPortID (ICAAccount.Owner (HostChain.IcaAccount hc)) with
     | inl err => Err (ErrLibrary err)
     | inr portID => returned_if_error (PortIdentifierValidator portID)
     end
   else Ok tt) ;;
  match ICAAccount.ChannelState (HostChain.IcaAccount hc) with
  | ICAAccount_ICA_CHANNEL_CREATING =>
      fail_if (ICAAccount.Address (HostChain.IcaAccount hc) ≠ "") ErrCreatingWithAddress ;;
      (* No features allowed without ICA account. *)
      fail_if (LiquidStake.Enabled (Feature.LiquidStake (HostChain.Features hc)) = true
               ∨ LiquidStake.Enabled (Feature.LiquidStakeIBC (HostChain.Features hc)) = true)
        ErrFeaturesWithoutAccount
  | ICAAccount_ICA_CHANNEL_CREATED =>
      fail_if (ICAAccount.Address (HostChain.IcaAccount hc) = "") ErrCreatedWithoutAddress ;;
      returned_if_error (DecodeAndConvert (ICAAccount.Address (HostChain.IcaAccount hc)))
  end ;;
  Feature_ValdidateBasic (HostChain.Features hc).

Definition HostChain_IsActive (hc : HostChain) : bool :=
  if LiquidStake.Enabled (Feature.LiquidStakeIBC (HostChain.Features hc))
     || LiquidStake.Enabled (Feature.LiquidStake (HostChain.Features hc))
  then true else false.

(** [None] is the panic on an error of [NewControllerPortID]. *)
Definition MustICAPortIDfromOwner (owner : string) : option string :=
  match NewControllerPortID owner with
  | inl _ => None
  | inr id => Some id
  end.

Definition DefaultPortOwner (id : Z) : string :=
  DefaultPortOwnerPrefix +:+ pretty id.

Definition OwnerfromPortID (portID : string) : Res string :=
  let prefix := ControllerPortPrefix in
  let '(idStr, found) := CutPrefix portID prefix in
  if negb found then Err (ErrInvalidPortID prefix) else
  Ok idStr.

Definition IDfromPortID (portID : string) : Res Z :=
  let prefix := ControllerPortPrefix +:+ DefaultPortOwnerPrefix in
  let '(idStr, found) := CutPrefix portID prefix in
  if negb found then Err (ErrInvalidPortID prefix) else
  id ← ParseUint idStr;
  Ok id.

End hostchain.

End ratesync.

(** * Vocabulary of the properties *)

(** Every record of [batch], rewritten by [g], written to the store in
    turn: what [RevertDepositsState] and [UpdateLSMDepositsStateAndSequence]
    do to their store, and the acknowledgement loop to the deposits. *)
Definition store_set_all {A K : Type} `{EqDecision K} (key : A → K) (g : A → A)
    (batch l : list A) : list A :=
  foldl (λ acc x, store_set key (g x) acc) l batch.

(** The registry and the two deposit stores are left as they were. *)
Definition same_stores (k k' : Keeper) : Prop :=
  hostChains k' = hostChains k
  ∧ deposits k' = deposits k
  ∧ lsmDeposits k' = lsmDeposits k.

(** [k'] has the outbox of [k] and, after it, entries that satisfy [P]. *)
Definition outbox_extends (P : Outbound → Prop) (k k' : Keeper) : Prop :=
  ∃ new, outbox k' = outbox k ++ new ∧ Forall P new.

(** Each guarded step hands out entries for its own chain only, and only
    when that chain is active. *)
Definition for_active (hc : HostChain) (o : Outbound) : Prop :=
  Outbound_chain o = HostChain.ChainId hc ∧ HostChain.Active hc = true.




Definition ack_deposit_event (sequenceID : string) (d : Deposit) : Event :=
  NewEvent EventStakingDepositTransferReceived
    [ NewAttribute AttributeChainID (VString (Deposit.ChainId d));
      NewAttribute AttributeIBCSequenceID (VString sequenceID) ].

(** The host chain with [n] added to the tracked delegation-account balance. *)
Definition credit_balance (n : Z) (hc : HostChain) : HostChain :=
  let balance := ICAAccount.Balance (HostChain.DelegationAccount hc) in
  HostChain.with_DelegationAccount
    (ICAAccount.with_Balance (Coin.mk (Coin.Denom balance) (Coin.Amount balance + n))
       (HostChain.DelegationAccount hc)) hc.

(** The registry after the balance of [chainId] was credited, as the
    acknowledgement loop does it: read, add, write back. *)
Definition credit_chain (n : Z) (chainId : string) (hcs : list HostChain) : list HostChain :=
  match store_get HostChain.ChainId chainId hcs with
  | Some hc => store_set HostChain.ChainId (credit_balance n hc) hcs
  | None => hcs
  end.

Section callback_vocabulary.
Context `{Externals}.

Inductive Callback := AcknowledgementCallback | TimeoutCallback.

(** Delivery of a successful acknowledgement, or of a timeout, for a packet. *)
Definition deliver (c : Callback) (packet : Packet) : M unit :=
  match c with
  | AcknowledgementCallback => OnAcknowledgementIBCTransferPacket packet (Some true) None
  | TimeoutCallback => OnTimeoutIBCTransferPacket packet None
  end.

End callback_vocabulary.

(** The record a settled unbonding becomes. *)
Definition claimable (u : Unbonding) : Unbonding :=
  Unbonding.with_State Unbonding_UNBONDING_CLAIMABLE (Unbonding.with_IbcSequenceId "" u).

Definition unbonding_matured_event (hc : HostChain) (u : Unbonding) : Event :=
  NewEvent EventTypeUnbondingMaturedReceived
    [ NewAttribute AttributeChainID (VString (HostChain.ChainId hc));
      NewAttribute AttributeEpoch (VInt (Unbonding.EpochNumber u));
      NewAttribute AttributeUnbondingMaturedAmount
        (VCoin (NewCoin (HostChain.HostDenom hc) (Coin.Amount (Unbonding.UnbondAmount u)))) ].

(** The reward-withdrawal message for a validator of a chain. *)
Definition withdraw_reward (hc : HostChain) (validator : Validator) : Msg :=
  MsgWithdrawDelegatorReward (ICAAccount.Address (HostChain.DelegationAccount hc))
    (Validator.OperatorAddress validator).

(** The undelegation of everything a validator of a chain holds. *)
Definition undelegate_all (hc : HostChain) (validator : Validator) : Msg :=
  MsgUndelegate (ICAAccount.Address (HostChain.DelegationAccount hc))
    (Validator.OperatorAddress validator)
    (NewCoin (HostChain.HostDenom hc) (Validator.DelegatedAmount validator)).



(** The router accepts every transfer and its first response decodes. *)
Definition router_accepts `{Externals} : Prop :=
  ∀ k msg, ∃ events sequence rest,
    msgRouterHandler k msg = RouterResponse events (Some sequence :: rest).

(** An outbox entry that is the undelegation, in a transaction of its own,
    of everything some validator of a registered chain holds, the validator
    being in unbonding state for longer than the limit at [epoch]. *)
Definition forced_undelegation `{Externals} (k : Keeper) (epoch : Z) (o : Outbound) : Prop :=
  ∃ hc validator res,
    hc ∈ hostChains k
    ∧ validator ∈ HostChain.Validators hc
    ∧ HostChain.Active hc = true
    ∧ IsUnbondingEpoch (HostChain.UnbondingFactor hc) epoch = true
    ∧ 0 < Validator.UnbondingEpoch validator
    ∧ int64 (Validator.UnbondingEpoch validator + UnbondingStateEpochLimit) ≤ epoch
    ∧ o = SentICATx (HostChain.ChainId hc) (HostChain.ConnectionId hc)
            (ICAAccount.Owner (HostChain.DelegationAccount hc))
            [undelegate_all hc validator] res.



(** How a record [d'] of the deposit store after the deposit workflow at
    [epoch] relates to the record [d] it was before: the same, or sent. *)
Definition kept_or_sent (epoch : Z) (d d' : Deposit) : Prop :=
  Deposit.key d' = Deposit.key d
  ∧ Deposit.Amount d' = Deposit.Amount d
  ∧ (d' = d
     ∨ (Deposit.State d = Deposit_DEPOSIT_PENDING
        ∧ Deposit.State d' = Deposit_DEPOSIT_SENT
        ∧ Deposit.Epoch d ≤ epoch
        ∧ 0 < Coin.Amount (Deposit.Amount d))).

(** [w] run on [k] when the epoch identifier is the one the workflow is
    keyed to. *)
Definition when_epoch (epochIdentifier identifier : string) (w : M unit) (k : Keeper)
    : Keeper :=
  if decide (epochIdentifier = identifier) then exec w k else k.

(** A function that does not panic and leaves the two deposit stores as
    they were. *)
Definition keeps_deposits (w : M unit) : Prop :=
  ∀ k, result w k ≠ Panic
       ∧ deposits (exec w k) = deposits k
       ∧ lsmDeposits (exec w k) = lsmDeposits k.

(** A deposit the deposit workflow hands to the router: on a registered,
    active chain, with a positive amount. *)
Definition sendable (k : Keeper) (d : Deposit) : Prop :=
  ∃ hc, GetHostChain (Deposit.ChainId d) k = Some hc
        ∧ 0 < Coin.Amount (Deposit.Amount d)
        ∧ HostChain.Active hc = true.

(** [bytes.Compare]: the order in which a key-value store iterates its keys. *)
Fixpoint Compare (a b : list Byte.byte) : comparison :=
  match a, b with
  | [], [] => Eq
  | [], _ :: _ => Lt
  | _ :: _, [] => Gt
  | x :: a', y :: b' =>
      match (Byte.to_N x ?= Byte.to_N y)%N with
      | Eq => Compare a' b'
      | c => c
      end
  end.

(** The number a byte string spells, most significant byte first. *)
Fixpoint big_endian (l : list Byte.byte) : Z :=
  match l with
  | [] => 0
  | x :: l' => Z.of_N (Byte.to_N x) * 256 ^ Z.of_nat (length l') + big_endian l'
  end.

(** ** A concrete deployment *)

Module Scenario.

(** Collaborators of the scenario: the router accepts every transfer and
    numbers the packets; interchain-account transactions fail on
    [connection-0], whose channel is closed, and succeed elsewhere;
    undelegations are taken from the first validator; a redelegation moves
    half of the difference from the first validator to the second when the
    first holds more. *)
Definition externals : Externals := {|
  DepositModuleAddress := "persistence1deposit";
  UndelegationModuleAddress := "persistence1undelegation";
  IBCTimeoutTimestamp := 1800000000000;
  UnbondingStateEpochLimit := 4;
  DelegationEpoch := "day";
  UndelegationEpoch := "day";
  RewardsEpochIdentifier := "day";
  RedelegationEpochIdentifer := "day";
  IsUnbondingEpoch := λ factor epoch, Z.rem epoch factor =? 0;
  CurrentUnbondingEpoch := λ factor epoch,
    if Z.rem epoch factor =? 0 then epoch else epoch - Z.rem epoch factor + factor;
  IBCDenom := λ hc, "ibc/" +:+ HostChain.HostDenom hc;
  msgRouterHandler := λ k msg,
    RouterResponse [] [Some (Z.of_nat (length (outbox k)) + 1)];
  icaTxResult := λ k connectionId owner msgs,
    if decide (connectionId = "connection-0") then None
    else Some (connectionId +:+ "-sequence-" +:+ pretty (Z.of_nat (length (outbox k)) + 1));
  GenerateUndelegateMessages := λ hc amount,
    match HostChain.Validators hc with
    | [] => None
    | v :: _ =>
        Some [MsgUndelegate (ICAAccount.Address (HostChain.DelegationAccount hc))
                (Validator.OperatorAddress v) (NewCoin (HostChain.HostDenom hc) amount)]
    end;
  GenerateRedelegateMsgs := λ k hc,
    match HostChain.Validators hc with
    | v1 :: v2 :: _ =>
        if Validator.DelegatedAmount v2 <? Validator.DelegatedAmount v1 then
          [MsgBeginRedelegate (ICAAccount.Address (HostChain.DelegationAccount hc))
             (Validator.OperatorAddress v1) (Validator.OperatorAddress v2)
             (NewCoin (HostChain.HostDenom hc)
                ((Validator.DelegatedAmount v1 - Validator.DelegatedAmount v2) `div` 2))]
        else []
    | _ => []
    end;
  redistributedHostChains := λ k hc v, hostChains k;
  sendProtocolFeeFails := λ _ _ _, false;
  queryRewardsFails := λ _ _, false;
  queryNonCompoundableRewardsFails := λ _ _, false
|}.

Definition account (address owner : string) (balance : Z) : ICAAccount :=
  ICAAccount.mk address (Coin.mk "uatom" balance) owner ICAAccount_ICA_CHANNEL_CREATED.

(** [chain-a]: active, behind the closed [connection-0]; its validator has
    been unbonding since epoch 2. *)
Definition chainA : HostChain :=
  HostChain.mk "chain-a" true "channel-0" "connection-0" "uatom"
    (account "cosmos1adelegation" "chain-a.delegation" 0)
    (Some (account "cosmos1arewards" "chain-a.rewards" 0)) false
    [Validator.mk "cosmosvaloper1a" 500 (Dec.mk (10 ^ 18)) 2]
    (Dec.mk (2 * 10 ^ 16)) 4 false.

(** [chain-b]: active, 2% restake fee; its validator has been unbonding
    since epoch 2 as well. *)
Definition chainB : HostChain :=
  HostChain.mk "chain-b" true "channel-1" "connection-1" "uatom"
    (account "cosmos1bdelegation" "chain-b.delegation" 0)
    (Some (account "cosmos1brewards" "chain-b.rewards" 0)) false
    [Validator.mk "cosmosvaloper1b" 700 (Dec.mk (10 ^ 18)) 2]
    (Dec.mk (2 * 10 ^ 16)) 4 false.

(** [chain-i]: not active; its first validator holds more than the second. *)
Definition chainI : HostChain :=
  HostChain.mk "chain-i" false "channel-2" "connection-2" "uatom"
    (account "cosmos1idelegation" "chain-i.delegation" 1000)
    (Some (account "cosmos1irewards" "chain-i.rewards" 0)) false
    [ Validator.mk "cosmosvaloper1i1" 900 (Dec.mk (5 * 10 ^ 17)) 0;
      Validator.mk "cosmosvaloper1i2" 100 (Dec.mk (5 * 10 ^ 17)) 0 ]
    (Dec.mk 0) 4 true.

(** [chain-z]: active, nothing delegated yet. *)
Definition chainZ : HostChain :=
  HostChain.mk "chain-z" true "channel-3" "connection-3" "uatom"
    (account "cosmos1zdelegation" "chain-z.delegation" 0) None false
    [ Validator.mk "cosmosvaloper1z1" 0 (Dec.mk (10 ^ 18)) 0 ]
    (Dec.mk 0) 4 false.

Definition keeper (hcs : list HostChain) (ds : list Deposit) (us : list Unbonding) : Keeper :=
  mkKeeper hcs ds [] us [] [] "persistence1fee" 5 1700000000000000000 [] [] [] [] [].

Definition pending (chainId : string) (epoch amount : Z) : Deposit :=
  Deposit.mk chainId (Coin.mk "ibc/uatom" amount) epoch Deposit_DEPOSIT_PENDING "".

(** Chain-b's deposit of 1000 for epoch 5, transfer in flight. *)
Definition sentDeposit : Deposit :=
  Deposit.mk "chain-b" (Coin.mk "ibc/uatom" 1000) 5 Deposit_DEPOSIT_SENT
    "channel-1-sequence-1".

(** The packet of that transfer, as the callbacks see it. *)
Definition transferData : FungibleTokenPacketData :=
  FungibleTokenPacketData.mk "ibc/uatom" "1000" "persistence1deposit" "cosmos1bdelegation" "".
Definition transferPacket : Packet :=
  Packet.mk 1 "transfer" "channel-1" "transfer" "channel-100" (Some transferData).

(** An inbound transfer of 500 from chain-b's rewards account. *)
Definition rewardsData : FungibleTokenPacketData :=
  FungibleTokenPacketData.mk "uatom" "500" "cosmos1brewards" "persistence1deposit" "".
Definition rewardsPacket : Packet :=
  Packet.mk 7 "transfer" "channel-100" "transfer" "channel-1" (Some rewardsData).


End Scenario.

(** ** More of the deployment *)

Module Fixtures.
Import Scenario.

(** [chain-l]: active, with LSM deposits enabled. *)
Definition chainL : HostChain :=
  HostChain.mk "chain-l" true "channel-4" "connection-4" "ulsm"
    (account "cosmos1ldelegation" "chain-l.delegation" 0)
    (Some (account "cosmos1lrewards" "chain-l.rewards" 0)) false
    [ Validator.mk "cosmosvaloper1l" 100 (Dec.mk (10 ^ 18)) 0 ]
    (Dec.mk 0) 4 true.

(** Two tokenized-share deposits of chain-l: 2.5 shares waiting to be
    transferred, 7 shares in flight. *)
Definition lsmPending : LSMDeposit :=
  LSMDeposit.mk "chain-l" "cosmosvaloper1l/1" "ibc/lsm1" (Dec.mk (25 * 10 ^ 17))
    LSMDeposit_DEPOSIT_PENDING "".
Definition lsmSent : LSMDeposit :=
  LSMDeposit.mk "chain-l" "cosmosvaloper1l/2" "ibc/lsm2" (Dec.mk (7 * 10 ^ 18))
    LSMDeposit_DEPOSIT_SENT "channel-1-sequence-1".

Definition keeperLSM (hcs : list HostChain) (ds : list Deposit) (ls : list LSMDeposit)
    : Keeper :=
  mkKeeper hcs ds ls [] [] [] "persistence1fee" 5 1700000000000000000 [] [] [] [] [].

(** Chain-b's unbondings: epoch 4 has matured, epoch 8 is still pending. *)
Definition maturedB : Unbonding :=
  Unbonding.mk "chain-b" 4 (Coin.mk "uatom" 300) (Coin.mk "stk/uatom" 290)
    Unbonding_UNBONDING_MATURED "connection-1-sequence-9".
Definition pendingB : Unbonding :=
  Unbonding.mk "chain-b" 8 (Coin.mk "uatom" 50) (Coin.mk "stk/uatom" 48)
    Unbonding_UNBONDING_PENDING "".

(** Inbound transfers of chain-b's delegation account: 300 of matured
    unbondings to the undelegation module account, 700 of a forced validator
    unbonding to the deposit module account. *)
Definition unbondedPacket : Packet :=
  Packet.mk 8 "transfer" "channel-100" "transfer" "channel-1"
    (Some (FungibleTokenPacketData.mk
             "uatom" "300" "cosmos1bdelegation" "persistence1undelegation" "")).
Definition validatorUnbondedPacket : Packet :=
  Packet.mk 9 "transfer" "channel-100" "transfer" "channel-1"
    (Some (FungibleTokenPacketData.mk
             "uatom" "700" "cosmos1bdelegation" "persistence1deposit" "")).

(** The ratesync module's libraries: connection and port identifiers are
    checked for their prefix and for being non-empty, addresses for the
    prefix of the chain, liquid-staking denominations for theirs. *)
Definition libraries : ratesync.Libraries := {|
  ratesync.LocalhostConnectionID := "connection-localhost";
  ratesync.ControllerPortPrefix := "icacontroller-";
  ratesync.ConnectionIdentifierValidator := λ id,
    if String.prefix "connection-" id then None else Some "invalid identifier";
  ratesync.PortIdentifierValidator := λ id,
    if decide (id = "") then Some "identifier cannot be blank" else None;
  ratesync.NewControllerPortID := λ owner,
    if decide (owner = "") then inl "owner address cannot be empty"
    else inr ("icacontroller-" +:+ owner);
  ratesync.DecodeAndConvert := λ address,
    if String.prefix "persistence1" address then None else Some "decoding bech32 failed";
  ratesync.IsLiquidStakingDenom := λ denom, String.prefix "stk/" denom
|}.

(** A feature whose contract is instantiated and switched on, and one that
    was never instantiated. *)
Definition liquidStakeIBC : ratesync.LiquidStake :=
  ratesync.LiquidStake.mk ratesync.FeatureType_LIQUID_STAKE_IBC 7
    ratesync.InstantiationState_INSTANTIATION_COMPLETED "persistence1contract"
    ["stk/uatom"] true.
Definition liquidStake : ratesync.LiquidStake :=
  ratesync.LiquidStake.mk ratesync.FeatureType_LIQUID_STAKE 0
    ratesync.InstantiationState_INSTANTIATION_NOT_INITIATED "" [] false.

(** A host chain of the ratesync module whose interchain account is still
    being created. *)
Definition creating : ratesync.HostChain :=
  ratesync.HostChain.mk "connection-7"
    (ICAAccount.mk "" (Coin.mk "" 0) (ratesync.DefaultPortOwner 3)
       ICAAccount_ICA_CHANNEL_CREATING)
    (ratesync.Feature.mk
       (ratesync.LiquidStake.mk ratesync.FeatureType_LIQUID_STAKE_IBC 0
          ratesync.InstantiationState_INSTANTIATION_NOT_INITIATED "" [] false)
       liquidStake).

End Fixtures.

(** * Properties *)

(** ** Lists *)

Lemma filter_nil_Forall {A} (P : A → Prop) `{∀ x, Decision (P x)} (l : list A) :
  Forall (λ x, ¬ P x) l → filter P l = [].
Proof.
  induction 1 as [|x l Hx _ IH]; [done|].
  by rewrite filter_cons_False.
Qed.

Lemma filter_nil_not_elem_of {A} (P : A → Prop) `{∀ x, Decision (P x)} (l : list A) :
  (∀ x, x ∈ l → ¬ P x) → filter P l = [].
Proof. intros Hl. apply filter_nil_Forall. by apply Forall_forall. Qed.

Lemma NoDup_fmap_elem_eq {A B} (f : A → B) (l : list A) (x y : A) :
  NoDup (f <$> l) → x ∈ l → y ∈ l → f x = f y → x = y.
Proof.
  intros Hnd [i Hi]%list_elem_of_lookup [j Hj]%list_elem_of_lookup Hf.
  assert (i = j) as ->; [|congruence].
  eapply NoDup_lookup; [exact Hnd| |]; rewrite list_lookup_fmap.
  - by rewrite Hi.
  - rewrite Hj. simpl. by rewrite Hf.
Qed.

(** ** Keyed stores *)

Section store_facts.
Context {A K : Type} `{EqDecision K} (key : A → K).
Implicit Types (x y : A) (i : K) (l : list A).

Lemma store_get_Some i l x : store_get key i l = Some x → x ∈ l ∧ key x = i.
Proof.
  induction l as [|z l IH]; simpl; [done|].
  destruct (decide (key z = i)) as [Hz|Hz].
  - intros [= ->]. split; [left | done].
  - intros Hx. destruct (IH Hx). split; [by right | done].
Qed.

Lemma store_get_None i l : store_get key i l = None ↔ ∀ x, x ∈ l → key x ≠ i.
Proof.
  induction l as [|z l IH]; simpl.
  - split; [|done]. intros _ x Hx. by apply not_elem_of_nil in Hx.
  - destruct (decide (key z = i)) as [Hz|Hz].
    + split; [done|]. intros Hall. destruct (Hall z); [left | done].
    + rewrite IH. split.
      * intros Hall x [->|Hx]%elem_of_cons; auto.
      * intros Hall x Hx. apply Hall. by right.
Qed.


Lemma store_get_replace i x l :
  store_get key i ((λ y, if decide (key y = key x) then x else y) <$> l)
  = if decide (key x = i) then (λ _, x) <$> store_get key i l else store_get key i l.
Proof.
  induction l as [|z l IH]; csimpl; [by case_decide|].
  rewrite IH. clear IH.
  destruct (decide (key z = key x)), (decide (key x = i));
    repeat case_decide; simplify_eq; done.
Qed.

Lemma store_get_app_None i l l' :
  store_get key i l = None → store_get key i (l ++ l') = store_get key i l'.
Proof.
  induction l as [|z l IH]; simpl; [done|].
  destruct (decide (key z = i)); [done | auto].
Qed.

Lemma store_get_app_Some i l l' x :
  store_get key i l = Some x → store_get key i (l ++ l') = Some x.
Proof.
  induction l as [|z l IH]; simpl; [done|].
  destruct (decide (key z = i)); [done | auto].
Qed.

(** Reading back what was just written. *)
Lemma store_get_set_eq x l : store_get key (key x) (store_set key x l) = Some x.
Proof.
  unfold store_set. destruct (store_get key (key x) l) eqn:E.
  - rewrite store_get_replace, decide_True by done. by rewrite E.
  - rewrite (store_get_app_None _ _ _ E). simpl. by rewrite decide_True.
Qed.

(** Other keys are not affected by a write. *)
Lemma store_get_set_ne i x l :
  key x ≠ i → store_get key i (store_set key x l) = store_get key i l.
Proof.
  intros Hne. unfold store_set. destruct (store_get key (key x) l) eqn:E.
  - by rewrite store_get_replace, decide_False.
  - destruct (store_get key i l) eqn:E'.
    + by apply store_get_app_Some.
    + rewrite (store_get_app_None _ _ _ E'). simpl. by rewrite decide_False.
Qed.

Lemma store_get_set_is_Some i x (l : list A) :
  is_Some (store_get key i l) → is_Some (store_get key i (store_set key x l)).
Proof.
  intros Hi. destruct (decide (key x = i)) as [<-|Hne].
  - rewrite store_get_set_eq. by eexists.
  - by rewrite store_get_set_ne.
Qed.

Lemma elem_of_store_set y x l :
  y ∈ store_set key x l → y = x ∨ (y ∈ l ∧ key y ≠ key x).
Proof.
  unfold store_set. destruct (store_get key (key x) l) eqn:E.
  - intros (z & -> & Hz)%list_elem_of_fmap.
    destruct (decide (key z = key x)); [by left | by right].
  - intros [Hy| ->%list_elem_of_singleton]%elem_of_app; [|by left].
    right. split; [done|]. rewrite store_get_None in E. auto.
Qed.

Lemma elem_of_store_delete y i l : y ∈ store_delete key i l ↔ key y ≠ i ∧ y ∈ l.
Proof. unfold store_delete. by rewrite list_elem_of_filter. Qed.





End store_facts.

(** ** Rewriting a batch of stored records *)

Section store_batch.
Context {A K : Type} `{EqDecision K} (key : A → K).
Context (g : A → A) (Hg : ∀ x, key (g x) = key x).

Lemma store_set_cons_ne y x (l : list A) :
  key x ≠ key y → store_set key y (x :: l) = x :: store_set key y l.
Proof.
  intros Hne. unfold store_set. simpl. rewrite decide_False by done.
  destruct (store_get key (key y) l); csimpl; [|done].
  by rewrite decide_False.
Qed.

Lemma store_set_cons_eq y x (l : list A) :
  key x = key y → (∀ z, z ∈ l → key z ≠ key y) → store_set key y (x :: l) = y :: l.
Proof.
  intros Heq Hl. unfold store_set. simpl. rewrite decide_True by done. csimpl.
  rewrite decide_True by done. f_equal.
  rewrite <- (list_fmap_id l) at 2. apply list_fmap_ext. intros i z Hz.
  rewrite decide_False; [done|]. apply Hl. by eapply list_elem_of_lookup_2.
Qed.

Lemma store_set_all_cons_ne batch x (l : list A) :
  (∀ s, s ∈ batch → key s ≠ key x) →
  store_set_all key g batch (x :: l) = x :: store_set_all key g batch l.
Proof.
  unfold store_set_all. revert l. induction batch as [|s batch IH]; intros l Hb; simpl; [done|].
  rewrite store_set_cons_ne.
  - apply IH. intros s' Hs'. apply Hb. by right.
  - rewrite Hg. intros Heq. by apply (Hb s); [left|].
Qed.

(** With unique keys, rewriting the records selected by [P] is a map. *)
Lemma store_set_all_filter (P : A → Prop) `{∀ x, Decision (P x)} (l : list A) :
  NoDup (key <$> l) →
  store_set_all key g (filter P l) l = (λ x, if decide (P x) then g x else x) <$> l.
Proof.
  induction l as [|x l IH]; [done|].
  rewrite fmap_cons. intros [Hx Hnd]%NoDup_cons.
  assert (∀ z, z ∈ l → key z ≠ key x) as Hl.
  { intros z Hz Heq. apply Hx. rewrite <- Heq. apply list_elem_of_fmap. eauto. }
  assert (∀ s, s ∈ filter P l → key s ≠ key x) as Hf.
  { intros s [_ Hs]%list_elem_of_filter. auto. }
  csimpl. destruct (decide (P x)) as [HP|HP].
  - rewrite filter_cons_True by done. unfold store_set_all. simpl.
    rewrite store_set_cons_eq.
    + fold (store_set_all key g (filter P l) (g x :: l)).
      rewrite store_set_all_cons_ne; [by rewrite IH|].
      intros s Hs. rewrite Hg. auto.
    + by rewrite Hg.
    + intros z Hz. rewrite Hg. auto.
  - rewrite filter_cons_False by done.
    rewrite store_set_all_cons_ne by done. by rewrite IH.
Qed.

(** Without any assumption on keys: once every selected record has been
    rewritten to one that is not selected, none is left. *)
Lemma store_set_all_clears (P : A → Prop) (batch l : list A) :
  (∀ x, ¬ P (g x)) →
  (∀ y, y ∈ l → P y → y ∈ batch) →
  ∀ y, y ∈ store_set_all key g batch l → ¬ P y.
Proof.
  intros HP. unfold store_set_all. revert l.
  induction batch as [|s batch IH]; intros l Hl y; simpl.
  - intros Hy Hyes. by destruct (not_elem_of_nil y (Hl y Hy Hyes)).
  - apply IH. intros z [->|[Hz Hne]]%elem_of_store_set Hyes; [by destruct (HP s)|].
    pose proof (Hl z Hz Hyes) as [->|Hin]%elem_of_cons; [|done].
    by rewrite Hg in Hne.
Qed.

End store_batch.

(** ** Control flow *)

Ltac unfold_M :=
  unfold skip; unfold gets, modify, exit, panic, mbind, mret; unfold M_bind, M_ret.

Lemma for_range_app {X} (l1 l2 : list X) (body : X → M unit) (k : Keeper) :
  for_range (l1 ++ l2) body k
  = match for_range l1 body k with
    | (k', Next _) => for_range l2 body k'
    | (k', Exit e) => (k', Exit e)
    | (k', Panic) => (k', Panic)
    end.
Proof.
  revert k. induction l1 as [|x l1 IH]; intros k; simpl; [done|].
  unfold_M. destruct (body x k) as [k' [[]|e|]]; [apply IH | done | done].
Qed.


(** A loop whose body always falls through runs every iteration. *)
Lemma for_range_total {X} (l : list X) (body : X → M unit) (k : Keeper) :
  (∀ x k, x ∈ l → snd (body x k) = Next tt) →
  for_range l body k = (foldl (λ k x, exec (body x) k) k l, Next tt).
Proof.
  revert k. induction l as [|x l IH]; intros k Hbody; simpl; [done|].
  unfold_M. unfold exec at 2. pose proof (Hbody x k (list_elem_of_here _ _)) as Hx.
  destruct (body x k) as [k' r]; simpl in *; subst r.
  apply IH. intros y k'' Hy. apply Hbody. by right.
Qed.

Lemma for_range_falls_through {X} (l : list X) (body : X → M unit) (k : Keeper) :
  (∀ x k, x ∈ l → snd (body x k) = Next tt) →
  for_range l body k = (exec (for_range l body) k, Next tt).
Proof. intros Hbody. unfold exec. by rewrite for_range_total. Qed.

Lemma for_range_Next {X} (l : list X) (body : X → M unit) (k : Keeper) :
  snd (for_range l body k) = Next tt →
  exec (for_range l body) k = foldl (λ k x, exec (body x) k) k l.
Proof.
  unfold exec. revert k. induction l as [|x l IH]; intros k; simpl; [done|].
  unfold_M. destruct (body x k) as [k' [[]|e|]]; simpl; [apply IH | done | done].
Qed.

(** What a loop returns early is what some iteration returned. *)
Lemma for_range_Exit {X} (P : option Error → Prop) (l : list X) (body : X → M unit) k e :
  (∀ x k e, x ∈ l → snd (body x k) = Exit e → P e) →
  snd (for_range l body k) = Exit e → P e.
Proof.
  revert k. induction l as [|x l IH]; intros k Hbody; simpl; [done|].
  unfold_M. pose proof (Hbody x k) as Hx.
  destruct (body x k) as [k' [[]|e'|]]; simpl in *.
  - apply IH. intros y k'' e'' Hy. apply Hbody. by right.
  - intros [= ->]. apply Hx; [left | done].
  - done.
Qed.

(** An invariant of the body is an invariant of the loop, however it ends. *)
Lemma for_range_invariant {X} (I : Keeper → Prop) (l : list X) (body : X → M unit) k :
  (∀ x k, x ∈ l → I k → I (exec (body x) k)) →
  I k → I (exec (for_range l body) k).
Proof.
  revert k. induction l as [|x l IH]; intros k Hbody Hk; simpl; [done|].
  pose proof (Hbody x k (list_elem_of_here _ _) Hk) as Hx.
  assert (∀ k', I k' → I (exec (for_range l body) k')) as IH'.
  { intros k' Hk'. apply IH; [|done]. intros y k'' Hy. apply Hbody. by right. }
  unfold exec in *. unfold_M.
  destruct (body x k) as [k' [[]|e|]]; simpl in *; auto.
Qed.

Lemma exec_then_exit (m : M unit) (e : option Error) (k : Keeper) :
  exec (m ;; (exit e : M unit)) k = exec m k.
Proof. unfold exec. unfold_M. by destruct (m k) as [k' [[]|e'|]]. Qed.

(** ** Keeper accessors *)

Lemma foldl_set_deposits (f : Deposit → list Deposit → list Deposit) ds k :
  foldl (λ k d, set_deposits (f d) k) k ds
  = set_deposits (λ l, foldl (λ l d, f d l) l ds) k.
Proof.
  revert k. induction ds as [|d ds IH]; intros k; simpl; [by destruct k|].
  by rewrite IH.
Qed.

Lemma foldl_set_lsmDeposits (f : LSMDeposit → list LSMDeposit → list LSMDeposit) ds k :
  foldl (λ k d, set_lsmDeposits (f d) k) k ds
  = set_lsmDeposits (λ l, foldl (λ l d, f d l) l ds) k.
Proof.
  revert k. induction ds as [|d ds IH]; intros k; simpl; [by destruct k|].
  by rewrite IH.
Qed.

Lemma RevertDepositsState_spec ds k :
  RevertDepositsState ds k
  = set_deposits
      (store_set_all Deposit.key (Deposit.with_State_Sequence Deposit_DEPOSIT_PENDING "") ds) k.
Proof. apply (foldl_set_deposits (λ d, store_set Deposit.key _)). Qed.

Lemma UpdateLSMDepositsStateAndSequence_spec ds state sequenceID k :
  UpdateLSMDepositsStateAndSequence ds state sequenceID k
  = set_lsmDeposits
      (store_set_all LSMDeposit.key (LSMDeposit.with_State_Sequence state sequenceID) ds) k.
Proof. apply (foldl_set_lsmDeposits (λ d, store_set LSMDeposit.key _)). Qed.

Lemma GetTransactionSequenceID_nonempty channelID sequence :
  GetTransactionSequenceID channelID sequence ≠ "".
Proof. unfold GetTransactionSequenceID. by destruct channelID. Qed.

Lemma GetHostChain_ChainId c k hc : GetHostChain c k = Some hc → HostChain.ChainId hc = c.
Proof. intros Hhc. by apply store_get_Some in Hhc as [_ ?]. Qed.


Lemma GetUnbonding_SetUnbonding_eq u k :
  GetUnbonding (Unbonding.ChainId u) (Unbonding.EpochNumber u) (SetUnbonding u k) = Some u.
Proof. apply (store_get_set_eq Unbonding.key). Qed.

Lemma GetUnbonding_SetUnbonding_ne c b u k :
  Unbonding.key u ≠ (c, b) → GetUnbonding c b (SetUnbonding u k) = GetUnbonding c b k.
Proof. apply (store_get_set_ne Unbonding.key). Qed.








(** ** What the workflows hand out *)

Lemma outbox_extends_refl P k : outbox_extends P k k.
Proof. exists []. by rewrite app_nil_r. Qed.

Lemma outbox_extends_same P k k' : outbox k' = outbox k → outbox_extends P k k'.
Proof. intros Heq. exists []. by rewrite app_nil_r. Qed.

Lemma outbox_extends_trans P k1 k2 k3 :
  outbox_extends P k1 k2 → outbox_extends P k2 k3 → outbox_extends P k1 k3.
Proof.
  intros (n1 & H1 & Hn1) (n2 & H2 & Hn2). exists (n1 ++ n2).
  rewrite H2, H1, <- app_assoc. split; [done|]. by apply Forall_app.
Qed.

Lemma outbox_extends_weaken (P Q : Outbound → Prop) k k' :
  (∀ o, P o → Q o) → outbox_extends P k k' → outbox_extends Q k k'.
Proof.
  intros HPQ (new & Hout & Hnew). exists new. split; [done|].
  eapply Forall_impl; [exact Hnew | exact HPQ].
Qed.

Lemma outbox_extends_filter (c : string) k k' :
  outbox_extends (λ o, Outbound_chain o ≠ c) k k' →
  filter (λ o, Outbound_chain o = c) (outbox k')
  = filter (λ o, Outbound_chain o = c) (outbox k).
Proof.
  intros (new & -> & Hnew). rewrite filter_app.
  rewrite (filter_nil_Forall _ new); [by rewrite app_nil_r|].
  eapply Forall_impl; [exact Hnew|]. done.
Qed.

Lemma for_range_outbox {X} (P : Outbound → Prop) (l : list X) (body : X → M unit) k :
  (∀ x k0, x ∈ l → outbox_extends P k0 (exec (body x) k0)) →
  outbox_extends P k (exec (for_range l body) k).
Proof.
  intros Hbody. apply (for_range_invariant (outbox_extends P k)).
  - intros x k0 Hx Hk0. eapply outbox_extends_trans; [exact Hk0|]. by apply Hbody.
  - apply outbox_extends_refl.
Qed.

Lemma for_range_acc_outbox {X S} (P : Outbound → Prop) (l : list X) (acc : S)
    (body : S → X → M S) k :
  (∀ a x k0, x ∈ l → outbox_extends P k0 (exec (body a x) k0)) →
  outbox_extends P k (exec (for_range_acc l acc body) k).
Proof.
  revert acc k. induction l as [|x l IH]; intros acc k Hbody; simpl.
  { apply outbox_extends_refl. }
  pose proof (Hbody acc x k (list_elem_of_here _ _)) as Hx.
  assert (∀ a k0, outbox_extends P k0 (exec (for_range_acc l a body) k0)) as IH'.
  { intros a k0. apply IH. intros a' y k1 Hy. apply Hbody. by right. }
  unfold exec in *. unfold_M.
  destruct (body acc x k) as [k' [a| |]]; simpl in *; [|done..].
  eapply outbox_extends_trans; [exact Hx | apply IH'].
Qed.

Ltac solve_outbox_extends :=
  first [ apply outbox_extends_same; reflexivity
        | eexists [_]; split; [reflexivity | by repeat constructor] ].

(** ** Undelegation workflow *)

Section undelegation.
Context `{Externals}.



Lemma UndelegationWorkflow_chain_outbox epoch hc k :
  outbox_extends (for_active hc) k (exec (UndelegationWorkflow_chain epoch hc) k).
Proof.
  unfold exec, UndelegationWorkflow_chain, unsuccessful_undelegation,
    GenerateAndExecuteICATx, EmitEvent. unfold_M.
  destruct (HostChain.Active hc) eqn:Hactive; simpl; [|apply outbox_extends_refl].
  repeat (case_match; simplify_eq/=); solve_outbox_extends.
Qed.


End undelegation.

(** ** Rewards workflow *)

Section rewards.
Context `{Externals}.

Lemma RewardsWorkflow_messages_nil hc :
  Forall (λ v, Validator.DelegatedAmount v ≤ 0) (HostChain.Validators hc) →
  RewardsWorkflow_messages hc = [].
Proof.
  unfold RewardsWorkflow_messages. generalize (@nil Msg).
  intros acc Hall. revert acc.
  induction Hall as [|v vs Hv _ IH]; intros acc; simpl; [done|].
  rewrite (proj2 (Z.ltb_ge 0 _)) by done. apply IH.
Qed.

Lemma RewardsWorkflow_chain_total epoch hc k :
  snd (RewardsWorkflow_chain epoch hc k) = Next tt.
Proof.
  unfold RewardsWorkflow_chain, GenerateAndExecuteICATx, EmitEvent,
    QueryRewardsHostChainAccountBalance, QueryNonCompoundableRewardsHostChainAccountBalance.
  unfold_M. repeat (case_match; simpl; try done).
Qed.

(** What one chain's step adds to the outbox: entries for that chain, and
    none at all when there is no message to send. *)
Lemma RewardsWorkflow_chain_outbox epoch hc k :
  ∃ new, outbox (exec (RewardsWorkflow_chain epoch hc) k) = outbox k ++ new
         ∧ Forall (λ o, Outbound_chain o = HostChain.ChainId hc) new
         ∧ (RewardsWorkflow_messages hc = [] → new = []).
Proof.
  unfold exec, RewardsWorkflow_chain, GenerateAndExecuteICATx, EmitEvent,
    QueryRewardsHostChainAccountBalance, QueryNonCompoundableRewardsHostChainAccountBalance.
  unfold_M.
  destruct (HostChain.Active hc); simpl;
    [|exists []; by rewrite app_nil_r].
  destruct (RewardsWorkflow_messages hc) as [|m ms] eqn:Hms; simpl.
  - exists []. rewrite app_nil_r. split_and!; [|done..].
    repeat (case_match; simplify_eq/=; try done).
  - exists [SentICATx (HostChain.ChainId hc) (HostChain.ConnectionId hc)
              (ICAAccount.Owner (HostChain.DelegationAccount hc)) (m :: ms)
              (icaTxResult k (HostChain.ConnectionId hc)
                 (ICAAccount.Owner (HostChain.DelegationAccount hc)) (m :: ms))].
    split_and!; [|by repeat constructor|done].
    repeat (case_match; simplify_eq/=; try done).
Qed.

Lemma RewardsWorkflow_chain_for_active epoch hc k :
  outbox_extends (for_active hc) k (exec (RewardsWorkflow_chain epoch hc) k).
Proof.
  destruct (HostChain.Active hc) eqn:Hactive.
  - destruct (RewardsWorkflow_chain_outbox epoch hc k) as (new & Hout & Hnew & _).
    exists new. split; [done|]. eapply Forall_impl; [exact Hnew|]. by split.
  - unfold exec, RewardsWorkflow_chain. rewrite Hactive. apply outbox_extends_refl.
Qed.

(** C10. In the Rewards workflow, an active host chain none of whose
    validators has a strictly positive delegated amount gets no remote batch
    transaction: its step leaves the outbox as it is, and no entry for the
    chain is added by the whole run. *)
Theorem rewards_without_delegations_submit_nothing
    (epoch : Z) (k : Keeper) (hc : HostChain) :
  hc ∈ hostChains k →
  NoDup (HostChain.ChainId <$> hostChains k) →
  HostChain.Active hc = true →
  Forall (λ v, ¬ 0 < Validator.DelegatedAmount v) (HostChain.Validators hc) →
  (∀ k0, outbox (exec (RewardsWorkflow_chain epoch hc) k0) = outbox k0)
  ∧ filter (λ o, Outbound_chain o = HostChain.ChainId hc)
           (outbox (exec (RewardsWorkflow epoch) k))
    = filter (λ o, Outbound_chain o = HostChain.ChainId hc) (outbox k).
Proof.
  intros Hhc Hnd Hactive Hvals.
  assert (RewardsWorkflow_messages hc = []) as Hnil.
  { apply RewardsWorkflow_messages_nil. eapply Forall_impl; [exact Hvals|].
    simpl. intros v. lia. }
  split.
  - intros k0. destruct (RewardsWorkflow_chain_outbox epoch hc k0) as (new & -> & _ & Hnew).
    rewrite (Hnew Hnil). by rewrite app_nil_r.
  - unfold RewardsWorkflow, GetAllHostChains, exec at 1. unfold_M.
    fold (exec (for_range (hostChains k) (RewardsWorkflow_chain epoch)) k).
    apply (for_range_invariant
             (λ k', filter (λ o, Outbound_chain o = HostChain.ChainId hc) (outbox k')
                    = filter (λ o, Outbound_chain o = HostChain.ChainId hc) (outbox k)));
      [|done].
    intros hc' k' Hhc' <-.
    destruct (RewardsWorkflow_chain_outbox epoch hc' k') as (new & -> & Hall & Hnew).
    rewrite filter_app.
    destruct (decide (HostChain.ChainId hc' = HostChain.ChainId hc)) as [Heq|Hne].
    + assert (hc' = hc) as -> by (by eapply NoDup_fmap_elem_eq).
      rewrite (Hnew Hnil). by rewrite app_nil_r.
    + rewrite (filter_nil_Forall _ new); [by rewrite app_nil_r|].
      eapply Forall_impl; [exact Hall|]. simpl. congruence.
Qed.

End rewards.

(** ** Deposit workflow *)

Section deposit.
Context `{Externals}.

Ltac unfold_deposit_step :=
  unfold exec, DepositWorkflow_deposit, routeTransfer, EmitEvent, EmitEvents,
    NewMsgTransfer; unfold_M.

(** The deposit step never touches the registry. *)
Lemma DepositWorkflow_deposit_hostChains epoch d k :
  hostChains (exec (DepositWorkflow_deposit epoch d) k) = hostChains k.
Proof. unfold_deposit_step. repeat (case_match; simplify_eq/=; try done). Qed.



Lemma DepositWorkflow_deposit_for_active epoch d k :
  outbox_extends (λ o, ∃ hc, hc ∈ hostChains k ∧ for_active hc o) k
    (exec (DepositWorkflow_deposit epoch d) k).
Proof.
  unfold exec, DepositWorkflow_deposit, routeTransfer, EmitEvent, EmitEvents. unfold_M.
  destruct (GetHostChain _ k) as [hc|] eqn:Hhc; simpl; [|apply outbox_extends_refl].
  apply store_get_Some in Hhc as [Hhc _].
  destruct (_ <=? 0); simpl; [case_match; solve_outbox_extends|].
  destruct (HostChain.Active hc) eqn:Hactive; simpl; [|apply outbox_extends_refl].
  repeat (case_match; simplify_eq/=);
    (eexists [_]; split; [reflexivity|]; repeat constructor; by exists hc).
Qed.



Lemma DepositWorkflow_loop_hostChains epoch (l : list Deposit) k :
  hostChains (exec (for_range l (DepositWorkflow_deposit epoch)) k) = hostChains k.
Proof.
  apply (for_range_invariant (λ k', hostChains k' = hostChains k)); [|done].
  intros x k' _ <-. apply DepositWorkflow_deposit_hostChains.
Qed.


End deposit.

(** ** The Active flag *)

Section inactive.
Context `{Externals}.

Lemma ValidatorUndelegationWorkflow_chain_outbox epoch hc k :
  outbox_extends (for_active hc) k (exec (ValidatorUndelegationWorkflow_chain epoch hc) k).
Proof.
  unfold ValidatorUndelegationWorkflow_chain.
  destruct (HostChain.Active hc) eqn:Hactive; simpl; [|apply outbox_extends_refl].
  case_match; simpl; [apply outbox_extends_refl|].
  apply for_range_outbox. intros v k0 _.
  unfold exec, ValidatorUndelegationWorkflow_validator, GenerateAndExecuteICATx,
    RedistributeValidatorWeight, EmitEvent. unfold_M.
  repeat (case_match; simplify_eq/=); solve_outbox_extends.
Qed.

Lemma LSMWorkflow_chain_outbox hc k :
  outbox_extends (for_active hc) k (exec (LSMWorkflow_chain hc) k).
Proof.
  unfold LSMWorkflow_chain.
  destruct (HostChain.Active hc) eqn:Hactive; simpl; [|apply outbox_extends_refl].
  case_match; simpl; [apply outbox_extends_refl|].
  unfold exec. unfold_M.
  match goal with |- context [for_range_acc ?l ?a ?body k] =>
    pose proof (for_range_acc_outbox (for_active hc) l a body k) as Hloop;
    unfold exec in Hloop;
    destruct (for_range_acc l a body k) as [k1 [total| |]]
  end; simpl in *; unfold EmitEvent; unfold_M; simpl; apply Hloop;
    intros a d k0 _;
    unfold exec, LSMWorkflow_deposit, routeTransfer, EmitEvents; unfold_M;
    (repeat (case_match; simplify_eq/=)); solve_outbox_extends.
Qed.

(** Of the six workflows, five test the Active flag: for a chain that is
    registered as inactive, the Deposit, LSM, Undelegation, Validator
    Lifecycle and Rewards workflows add no entry to the outbox. *)
Theorem guarded_workflows_send_nothing_for_inactive_chain (epoch : Z) (k : Keeper)
    (c : string) :
  let sent (k0 : Keeper) := filter (λ o, Outbound_chain o = c) (outbox k0) in
  (∀ hc, hc ∈ hostChains k → HostChain.ChainId hc = c → HostChain.Active hc = false) →
  sent (exec (DepositWorkflow epoch) k) = sent k
  ∧ sent (exec LSMWorkflow k) = sent k
  ∧ sent (exec (UndelegationWorkflow epoch) k) = sent k
  ∧ sent (exec (ValidatorUndelegationWorkflow epoch) k) = sent k
  ∧ sent (exec (RewardsWorkflow epoch) k) = sent k.
Proof.
  intros sent Hinactive.
  assert (∀ hc o, hc ∈ hostChains k → for_active hc o → Outbound_chain o ≠ c) as Hother.
  { intros hc o Hhc [Ho Hactive] Hc. rewrite Hinactive in Hactive; [done..|congruence]. }
  assert (∀ body : HostChain → M unit,
            (∀ hc k0, outbox_extends (for_active hc) k0 (exec (body hc) k0)) →
            sent (exec (for_range (hostChains k) body) k) = sent k) as Hloop.
  { intros body Hbody. apply outbox_extends_filter, for_range_outbox.
    intros hc k0 Hhc. eapply outbox_extends_weaken; [|apply Hbody]. eauto. }
  split_and!.
  - apply outbox_extends_filter.
    change (exec (DepositWorkflow epoch) k)
      with (exec (for_range (GetPendingDepositsBeforeEpoch epoch k)
                    (DepositWorkflow_deposit epoch)) k).
    apply (for_range_invariant
             (λ k0, hostChains k0 = hostChains k
                    ∧ outbox_extends (λ o, Outbound_chain o ≠ c) k k0)).
    + intros d k0 _ [Hhcs Hout]. split.
      * by rewrite DepositWorkflow_deposit_hostChains.
      * eapply outbox_extends_trans; [exact Hout|].
        eapply outbox_extends_weaken; [|apply DepositWorkflow_deposit_for_active].
        intros o (hc & Hhc & Ho). rewrite Hhcs in Hhc. eauto.
    + split; [done | apply outbox_extends_refl].
  - apply (Hloop LSMWorkflow_chain), LSMWorkflow_chain_outbox.
  - apply (Hloop (UndelegationWorkflow_chain epoch)), UndelegationWorkflow_chain_outbox.
  - apply (Hloop (ValidatorUndelegationWorkflow_chain epoch)),
      ValidatorUndelegationWorkflow_chain_outbox.
  - apply (Hloop (RewardsWorkflow_chain epoch)), RewardsWorkflow_chain_for_active.
Qed.

(** The Rebalance workflow has no such test: whatever the allocation
    returns for a chain outside its unbonding epoch is submitted, message by
    message, active or not. *)
Lemma RebalanceWorkflow_chain_submits epoch hc k msg msgs :
  IsUnbondingEpoch (HostChain.UnbondingFactor hc) epoch = false →
  GenerateRedelegateMsgs k hc = msg :: msgs →
  ∃ rest,
    outbox (exec (RebalanceWorkflow_chain epoch hc) k)
    = outbox k
      ++ SentICATx (HostChain.ChainId hc) (HostChain.ConnectionId hc)
           (ICAAccount.Owner (HostChain.DelegationAccount hc)) [msg]
           (icaTxResult k (HostChain.ConnectionId hc)
              (ICAAccount.Owner (HostChain.DelegationAccount hc)) [msg])
         :: rest.
Proof.
  intros Hepoch Hmsgs. unfold RebalanceWorkflow_chain. rewrite Hepoch.
  unfold exec. unfold_M. rewrite Hmsgs. simpl. unfold_M.
  unfold RebalanceWorkflow_msg at 1, GenerateAndExecuteICATx. unfold_M.
  assert (∀ k0, outbox_extends (λ _, True) k0
                  (exec (for_range msgs (RebalanceWorkflow_msg hc)) k0)) as Hloop.
  { intros k0. apply for_range_outbox. intros m k1 _.
    unfold exec, RebalanceWorkflow_msg, GenerateAndExecuteICATx. unfold_M.
    case_match; eexists [_]; split; try reflexivity; by repeat constructor. }
  destruct (icaTxResult _ _ _ _); simpl;
    match goal with |- context [for_range msgs _ ?k0] =>
      destruct (Hloop k0) as (rest & Hrest & _); unfold exec in Hrest; exists rest;
      destruct (for_range msgs (RebalanceWorkflow_msg hc) k0) as [k1 [[]|e|]]
    end; simpl in *; by rewrite Hrest, <- app_assoc.
Qed.

(** In the Validator Lifecycle Manager a failed submission is a [return]:
    the workflow ends there, whatever chains and validators are left. *)
Lemma ValidatorUndelegationWorkflow_returns_on_failure epoch k
    (pre post : list HostChain) hc (vpre vpost : list Validator) v k1 k2 :
  hostChains k = pre ++ hc :: post →
  for_range pre (ValidatorUndelegationWorkflow_chain epoch) k = (k1, Next tt) →
  HostChain.Active hc = true →
  IsUnbondingEpoch (HostChain.UnbondingFactor hc) epoch = true →
  HostChain.Validators hc = vpre ++ v :: vpost →
  for_range vpre (ValidatorUndelegationWorkflow_validator epoch hc) k1 = (k2, Next tt) →
  0 < Validator.UnbondingEpoch v →
  int64 (Validator.UnbondingEpoch v + UnbondingStateEpochLimit) ≤ epoch →
  icaTxResult k2 (HostChain.ConnectionId hc)
    (ICAAccount.Owner (HostChain.DelegationAccount hc))
    [MsgUndelegate (ICAAccount.Address (HostChain.DelegationAccount hc))
       (Validator.OperatorAddress v)
       (NewCoin (HostChain.HostDenom hc) (Validator.DelegatedAmount v))] = None →
  ValidatorUndelegationWorkflow epoch k
  = (set_outbox
       (λ o, o ++ [SentICATx (HostChain.ChainId hc) (HostChain.ConnectionId hc)
                     (ICAAccount.Owner (HostChain.DelegationAccount hc))
                     [MsgUndelegate (ICAAccount.Address (HostChain.DelegationAccount hc))
                        (Validator.OperatorAddress v)
                        (NewCoin (HostChain.HostDenom hc) (Validator.DelegatedAmount v))]
                     None]) k2,
     Exit None).
Proof.
  intros Hhcs Hpre Hactive Hepoch Hvals Hvpre Hdue1 Hdue2 Hfail.
  unfold ValidatorUndelegationWorkflow, GetAllHostChains. unfold_M.
  rewrite Hhcs, for_range_app, Hpre. simpl. unfold_M.
  unfold ValidatorUndelegationWorkflow_chain at 1. rewrite Hactive, Hepoch. simpl.
  rewrite Hvals, for_range_app, Hvpre. simpl. unfold_M.
  unfold ValidatorUndelegationWorkflow_validator at 1, GenerateAndExecuteICATx. unfold_M.
  rewrite (proj2 (Z.ltb_lt _ _) Hdue1), (proj2 (Z.leb_le _ _) Hdue2). simpl.
  by rewrite Hfail.
Qed.

End inactive.

(** ** Timeout and acknowledgement callbacks *)

Section callbacks.
Context `{Externals}.

Lemma emit_lsmDeposit_event_stores ty sequenceID (l : list LSMDeposit) k :
  same_stores k (exec (for_range l (emit_lsmDeposit_event ty sequenceID)) k).
Proof.
  apply (for_range_invariant (same_stores k)); [|done].
  intros d k' _ Hk'. unfold exec, emit_lsmDeposit_event, EmitEvent. unfold_M.
  by destruct (GetHostChain _ k').
Qed.


Lemma emit_lsmDeposit_event_Exit ty sequenceID d k e :
  snd (emit_lsmDeposit_event ty sequenceID d k) = Exit e → e ≠ None.
Proof.
  unfold emit_lsmDeposit_event, EmitEvent. unfold_M.
  destruct (GetHostChain _ k); simpl; [done|]. by intros [= <-].
Qed.



Lemma OnTimeout_deposit_stores sequenceID (l : list Deposit) k :
  same_stores k (exec (for_range l (OnTimeout_deposit sequenceID)) k).
Proof.
  apply (for_range_invariant (same_stores k)); [|done].
  intros d k' _ Hk'. unfold exec, OnTimeout_deposit, EmitEvent. unfold_M.
  by destruct (GetHostChain _ k').
Qed.

Lemma OnTimeout_deposit_Exit sequenceID d k e :
  snd (OnTimeout_deposit sequenceID d k) = Exit e → e ≠ None.
Proof.
  unfold OnTimeout_deposit, EmitEvent. unfold_M.
  destruct (GetHostChain _ k); simpl; [done|]. by intros [= <-].
Qed.


Lemma OnAcknowledgement_deposit_step sequenceID transferAmount d k hc :
  GetHostChain (Deposit.ChainId d) k = Some hc →
  OnAcknowledgement_deposit sequenceID transferAmount d k
  = (set_events (λ es, es ++ [ack_deposit_event sequenceID d])
       (SetHostChain (credit_balance transferAmount hc)
          (SetDeposit (Deposit.with_State_Sequence Deposit_DEPOSIT_RECEIVED "" d) k)),
     Next tt).
Proof.
  intros Hhc. unfold OnAcknowledgement_deposit, EmitEvent. unfold_M.
  change (GetHostChain ?c (SetDeposit ?d' k)) with (GetHostChain c k).
  simpl. rewrite Hhc. simpl.
  by rewrite (GetHostChain_ChainId _ _ _ Hhc).
Qed.

Lemma OnAcknowledgement_deposit_loop sequenceID transferAmount (ds : list Deposit) k :
  (∀ d, d ∈ ds → is_Some (GetHostChain (Deposit.ChainId d) k)) →
  for_range ds (OnAcknowledgement_deposit sequenceID transferAmount) k
  = (set_events (λ es, es ++ (ack_deposit_event sequenceID <$> ds))
       (set_hostChains
          (λ hcs, foldl (λ hcs d, credit_chain transferAmount (Deposit.ChainId d) hcs) hcs ds)
          (set_deposits
             (store_set_all Deposit.key
                (Deposit.with_State_Sequence Deposit_DEPOSIT_RECEIVED "") ds) k)),
     Next tt).
Proof.
  revert k. induction ds as [|d ds IH]; intros k Hreg; simpl.
  { unfold_M. destruct k. unfold set_events. csimpl. by rewrite app_nil_r. }
  destruct (Hreg d) as [hc Hhc]; [left|].
  unfold_M. rewrite (OnAcknowledgement_deposit_step _ _ _ _ hc) by done.
  rewrite IH.
  - assert (credit_chain transferAmount (Deposit.ChainId d) (hostChains k)
            = store_set HostChain.ChainId (credit_balance transferAmount hc) (hostChains k))
      as Hcc by (unfold credit_chain; unfold GetHostChain in Hhc; by rewrite Hhc).
    destruct k. unfold set_events, set_hostChains, set_deposits, SetHostChain, SetDeposit,
      store_set_all in *. csimpl in *. rewrite Hcc. by rewrite <- app_assoc.
  - intros d' Hd'. unfold GetHostChain. simpl.
    apply store_get_set_is_Some. apply Hreg. by right.
Qed.

Lemma OnAcknowledgement_deposit_fields sequenceID transferAmount d k :
  let k' := exec (OnAcknowledgement_deposit sequenceID transferAmount d) k in
  deposits k'
  = store_set Deposit.key (Deposit.with_State_Sequence Deposit_DEPOSIT_RECEIVED "" d)
      (deposits k)
  ∧ lsmDeposits k' = lsmDeposits k.
Proof.
  unfold exec, OnAcknowledgement_deposit, EmitEvent. unfold_M.
  change (GetHostChain ?c (SetDeposit ?d' k)) with (GetHostChain c k). simpl.
  by destruct (GetHostChain _ k).
Qed.

Lemma OnAcknowledgement_deposit_fold sequenceID transferAmount (ds : list Deposit) k :
  let k' := foldl (λ k d, exec (OnAcknowledgement_deposit sequenceID transferAmount d) k)
              k ds in
  deposits k'
  = store_set_all Deposit.key (Deposit.with_State_Sequence Deposit_DEPOSIT_RECEIVED "")
      ds (deposits k)
  ∧ lsmDeposits k' = lsmDeposits k.
Proof.
  revert k. induction ds as [|d ds IH]; intros k; simpl; [done|].
  destruct (IH (exec (OnAcknowledgement_deposit sequenceID transferAmount d) k)) as [-> ->].
  destruct (OnAcknowledgement_deposit_fields sequenceID transferAmount d k) as [-> ->].
  done.
Qed.

Lemma OnAcknowledgement_deposit_Exit sequenceID transferAmount d k e :
  snd (OnAcknowledgement_deposit sequenceID transferAmount d k) = Exit e → e ≠ None.
Proof.
  unfold OnAcknowledgement_deposit, EmitEvent. unfold_M.
  change (GetHostChain ?c (SetDeposit ?d' k)) with (GetHostChain c k). simpl.
  destruct (GetHostChain _ k); simpl; [done|]. by intros [= <-].
Qed.


(** A store rewritten for every record that carries the sequence identifier
    has no record left that carries it. *)
Lemma deposits_cleared sequenceID state (l : list Deposit) :
  sequenceID ≠ "" →
  filter (λ d, Deposit.IbcSequenceId d = sequenceID)
    (store_set_all Deposit.key (Deposit.with_State_Sequence state "")
       (filter (λ d, Deposit.IbcSequenceId d = sequenceID) l) l) = [].
Proof.
  intros Hne. apply filter_nil_not_elem_of.
  apply (store_set_all_clears Deposit.key); [done|by intros ? [=]|].
  intros y Hy HP. by apply list_elem_of_filter.
Qed.

Lemma lsmDeposits_cleared sequenceID state (l : list LSMDeposit) :
  sequenceID ≠ "" →
  filter (λ d, LSMDeposit.IbcSequenceId d = sequenceID)
    (store_set_all LSMDeposit.key (LSMDeposit.with_State_Sequence state "")
       (filter (λ d, LSMDeposit.IbcSequenceId d = sequenceID) l) l) = [].
Proof.
  intros Hne. apply filter_nil_not_elem_of.
  apply (store_set_all_clears LSMDeposit.key); [done|by intros ? [=]|].
  intros y Hy HP. by apply list_elem_of_filter.
Qed.

(** With no record carrying the sequence identifier, both callbacks return
    nil and leave the keeper state exactly as it was. *)
Lemma callbacks_without_matching_records k packet data transferAmount :
  let sequenceID :=
    GetTransactionSequenceID (Packet.SourceChannel packet) (Packet.Sequence packet) in
  Packet.Data packet = Some data →
  NewIntFromString (FungibleTokenPacketData.Amount data) = Some transferAmount →
  GetDepositsWithSequenceID sequenceID k = [] →
  GetLSMDepositsFromIbcSequenceID sequenceID k = [] →
  OnAcknowledgementIBCTransferPacket packet (Some true) None k = (k, Exit None)
  ∧ OnTimeoutIBCTransferPacket packet None k = (k, Exit None).
Proof.
  intros sequenceID Hdata Hamount Hdeps Hlsm.
  unfold OnAcknowledgementIBCTransferPacket, OnTimeoutIBCTransferPacket. simpl.
  rewrite Hdata, Hamount. fold sequenceID.
  destruct (decide (_ = DepositModuleAddress)); [|done].
  unfold_M. rewrite Hdeps. cbn [for_range]. unfold_M. cbv beta iota.
  change (RevertDepositsState [] k) with k. rewrite Hlsm. done.
Qed.

Lemma acknowledgement_clears_sequence k packet data transferAmount :
  let sequenceID :=
    GetTransactionSequenceID (Packet.SourceChannel packet) (Packet.Sequence packet) in
  let k' := exec (OnAcknowledgementIBCTransferPacket packet (Some true) None) k in
  Packet.Data packet = Some data →
  NewIntFromString (FungibleTokenPacketData.Amount data) = Some transferAmount →
  FungibleTokenPacketData.Sender data = DepositModuleAddress →
  returned (OnAcknowledgementIBCTransferPacket packet (Some true) None) k = Some None →
  GetDepositsWithSequenceID sequenceID k' = []
  ∧ GetLSMDepositsFromIbcSequenceID sequenceID k' = [].
Proof.
  intros sequenceID k' Hdata Hamount Hsender. subst k'.
  pose proof (GetTransactionSequenceID_nonempty
                (Packet.SourceChannel packet) (Packet.Sequence packet)) as Hne.
  fold sequenceID in Hne.
  unfold returned, exec, OnAcknowledgementIBCTransferPacket. simpl.
  rewrite Hdata, Hamount. fold sequenceID. rewrite decide_True by done.
  unfold_M.
  set (ds := GetDepositsWithSequenceID sequenceID k).
  set (body := OnAcknowledgement_deposit sequenceID transferAmount).
  destruct (for_range ds body k) as [k1 r1] eqn:E1.
  assert (snd (for_range ds body k) = r1) as Hr1 by (by rewrite E1).
  assert (exec (for_range ds body) k = k1) as Hk1 by (unfold exec; by rewrite E1).
  destruct r1 as [[]|e1|]; [| |done].
  - rewrite for_range_Next in Hk1 by done.
    destruct (OnAcknowledgement_deposit_fold sequenceID transferAmount ds k) as [Hd Hl].
    fold body in Hd, Hl. rewrite Hk1 in Hd, Hl.
    rewrite UpdateLSMDepositsStateAndSequence_spec.
    match goal with |- context [for_range ?l ?body2 ?k0] =>
      pose proof (emit_lsmDeposit_event_stores EventLSMDepositTransferReceived
                    sequenceID l k0) as (_ & H2 & H3);
      unfold exec in H2, H3;
      destruct (for_range l body2 k0) as [kf [[]|e|]]
    end; simpl in *; [| |done]; intros _;
      unfold GetDepositsWithSequenceID, GetLSMDepositsFromIbcSequenceID in *;
      rewrite H2, H3, Hd, Hl; subst ds;
      unfold GetDepositsWithSequenceID;
      by rewrite deposits_cleared, lsmDeposits_cleared.
  - simpl. intros [= ->].
    by destruct (for_range_Exit (λ e, e ≠ None) ds body k None
                   (λ d k0 e _, OnAcknowledgement_deposit_Exit _ _ d k0 e) Hr1).
Qed.

Lemma timeout_clears_sequence k packet data :
  let sequenceID :=
    GetTransactionSequenceID (Packet.SourceChannel packet) (Packet.Sequence packet) in
  let k' := exec (OnTimeoutIBCTransferPacket packet None) k in
  Packet.Data packet = Some data →
  FungibleTokenPacketData.Sender data = DepositModuleAddress →
  returned (OnTimeoutIBCTransferPacket packet None) k = Some None →
  GetDepositsWithSequenceID sequenceID k' = []
  ∧ GetLSMDepositsFromIbcSequenceID sequenceID k' = [].
Proof.
  intros sequenceID k' Hdata Hsender. subst k'.
  pose proof (GetTransactionSequenceID_nonempty
                (Packet.SourceChannel packet) (Packet.Sequence packet)) as Hne.
  fold sequenceID in Hne.
  unfold returned, exec, OnTimeoutIBCTransferPacket.
  rewrite Hdata. fold sequenceID. rewrite decide_True by done.
  unfold_M. rewrite RevertDepositsState_spec.
  set (ds := GetDepositsWithSequenceID sequenceID k).
  set (body := OnTimeout_deposit sequenceID).
  match goal with |- context [for_range ds body ?k0] => set (ka := k0) end.
  pose proof (OnTimeout_deposit_stores sequenceID ds ka) as (_ & Hd & Hl).
  fold body in Hd, Hl. unfold exec in Hd, Hl.
  destruct (for_range ds body ka) as [k1 r1] eqn:E1.
  assert (snd (for_range ds body ka) = r1) as Hr1 by (by rewrite E1).
  destruct r1 as [[]|e1|]; [| |done].
  - unfold RevertLSMDepositsState. rewrite UpdateLSMDepositsStateAndSequence_spec.
    match goal with |- context [for_range ?l ?body2 ?k0] =>
      pose proof (emit_lsmDeposit_event_stores EventLSMDepositTransferTimeout
                    sequenceID l k0) as (_ & H2 & H3);
      unfold exec in H2, H3;
      destruct (for_range l body2 k0) as [kf [[]|e|]]
    end; simpl in *; [| |done]; intros _;
      unfold GetDepositsWithSequenceID, GetLSMDepositsFromIbcSequenceID in *;
      rewrite H2, H3, Hd, Hl; subst ds ka; simpl;
      unfold GetDepositsWithSequenceID;
      by rewrite deposits_cleared, lsmDeposits_cleared.
  - simpl. intros [= ->].
    by destruct (for_range_Exit (λ e, e ≠ None) ds body ka None
                   (λ d k0 e _, OnTimeout_deposit_Exit _ d k0 e) Hr1).
Qed.

(** C4. Once the records matching a sequence identifier have been settled
    by an acknowledgement or a timeout that returned no error, no Deposit or
    LSMDeposit record carries that identifier, and delivering an
    acknowledgement or a timeout for it again returns nil and leaves the
    whole keeper state, so every Deposit, LSMDeposit and host chain, exactly
    as it was. *)
Theorem redelivered_callback_is_noop (k : Keeper) (packet : Packet)
    (data : FungibleTokenPacketData) (transferAmount : Z) (first again : Callback) :
  let sequenceID :=
    GetTransactionSequenceID (Packet.SourceChannel packet) (Packet.Sequence packet) in
  let k' := exec (deliver first packet) k in
  Packet.Data packet = Some data →
  NewIntFromString (FungibleTokenPacketData.Amount data) = Some transferAmount →
  FungibleTokenPacketData.Sender data = DepositModuleAddress →
  returned (deliver first packet) k = Some None →
  GetDepositsWithSequenceID sequenceID k' = []
  ∧ GetLSMDepositsFromIbcSequenceID sequenceID k' = []
  ∧ deliver again packet k' = (k', Exit None).
Proof.
  intros sequenceID k' Hdata Hamount Hsender Hfirst.
  assert (GetDepositsWithSequenceID sequenceID k' = []
          ∧ GetLSMDepositsFromIbcSequenceID sequenceID k' = []) as [Hdeps Hlsm].
  { destruct first.
    - by eapply acknowledgement_clears_sequence.
    - by eapply timeout_clears_sequence. }
  split_and!; [done..|].
  destruct (callbacks_without_matching_records k' packet data transferAmount)
    as [Hack Htimeout]; [done..|].
  by destruct again.
Qed.

End callbacks.

(** ** Inbound transfers *)

Section inbound.
Context `{Externals}.

(** The undelegation settlement never returns from the handler. *)
Lemma OnRecv_undelegation_Next hc data k :
  snd (OnRecv_undelegation hc data k) = Next tt.
Proof.
  unfold OnRecv_undelegation. case_decide; [|done]. unfold_M.
  rewrite for_range_total; [done|]. intros u k1 _.
  unfold settle_matured_unbonding, EmitEvent. by unfold_M.
Qed.

Lemma OnRecv_validator_unbonding_Exit hc data k e :
  snd (OnRecv_validator_unbonding hc data k) = Exit e →
  FungibleTokenPacketData.Sender data = ICAAccount.Address (HostChain.DelegationAccount hc)
  ∧ FungibleTokenPacketData.Receiver data = DepositModuleAddress
  ∧ FungibleTokenPacketData.Memo data = "".
Proof. unfold OnRecv_validator_unbonding. by case_decide. Qed.

Lemma OnRecv_autocompounding_Exit hc data k e :
  snd (OnRecv_autocompounding hc data k) = Exit e →
  ∃ rewardsAccount,
    HostChain.RewardsAccount hc = Some rewardsAccount
    ∧ FungibleTokenPacketData.Sender data = ICAAccount.Address rewardsAccount
    ∧ FungibleTokenPacketData.Receiver data = DepositModuleAddress
    ∧ FungibleTokenPacketData.Memo data = "".
Proof.
  unfold OnRecv_autocompounding. unfold_M.
  destruct (HostChain.RewardsAccount hc) as [ra|]; [|done].
  case_decide as Hc; [|done]. intros _. exists ra. by destruct Hc as (?&?&?).
Qed.


(** C7, as the code has it. The inbound-transfer handler returns an error
    only when the packet data does not decode, on the forced-validator-
    unbonding settlement path (sender = delegation account, receiver = deposit
    account, empty memo) or on the autocompounding path (sender = rewards
    account, receiver = deposit account, empty memo).  A failed transfer
    ack, an unregistered denomination, the undelegation settlement and every
    unclassified transfer return no error. *)
Theorem inbound_error_only_from_deposit_settlement (k : Keeper) (packet : Packet)
    (transferAckSuccess : bool) (e : Error) :
  returned (OnRecvIBCTransferPacket packet transferAckSuccess) k = Some (Some e) →
  transferAckSuccess = true
  ∧ ((Packet.Data packet = None ∧ e = ErrUnmarshal)
     ∨ ∃ data hc,
         Packet.Data packet = Some data
         ∧ GetHostChainFromHostDenom (FungibleTokenPacketData.Denom data) k = Some hc
         ∧ FungibleTokenPacketData.Receiver data = DepositModuleAddress
         ∧ FungibleTokenPacketData.Memo data = ""
         ∧ (FungibleTokenPacketData.Sender data
            = ICAAccount.Address (HostChain.DelegationAccount hc)
            ∨ ∃ rewardsAccount,
                HostChain.RewardsAccount hc = Some rewardsAccount
                ∧ FungibleTokenPacketData.Sender data = ICAAccount.Address rewardsAccount)).
Proof.
  unfold returned, OnRecvIBCTransferPacket.
  destruct transferAckSuccess; simpl; [|done].
  destruct (Packet.Data packet) as [data|]; [|intros [= <-]; auto].
  intros Hret. split; [done|]. right. revert Hret. unfold_M.
  destruct (GetHostChainFromHostDenom _ k) as [hc|] eqn:Hhc; [|done].
  pose proof (OnRecv_undelegation_Next hc data k) as Ha.
  destruct (OnRecv_undelegation hc data k) as [k1 r1]. simpl in Ha. subst r1.
  pose proof (OnRecv_validator_unbonding_Exit hc data k1) as Hb.
  destruct (OnRecv_validator_unbonding hc data k1) as [k2 [[]|e2|]]; simpl; [| |done].
  - pose proof (OnRecv_autocompounding_Exit hc data k2) as Hc.
    destruct (OnRecv_autocompounding hc data k2) as [k3 [[]|e3|]]; simpl; [done| |done].
    intros _. destruct (Hc e3 eq_refl) as (ra & ? & ? & ? & ?).
    exists data, hc. split_and!; eauto.
  - intros _. destruct (Hb e2 eq_refl) as (? & ? & ?).
    exists data, hc. split_and!; auto.
Qed.

End inbound.

(** ** The scenario *)

Section scenario.
Import Scenario.
Local Existing Instance externals.

(** C8. Both chains are on an unbonding epoch and each has a validator due
    for a forced unbonding.  The submission for chain-a fails, and the
    workflow returns: the only call made is the failed one, chain-b gets
    nothing, although its own step, run on the state the workflow left,
    does submit chain-b's undelegation. *)
Theorem validator_undelegation_failure_ends_workflow :
  let k := keeper [chainA; chainB] [] [] in
  let k' := exec (ValidatorUndelegationWorkflow 8) k in
  outbox k'
  = [SentICATx "chain-a" "connection-0" "chain-a.delegation"
       [MsgUndelegate "cosmos1adelegation" "cosmosvaloper1a" (Coin.mk "uatom" 500)] None]
  ∧ validatorUnbondings k' = []
  ∧ result (ValidatorUndelegationWorkflow 8) k = Exit None
  ∧ outbox (exec (ValidatorUndelegationWorkflow_chain 8 chainB) k')
    = outbox k'
      ++ [SentICATx "chain-b" "connection-1" "chain-b.delegation"
            [MsgUndelegate "cosmos1bdelegation" "cosmosvaloper1b" (Coin.mk "uatom" 700)]
            (Some "connection-1-sequence-2")].
Proof. vm_compute. done. Qed.

(** C1. Chain-i is not active and holds a pending deposit.  On the epoch
    tick of epoch 5 the Deposit, LSM, Undelegation, Validator Lifecycle and
    Rewards workflows send nothing for it, but the Rebalance workflow, which
    does not look at the Active flag, submits a redelegation for it. *)
Theorem rebalance_submits_for_inactive_chain :
  let k := keeper [chainI] [pending "chain-i" 5 1000] [] in
  HostChain.Active chainI = false
  ∧ outbox (exec (AfterEpochEnd "day" 5) k)
    = [SentICATx "chain-i" "connection-2" "chain-i.delegation"
         [MsgBeginRedelegate "cosmos1idelegation" "cosmosvaloper1i1" "cosmosvaloper1i2"
            (Coin.mk "uatom" 400)]
         (Some "connection-2-sequence-1")]
  ∧ outbox (exec (RebalanceWorkflow 5) k) = outbox (exec (AfterEpochEnd "day" 5) k)
  ∧ redelegateTxs (exec (AfterEpochEnd "day" 5) k)
    = [RedelegateTx.mk "chain-i" "connection-2-sequence-1" RedelegateTx_REDELEGATE_SENT].
Proof. vm_compute. done. Qed.




(** The acknowledgement arrives, and then a timeout for the same packet. *)
Lemma redelivered_callback_is_noop_witness :
  let k := keeper [chainB] [sentDeposit] [] in
  let k' := exec (deliver AcknowledgementCallback transferPacket) k in
  returned (deliver AcknowledgementCallback transferPacket) k = Some None
  ∧ deliver TimeoutCallback transferPacket k' = (k', Exit None).
Proof.
  intros k k'. split; [reflexivity|].
  apply (redelivered_callback_is_noop k transferPacket transferData 1000
           AcknowledgementCallback TimeoutCallback); reflexivity.
Defined.



(** An autocompounding transfer when the current epoch has no deposit record:
    the handler returns an error, on the autocompounding path. *)
Lemma inbound_error_only_from_deposit_settlement_witness :
  let k := keeper [chainB] [] [] in
  returned (OnRecvIBCTransferPacket rewardsPacket true) k
  = Some (Some (ErrDepositNotFound "chain-b" 5))
  ∧ true = true.
Proof.
  intros k. split; [reflexivity|].
  apply (inbound_error_only_from_deposit_settlement k rewardsPacket true
           (ErrDepositNotFound "chain-b" 5)).
  reflexivity.
Defined.

(** C7, counterexample.  The claim lets only the forced-validator-unbonding
    path return an error.  The autocompounding transfer above is not on that
    path (its sender is the rewards account) and the handler returns
    ErrDepositNotFound. *)
Lemma inbound_error_on_autocompounding_path :
  ¬ (∀ (E : Externals) (k : Keeper) (packet : Packet) (transferAckSuccess : bool)
       (e : Error),
       returned (OnRecvIBCTransferPacket packet transferAckSuccess) k = Some (Some e) →
       ∃ data hc,
         Packet.Data packet = Some data
         ∧ GetHostChainFromHostDenom (FungibleTokenPacketData.Denom data) k = Some hc
         ∧ FungibleTokenPacketData.Sender data
           = ICAAccount.Address (HostChain.DelegationAccount hc)
         ∧ FungibleTokenPacketData.Receiver data = DepositModuleAddress
         ∧ FungibleTokenPacketData.Memo data = "").
Proof.
  intros Hclaim.
  destruct (Hclaim externals (keeper [chainB] [] []) rewardsPacket true
              (ErrDepositNotFound "chain-b" 5) eq_refl)
    as (data & hc & [= <-] & [= <-] & Hsender & _).
  discriminate Hsender.
Qed.


(** Chain-z has nothing delegated: the Rewards workflow submits nothing
    for it. *)
Lemma rewards_without_delegations_submit_nothing_witness :
  let k := keeper [chainZ] [] [] in
  filter (λ o, Outbound_chain o = "chain-z") (outbox (exec (RewardsWorkflow 5) k)) = [].
Proof.
  intros k.
  destruct (rewards_without_delegations_submit_nothing 5 k chainZ) as [_ Hrun].
  - apply list_elem_of_singleton. reflexivity.
  - apply NoDup_singleton.
  - reflexivity.
  - repeat constructor. simpl. lia.
  - exact Hrun.
Defined.

End scenario.

(** ** Inbound transfers: the three settlements *)

Section inbound_settlements.
Context `{Externals}.

Lemma settle_matured_unbonding_loop hc (us : list Unbonding) k :
  for_range us (settle_matured_unbonding hc) k
  = (set_events (λ es, es ++ (unbonding_matured_event hc <$> us))
       (set_unbondings (store_set_all Unbonding.key claimable us) k),
     Next tt).
Proof.
  revert k. induction us as [|u us IH]; intros k; simpl.
  { unfold_M. destruct k. unfold set_events, set_unbondings. simpl. by rewrite app_nil_r. }
  unfold settle_matured_unbonding at 1. unfold EmitEvent. unfold_M. simpl. rewrite IH.
  destruct k. unfold set_events, set_unbondings, SetUnbonding, store_set_all. simpl.
  by rewrite <- app_assoc.
Qed.

Lemma claimable_key u : Unbonding.key (claimable u) = Unbonding.key u.
Proof. done. Qed.

(** X1. An inbound transfer from a chain's delegation account to the
    undelegation module account, with an empty memo, settles the chain's
    matured unbondings: each one becomes CLAIMABLE with its sequence id
    cleared and gets its event, in store order; nothing else of the state
    changes, no deposit is credited, and the amount of the packet is not
    looked at. *)
Theorem inbound_undelegation_settles_matured (k : Keeper) (packet : Packet)
    (data : FungibleTokenPacketData) (hc : HostChain) :
  let matured (u : Unbonding) :=
    Unbonding.ChainId u = HostChain.ChainId hc
    ∧ Unbonding.State u = Unbonding_UNBONDING_MATURED in
  Packet.Data packet = Some data →
  GetHostChainFromHostDenom (FungibleTokenPacketData.Denom data) k = Some hc →
  FungibleTokenPacketData.Sender data = ICAAccount.Address (HostChain.DelegationAccount hc) →
  FungibleTokenPacketData.Receiver data = UndelegationModuleAddress →
  FungibleTokenPacketData.Memo data = "" →
  UndelegationModuleAddress ≠ DepositModuleAddress →
  is_Some (HostChain.RewardsAccount hc) →
  NoDup (Unbonding.key <$> unbondings k) →
  OnRecvIBCTransferPacket packet true k
  = (set_events (λ es, es ++ (unbonding_matured_event hc <$> filter matured (unbondings k)))
       (set_unbondings (fmap (λ u, if decide (matured u) then claimable u else u)) k),
     Exit None).
Proof.
  intros matured Hdata Hhc Hsender Hreceiver Hmemo Hmodules [rewardsAccount Hrewards] Hnd.
  unfold OnRecvIBCTransferPacket. simpl. rewrite Hdata. unfold_M. rewrite Hhc.
  unfold OnRecv_undelegation. rewrite decide_True by done. unfold_M.
  rewrite settle_matured_unbonding_loop.
  unfold OnRecv_validator_unbonding. rewrite decide_False by (intros (_ & ? & _); congruence).
  unfold OnRecv_autocompounding. rewrite Hrewards. unfold_M.
  rewrite decide_False by (intros (_ & ? & _); congruence). unfold_M.
  unfold FilterUnbondings.
  match goal with |- context [filter ?P (unbondings k)] =>
    lazymatch P with
    | matured => fail
    | _ => assert (filter P (unbondings k) = filter matured (unbondings k)) as ->
    end
  end.
  { apply list_filter_iff. intros u. apply bool_decide_eq_true. }
  do 2 f_equal. destruct k. unfold set_unbondings. simpl. f_equal.
  by apply (store_set_all_filter Unbonding.key claimable claimable_key).
Qed.

(** X2. An inbound transfer from a chain's delegation account to the deposit
    module account, with an empty memo, is the proceeds of a forced validator
    unbonding: the whole amount is added to the chain's deposit of the
    current delegation epoch, no fee is taken and the exchange value is not
    recomputed.  The deposit is looked up before the amount is parsed: without
    a deposit for the current epoch the handler returns the deposit-not-found
    error even for an amount that does not parse; either error leaves the
    state as it was. *)
Theorem inbound_validator_unbonding_credits_deposit (k : Keeper) (packet : Packet)
    (data : FungibleTokenPacketData) (hc : HostChain) (rewardsAccount : ICAAccount) :
  let currentEpoch := DelegationEpochNumber k in
  Packet.Data packet = Some data →
  GetHostChainFromHostDenom (FungibleTokenPacketData.Denom data) k = Some hc →
  FungibleTokenPacketData.Sender data = ICAAccount.Address (HostChain.DelegationAccount hc) →
  FungibleTokenPacketData.Receiver data = DepositModuleAddress →
  FungibleTokenPacketData.Memo data = "" →
  UndelegationModuleAddress ≠ DepositModuleAddress →
  HostChain.RewardsAccount hc = Some rewardsAccount →
  ICAAccount.Address rewardsAccount ≠ ICAAccount.Address (HostChain.DelegationAccount hc) →
  OnRecvIBCTransferPacket packet true k
  = match GetDepositForChainAndEpoch (HostChain.ChainId hc) currentEpoch k with
    | None => (k, Exit (Some (ErrDepositNotFound (HostChain.ChainId hc) currentEpoch)))
    | Some deposit =>
        match NewIntFromString (FungibleTokenPacketData.Amount data) with
        | None => (k, Exit (Some (ErrParsingAmount (FungibleTokenPacketData.Amount data))))
        | Some transferAmount =>
            (set_events
               (λ es, es ++ [NewEvent EventTypeValidatorUnbondingMaturedReceived
                  [ NewAttribute AttributeChainID (VString (HostChain.ChainId hc));
                    NewAttribute AttributeValidatorUnbondingMaturedAmount
                      (VCoin (NewCoin (HostChain.HostDenom hc) transferAmount)) ]])
               (SetDeposit
                  (Deposit.with_Amount
                     (Coin.Amount (Deposit.Amount deposit) + transferAmount) deposit) k),
             Exit None)
        end
    end.
Proof.
  intros currentEpoch Hdata Hhc Hsender Hreceiver Hmemo Hmodules Hrewards Haccounts.
  unfold OnRecvIBCTransferPacket. simpl. rewrite Hdata. unfold_M. rewrite Hhc.
  unfold OnRecv_undelegation. rewrite decide_False by (intros (_ & ? & _); congruence).
  unfold_M.
  unfold OnRecv_validator_unbonding. rewrite decide_True by done. unfold_M.
  fold currentEpoch.
  destruct (GetDepositForChainAndEpoch _ currentEpoch k) as [deposit|]; [|done].
  destruct (NewIntFromString _) as [transferAmount|]; [|done].
  unfold EmitEvent. unfold_M.
  unfold OnRecv_autocompounding. rewrite Hrewards. unfold_M.
  rewrite decide_False by (intros (? & _ & _); congruence). done.
Qed.

(** X3. A registered chain without a rewards account makes the handler
    unusable: the third test reads the address of the rewards account before
    anything else, so no inbound transfer of the chain's denomination returns
    without error, and any that is not sent to the deposit module account
    ends in a run-time panic. *)
Theorem inbound_without_rewards_account_panics (k : Keeper) (packet : Packet)
    (data : FungibleTokenPacketData) (hc : HostChain) :
  Packet.Data packet = Some data →
  GetHostChainFromHostDenom (FungibleTokenPacketData.Denom data) k = Some hc →
  HostChain.RewardsAccount hc = None →
  returned (OnRecvIBCTransferPacket packet true) k ≠ Some None
  ∧ (FungibleTokenPacketData.Receiver data ≠ DepositModuleAddress →
     result (OnRecvIBCTransferPacket packet true) k = Panic).
Proof.
  intros Hdata Hhc Hrewards.
  unfold returned, result, OnRecvIBCTransferPacket. simpl. rewrite Hdata. unfold_M.
  rewrite Hhc.
  pose proof (OnRecv_undelegation_Next hc data k) as Hnext.
  destruct (OnRecv_undelegation hc data k) as [k1 r1]. simpl in Hnext. subst r1.
  assert (∀ k2, OnRecv_autocompounding hc data k2 = (k2, Panic)) as Hpanic.
  { intros k2. unfold OnRecv_autocompounding. by rewrite Hrewards. }
  split.
  - destruct (OnRecv_validator_unbonding hc data k1) as [k2 [[]|e|]] eqn:Hb; simpl;
      [by rewrite Hpanic| |done].
    intros [= ->]. revert Hb. unfold OnRecv_validator_unbonding, EmitEvent. unfold_M.
    case_decide; [|done]. repeat case_match; done.
  - intros Hreceiver. unfold OnRecv_validator_unbonding.
    rewrite decide_False by (by intros (_ & ? & _)). unfold_M. by rewrite Hpanic.
Qed.


(** X5. On the autocompounding path the fee is sent before the deposit of
    the current epoch is looked up.  When there is no such deposit the handler
    returns the deposit-not-found error with the fee already sent to the fee
    address and nothing credited; when the fee cannot be sent it returns the
    failed-deposit error and the state is as it was. *)
Theorem inbound_autocompounding_fee_precedes_lookup (k : Keeper) (packet : Packet)
    (data : FungibleTokenPacketData) (hc : HostChain) (rewardsAccount : ICAAccount)
    (transferAmount : Z) :
  let currentEpoch := DelegationEpochNumber k in
  let feeCoins :=
    NewCoins [TruncateDecimal (IBCDenom hc)
                (Dec.MulInt (HostChain.RestakeFee hc) transferAmount)] in
  Packet.Data packet = Some data →
  GetHostChainFromHostDenom (FungibleTokenPacketData.Denom data) k = Some hc →
  HostChain.RewardsAccount hc = Some rewardsAccount →
  FungibleTokenPacketData.Sender data = ICAAccount.Address rewardsAccount →
  FungibleTokenPacketData.Sender data ≠ ICAAccount.Address (HostChain.DelegationAccount hc) →
  FungibleTokenPacketData.Receiver data = DepositModuleAddress →
  FungibleTokenPacketData.Memo data = "" →
  NewIntFromString (FungibleTokenPacketData.Amount data) = Some transferAmount →
  GetDepositForChainAndEpoch (HostChain.ChainId hc) currentEpoch k = None →
  OnRecvIBCTransferPacket packet true k
  = if sendProtocolFeeFails k feeCoins (FeeAddress k)
    then (k, Exit (Some (ErrFailedDeposit (FeeAddress k))))
    else (set_feeTransfers (λ l, l ++ [(feeCoins, FeeAddress k)]) k,
          Exit (Some (ErrDepositNotFound (HostChain.ChainId hc) currentEpoch))).
Proof.
  intros currentEpoch feeCoins Hdata Hhc Hrewards Hsender Hnotdeleg Hreceiver Hmemo
    Hamount Hdeposit.
  unfold OnRecvIBCTransferPacket. simpl. rewrite Hdata. unfold_M. rewrite Hhc.
  unfold OnRecv_undelegation, OnRecv_validator_unbonding.
  rewrite !decide_False by (by intros [? _]). unfold_M.
  unfold OnRecv_autocompounding, SendProtocolFee. unfold_M.
  rewrite Hrewards. rewrite decide_True by done. rewrite Hamount. fold feeCoins.
  destruct (sendProtocolFeeFails k feeCoins (FeeAddress k)); simpl; [done|].
  change (GetDepositForChainAndEpoch ?c ?e (set_feeTransfers ?f k))
    with (GetDepositForChainAndEpoch c e k).
  fold currentEpoch. by rewrite Hdeposit.
Qed.

End inbound_settlements.

(** ** Acknowledgement and timeout: errors and LSM deposits *)

Section callback_errors.
Context `{Externals}.

Lemma emit_lsmDeposit_event_unregistered ty sequenceID d k e :
  snd (emit_lsmDeposit_event ty sequenceID d k) = Exit e →
  ∃ c, e = Some (ErrHostChainNotRegistered c).
Proof.
  unfold emit_lsmDeposit_event, EmitEvent. unfold_M.
  destruct (GetHostChain _ k); simpl; [done|]. intros [= <-]. by eexists.
Qed.

Lemma OnAcknowledgement_deposit_unregistered sequenceID transferAmount d k e :
  snd (OnAcknowledgement_deposit sequenceID transferAmount d k) = Exit e →
  ∃ c, e = Some (ErrHostChainNotRegistered c).
Proof.
  unfold OnAcknowledgement_deposit, EmitEvent. unfold_M.
  destruct (GetHostChain _ _); simpl; [done|]. intros [= <-]. by eexists.
Qed.

Lemma OnTimeout_deposit_unregistered sequenceID d k e :
  snd (OnTimeout_deposit sequenceID d k) = Exit e →
  ∃ c, e = Some (ErrHostChainNotRegistered c).
Proof.
  unfold OnTimeout_deposit, EmitEvent. unfold_M.
  destruct (GetHostChain _ k); simpl; [done|]. intros [= <-]. by eexists.
Qed.

(** X6. The errors of the two callbacks that are raised before anything is
    written: the error handed in by the caller, an acknowledgement that does
    not decode or reports failure, packet data that does not decode, an
    amount that does not parse.  Each of them leaves the state as it was; the
    only error returned after a write is the one for a host chain that is not
    registered. *)
Theorem callback_errors_before_any_write (k : Keeper) (packet : Packet)
    (acknowledgement : option bool) (err : option Error) (e : Error) :
  (∀ chainId, e ≠ ErrHostChainNotRegistered chainId) →
  (returned (OnAcknowledgementIBCTransferPacket packet acknowledgement err) k = Some (Some e) →
   exec (OnAcknowledgementIBCTransferPacket packet acknowledgement err) k = k)
  ∧ (returned (OnTimeoutIBCTransferPacket packet err) k = Some (Some e) →
     exec (OnTimeoutIBCTransferPacket packet err) k = k).
Proof.
  intros He. unfold returned, exec. split.
  - unfold OnAcknowledgementIBCTransferPacket.
    destruct err as [err|]; [done|].
    destruct acknowledgement as [[]|]; simpl; [|done..].
    destruct (Packet.Data packet) as [data|]; [|done].
    destruct (NewIntFromString _) as [transferAmount|]; [|done].
    case_decide; [|done]. unfold_M.
    set (sequenceID := GetTransactionSequenceID _ _).
    pose proof (for_range_Exit (λ e, ∃ c, e = Some (ErrHostChainNotRegistered c))
                  (GetDepositsWithSequenceID sequenceID k)
                  (OnAcknowledgement_deposit sequenceID transferAmount) k) as Hloop1.
    destruct (for_range _ (OnAcknowledgement_deposit _ _) k) as [k1 [[]|e1|]]; simpl in *;
      [| |done].
    + match goal with |- context [for_range ?l ?body ?k0] =>
        pose proof (for_range_Exit (λ e, ∃ c, e = Some (ErrHostChainNotRegistered c))
                      l body k0) as Hloop2;
        destruct (for_range l body k0) as [k2 [[]|e2|]]
      end; simpl in *; [done| |done].
      intros [= ->]. destruct (Hloop2 (Some e)) as [c [= ->]]; [|done|].
      * intros. by eapply emit_lsmDeposit_event_unregistered.
      * by destruct (He c).
    + intros [= ->]. destruct (Hloop1 (Some e)) as [c [= ->]]; [|done|].
      * intros. by eapply OnAcknowledgement_deposit_unregistered.
      * by destruct (He c).
  - unfold OnTimeoutIBCTransferPacket.
    destruct err as [err|]; [done|].
    destruct (Packet.Data packet) as [data|]; [|done].
    case_decide; [|done]. unfold_M.
    set (sequenceID := GetTransactionSequenceID _ _).
    match goal with |- context [for_range ?l (OnTimeout_deposit ?q) ?k0] =>
      pose proof (for_range_Exit (λ e, ∃ c, e = Some (ErrHostChainNotRegistered c))
                    l (OnTimeout_deposit q) k0) as Hloop1;
      destruct (for_range l (OnTimeout_deposit q) k0) as [k1 [[]|e1|]]
    end; simpl in *; [| |done].
    + match goal with |- context [for_range ?l ?body ?k0] =>
        pose proof (for_range_Exit (λ e, ∃ c, e = Some (ErrHostChainNotRegistered c))
                      l body k0) as Hloop2;
        destruct (for_range l body k0) as [k2 [[]|e2|]]
      end; simpl in *; [done| |done].
      intros [= ->]. destruct (Hloop2 (Some e)) as [c [= ->]]; [|done|].
      * intros. by eapply emit_lsmDeposit_event_unregistered.
      * by destruct (He c).
    + intros [= ->]. destruct (Hloop1 (Some e)) as [c [= ->]]; [|done|].
      * intros. by eapply OnTimeout_deposit_unregistered.
      * by destruct (He c).
Qed.

(** X7. A chain that is not registered is found out after the write.  An
    acknowledgement whose first matching deposit belongs to such a chain
    returns the error with that deposit already marked RECEIVED, and settles
    nothing else; a timeout returns the error with every matching deposit
    already back in PENDING and the LSM deposits not yet reverted. *)
Theorem callback_unregistered_chain_after_write (k : Keeper) (packet : Packet)
    (data : FungibleTokenPacketData) (d : Deposit) (rest : list Deposit) :
  let sequenceID :=
    GetTransactionSequenceID (Packet.SourceChannel packet) (Packet.Sequence packet) in
  Packet.Data packet = Some data →
  FungibleTokenPacketData.Sender data = DepositModuleAddress →
  GetDepositsWithSequenceID sequenceID k = d :: rest →
  GetHostChain (Deposit.ChainId d) k = None →
  (is_Some (NewIntFromString (FungibleTokenPacketData.Amount data)) →
   OnAcknowledgementIBCTransferPacket packet (Some true) None k
   = (SetDeposit (Deposit.with_State_Sequence Deposit_DEPOSIT_RECEIVED "" d) k,
      Exit (Some (ErrHostChainNotRegistered (Deposit.ChainId d)))))
  ∧ OnTimeoutIBCTransferPacket packet None k
    = (RevertDepositsState (d :: rest) k,
       Exit (Some (ErrHostChainNotRegistered (Deposit.ChainId d)))).
Proof.
  intros sequenceID Hdata Hsender Hsettled Hhc. split.
  - intros [transferAmount Hamount].
    unfold OnAcknowledgementIBCTransferPacket. simpl. rewrite Hdata, Hamount.
    fold sequenceID. rewrite decide_True by done. unfold_M. rewrite Hsettled. simpl.
    unfold OnAcknowledgement_deposit. unfold_M.
    change (GetHostChain ?c (SetDeposit ?x k)) with (GetHostChain c k).
    simpl. by rewrite Hhc.
  - unfold OnTimeoutIBCTransferPacket. rewrite Hdata.
    fold sequenceID. rewrite decide_True by done. unfold_M. rewrite Hsettled. simpl.
    unfold OnTimeout_deposit. unfold_M.
    match goal with |- context [GetHostChain ?c ?k0] =>
      assert (GetHostChain c k0 = GetHostChain c k) as ->
    end.
    { unfold GetHostChain. f_equal.
      change (hostChains (RevertDepositsState (d :: rest) k) = hostChains k).
      rewrite RevertDepositsState_spec. done. }
    by rewrite Hhc.
Qed.

(** X8. A successful acknowledgement of a transfer of the deposit module
    account also settles the LSM deposits: those that carry the sequence id of
    the packet are RECEIVED with the sequence id cleared, every other LSM
    deposit is as it was, and no share amount changes. *)
Theorem ack_settles_matching_lsm_deposits (k : Keeper) (packet : Packet)
    (data : FungibleTokenPacketData) (transferAmount : Z) :
  let sequenceID :=
    GetTransactionSequenceID (Packet.SourceChannel packet) (Packet.Sequence packet) in
  let k' := exec (OnAcknowledgementIBCTransferPacket packet (Some true) None) k in
  Packet.Data packet = Some data →
  NewIntFromString (FungibleTokenPacketData.Amount data) = Some transferAmount →
  FungibleTokenPacketData.Sender data = DepositModuleAddress →
  NoDup (LSMDeposit.key <$> lsmDeposits k) →
  (∀ d, d ∈ GetDepositsWithSequenceID sequenceID k →
        is_Some (GetHostChain (Deposit.ChainId d) k)) →
  lsmDeposits k'
  = (λ d, if decide (LSMDeposit.IbcSequenceId d = sequenceID)
          then LSMDeposit.with_State_Sequence LSMDeposit_DEPOSIT_RECEIVED "" d else d)
    <$> lsmDeposits k
  ∧ LSMDeposit.Shares <$> lsmDeposits k' = LSMDeposit.Shares <$> lsmDeposits k.
Proof.
  intros sequenceID k' Hdata Hamount Hsender Hnd Hreg.
  assert (lsmDeposits k'
          = store_set_all LSMDeposit.key
              (LSMDeposit.with_State_Sequence LSMDeposit_DEPOSIT_RECEIVED "")
              (GetLSMDepositsFromIbcSequenceID sequenceID k) (lsmDeposits k)) as Hlsm.
  { subst k'. unfold OnAcknowledgementIBCTransferPacket. simpl. rewrite Hdata, Hamount.
    fold sequenceID. rewrite decide_True by done. rewrite exec_then_exit.
    unfold exec. unfold_M.
    rewrite OnAcknowledgement_deposit_loop by done.
    rewrite UpdateLSMDepositsStateAndSequence_spec.
    match goal with |- context [for_range ?l ?body ?k0] =>
      pose proof (emit_lsmDeposit_event_stores EventLSMDepositTransferReceived
                    sequenceID l k0) as (_ & _ & H3);
      unfold exec in H3;
      destruct (for_range l body k0) as [kf [[]|e|]]
    end; simpl in *; rewrite H3; done. }
  rewrite Hlsm. unfold GetLSMDepositsFromIbcSequenceID.
  rewrite store_set_all_filter by done. split; [done|].
  rewrite <- list_fmap_compose. apply list_fmap_ext. intros i d _. simpl. by case_decide.
Qed.

End callback_errors.

(** ** Deposit workflow: what becomes of a deposit *)

Section deposit_records.
Context `{Externals}.

Ltac unfold_deposit_step :=
  unfold exec, DepositWorkflow_deposit, routeTransfer, EmitEvent, EmitEvents;
  unfold_M.

Lemma DepositWorkflow_deposit_kept_or_sent epoch x k0 d' :
  Deposit.State x = Deposit_DEPOSIT_PENDING →
  Deposit.Epoch x ≤ epoch →
  d' ∈ deposits (exec (DepositWorkflow_deposit epoch x) k0) →
  d' ∈ deposits k0 ∨ kept_or_sent epoch x d'.
Proof.
  intros Hstate Hepoch. unfold_deposit_step. unfold DeleteDeposit, SetDeposit.
  destruct (GetHostChain _ k0) as [hc|]; simpl; [|by left].
  destruct (_ <=? 0) eqn:Hamount; simpl.
  { case_match; simpl; [|by left]. intros [_ ?]%elem_of_store_delete. by left. }
  apply Z.leb_gt in Hamount.
  destruct (HostChain.Active hc); simpl; [|by left].
  destruct (msgRouterHandler _ _) as [|evs [|[sequence|] rest]]; simpl; try by left.
  intros [->|[? _]]%elem_of_store_set; [|by left].
  right. split_and!; [done..|]. right. done.
Qed.

(** X9. The deposit workflow creates no deposit record and changes no
    amount: every record of the store after a run was in the store before,
    under the same chain and epoch and with the same amount, either unchanged
    or, if it was pending with a positive amount and an epoch not after the
    current one, now in state SENT.  This holds however the run ends. *)
Theorem DepositWorkflow_keeps_amounts (epoch : Z) (k : Keeper) (d' : Deposit) :
  d' ∈ deposits (exec (DepositWorkflow epoch) k) →
  ∃ d, d ∈ deposits k ∧ kept_or_sent epoch d d'.
Proof.
  unfold DepositWorkflow, exec. unfold_M.
  set (S := GetPendingDepositsBeforeEpoch epoch k).
  fold (exec (for_range S (DepositWorkflow_deposit epoch)) k). revert d'.
  apply (for_range_invariant
           (λ k', ∀ d', d' ∈ deposits k' → ∃ d, d ∈ deposits k ∧ kept_or_sent epoch d d')).
  - intros x k0 Hx Hk0 d' Hd'.
    apply list_elem_of_filter in Hx as [[Hepoch Hstate] Hx].
    apply DepositWorkflow_deposit_kept_or_sent in Hd' as [Hd'|Hd']; [by apply Hk0|by eauto|done..].
  - intros d' Hd'. exists d'. split; [done|]. split_and!; [done..|by left].
Qed.




End deposit_records.

(** ** Deposit workflow: no deposit is sent twice *)

Section deposit_once.
Context `{Externals}.

Ltac unfold_deposit_step :=
  unfold exec, DepositWorkflow_deposit, routeTransfer, EmitEvent, EmitEvents;
  unfold_M.

Lemma sendable_hostChains k k' d :
  hostChains k' = hostChains k → sendable k' d ↔ sendable k d.
Proof. intros Heq. unfold sendable, GetHostChain. by rewrite Heq. Qed.

Lemma sendable_or_not k d : sendable k d ∨ ¬ sendable k d.
Proof.
  unfold sendable. destruct (GetHostChain _ k) as [hc|]; [|right; by intros (? & ? & _)].
  destruct (decide (0 < Coin.Amount (Deposit.Amount d)));
    [|right; intros (? & _ & ? & _); done].
  destruct (HostChain.Active hc) eqn:Hactive; [left; by exists hc|].
  right. intros (? & [= <-] & _ & ?). congruence.
Qed.

Lemma DepositWorkflow_deposit_not_sendable epoch x k :
  ¬ sendable k x →
  snd (DepositWorkflow_deposit epoch x k) = Next tt
  ∧ outbox (exec (DepositWorkflow_deposit epoch x) k) = outbox k
  ∧ ∀ d, d ∈ deposits (exec (DepositWorkflow_deposit epoch x) k) → d ∈ deposits k.
Proof.
  intros Hnot. unfold_deposit_step. unfold DeleteDeposit.
  destruct (GetHostChain _ k) as [hc|] eqn:Hhc; simpl; [|done].
  destruct (_ <=? 0) eqn:Hamount; simpl.
  { case_match; simpl; [|done]. split_and!; [done..|].
    by intros d [_ ?]%elem_of_store_delete. }
  apply Z.leb_gt in Hamount.
  destruct (HostChain.Active hc) eqn:Hactive; simpl; [|done].
  destruct Hnot. by exists hc.
Qed.

Lemma DepositWorkflow_deposit_sendable epoch x k :
  router_accepts → sendable k x →
  snd (DepositWorkflow_deposit epoch x k) = Next tt
  ∧ ∀ d, d ∈ deposits (exec (DepositWorkflow_deposit epoch x) k) →
         Deposit.State d = Deposit_DEPOSIT_SENT
         ∨ (d ∈ deposits k ∧ Deposit.key d ≠ Deposit.key x).
Proof.
  intros Haccepts (hc & Hhc & Hamount & Hactive). unfold_deposit_step. unfold SetDeposit.
  rewrite Hhc. simpl. rewrite (proj2 (Z.leb_gt _ _)) by done. rewrite Hactive. simpl.
  match goal with |- context [msgRouterHandler k ?m] =>
    destruct (Haccepts k m) as (evs & sequence & rest & ->) end.
  simpl. split; [done|]. intros d [->|[? ?]]%elem_of_store_set; [by left|by right].
Qed.

(** After the steps for [l], no record that is still pending, and that the
    steps for [l] were to handle, is left sendable. *)
Lemma DepositWorkflow_loop_sends_all epoch (l : list Deposit) k0 k :
  router_accepts →
  hostChains k = hostChains k0 →
  (∀ d, d ∈ deposits k → Deposit.State d = Deposit_DEPOSIT_PENDING →
        Deposit.Epoch d ≤ epoch → sendable k0 d → d ∈ l) →
  snd (for_range l (DepositWorkflow_deposit epoch) k) = Next tt
  ∧ ∀ d, d ∈ deposits (exec (for_range l (DepositWorkflow_deposit epoch)) k) →
         Deposit.State d = Deposit_DEPOSIT_PENDING →
         Deposit.Epoch d ≤ epoch → ¬ sendable k0 d.
Proof.
  intros Haccepts. revert k. induction l as [|x l IH]; intros k Hhcs Hleft.
  { split; [done|]. intros d Hd Hstate Hepoch Hsend.
    by apply (not_elem_of_nil d), Hleft. }
  assert (hostChains (exec (DepositWorkflow_deposit epoch x) k) = hostChains k0) as Hhcs1.
  { by rewrite DepositWorkflow_deposit_hostChains. }
  assert (snd (DepositWorkflow_deposit epoch x k) = Next tt
          ∧ ∀ d, d ∈ deposits (exec (DepositWorkflow_deposit epoch x) k) →
                 Deposit.State d = Deposit_DEPOSIT_PENDING →
                 Deposit.Epoch d ≤ epoch → sendable k0 d → d ∈ l) as [Hnext Hleft1].
  { destruct (sendable_or_not k x) as [Hsend|Hnot].
    - destruct (DepositWorkflow_deposit_sendable epoch x k Haccepts Hsend) as [Hnext Hin].
      split; [done|]. intros d Hd Hstate Hepoch Hsendd.
      destruct (Hin d Hd) as [Hsent|[Hdk Hkey]]; [congruence|].
      pose proof (Hleft d Hdk Hstate Hepoch Hsendd) as [->|?]%elem_of_cons; done.
    - destruct (DepositWorkflow_deposit_not_sendable epoch x k Hnot) as (Hnext & _ & Hin).
      split; [done|]. intros d Hd Hstate Hepoch Hsendd.
      pose proof (Hleft d (Hin d Hd) Hstate Hepoch Hsendd) as [->|?]%elem_of_cons; [|done].
      destruct Hnot. by apply (sendable_hostChains k0 k). }
  destruct (IH _ Hhcs1 Hleft1) as [Hnext' Hfinal].
  unfold exec in *. simpl. unfold_M.
  destruct (DepositWorkflow_deposit epoch x k) as [k1 r]. simpl in *. subst r. done.
Qed.

(** X11. With a router that accepts every transfer, the deposit workflow
    leaves nothing to send: it ends without a panic, and a second run in the
    same epoch ends without a panic too and hands nothing to the router.  No
    deposit is transferred twice. *)
Theorem DepositWorkflow_sends_no_deposit_twice (epoch : Z) (k : Keeper) :
  let k1 := exec (DepositWorkflow epoch) k in
  router_accepts →
  result (DepositWorkflow epoch) k = Next tt
  ∧ result (DepositWorkflow epoch) k1 = Next tt
  ∧ outbox (exec (DepositWorkflow epoch) k1) = outbox k1.
Proof.
  intros k1 Haccepts.
  destruct (DepositWorkflow_loop_sends_all epoch (GetPendingDepositsBeforeEpoch epoch k) k k
              Haccepts eq_refl) as [Hnext Hdone].
  { intros d Hd Hstate Hepoch _. by apply list_elem_of_filter. }
  assert (hostChains k1 = hostChains k) as Hhcs by apply DepositWorkflow_loop_hostChains.
  split; [done|].
  change (∀ d, d ∈ deposits k1 → Deposit.State d = Deposit_DEPOSIT_PENDING →
               Deposit.Epoch d ≤ epoch → ¬ sendable k d) in Hdone.
  clearbody k1. clear Hnext.
  unfold result, exec, DepositWorkflow. unfold_M.
  set (S1 := GetPendingDepositsBeforeEpoch epoch k1).
  assert (∀ x, x ∈ S1 → ¬ sendable k x) as Hinert.
  { intros x [[Hepoch Hstate] Hx]%list_elem_of_filter. by apply Hdone. }
  clearbody S1. clear Hdone.
  assert (∀ k2, hostChains k2 = hostChains k1 →
            snd (for_range S1 (DepositWorkflow_deposit epoch) k2) = Next tt
            ∧ outbox (for_range S1 (DepositWorkflow_deposit epoch) k2).1 = outbox k2)
    as Hrun; [|by apply Hrun].
  induction S1 as [|x S1 IH]; intros k2 Hk2; [done|].
  assert (¬ sendable k2 x) as Hnot.
  { rewrite (sendable_hostChains k k2) by congruence. apply Hinert. left. }
  destruct (DepositWorkflow_deposit_not_sendable epoch x k2 Hnot) as (Hnext & Hout & _).
  pose proof (DepositWorkflow_deposit_hostChains epoch x k2) as Hhcs2.
  unfold exec in *. simpl. unfold_M.
  destruct (DepositWorkflow_deposit epoch x k2) as [k3 r]. simpl in *. subst r.
  destruct (IH (λ y Hy, Hinert y (list_elem_of_further _ _ _ Hy)) k3) as (? & ?);
    [congruence|]. split; congruence.
Qed.

End deposit_once.

(** ** LSM workflow *)

Section lsm.
Context `{Externals}.




End lsm.

(** ** Validator undelegation workflow *)

Section validator_undelegation.
Context `{Externals}.

(** X13. Whatever the validator undelegation workflow submits is the
    undelegation of the whole delegated amount of one validator, in a
    transaction of its own, for a validator of an active chain on an unbonding
    epoch of that chain, whose unbonding epoch is set and lies at least the
    limit behind.  A validator whose unbonding epoch is zero is never
    undelegated by it. *)
Theorem ValidatorUndelegationWorkflow_submissions (epoch : Z) (k : Keeper) :
  outbox_extends (forced_undelegation k epoch) k
    (exec (ValidatorUndelegationWorkflow epoch) k).
Proof.
  unfold ValidatorUndelegationWorkflow, exec. unfold_M. unfold GetAllHostChains.
  fold (exec (for_range (hostChains k) (ValidatorUndelegationWorkflow_chain epoch)) k).
  apply for_range_outbox. intros hc k0 Hhc.
  unfold ValidatorUndelegationWorkflow_chain.
  destruct (HostChain.Active hc) eqn:Hactive; simpl; [|apply outbox_extends_refl].
  destruct (IsUnbondingEpoch _ epoch) eqn:Hepoch; simpl; [|apply outbox_extends_refl].
  apply for_range_outbox. intros v k1 Hv.
  unfold exec, ValidatorUndelegationWorkflow_validator, GenerateAndExecuteICATx,
    RedistributeValidatorWeight, EmitEvent. unfold_M.
  destruct (0 <? Validator.UnbondingEpoch v) eqn:Hset; simpl; [|apply outbox_extends_refl].
  destruct (_ <=? epoch) eqn:Hlimit; simpl; [|apply outbox_extends_refl].
  apply Z.ltb_lt in Hset. apply Z.leb_le in Hlimit.
  match goal with |- context [icaTxResult k1 ?c ?o ?m] =>
    exists [SentICATx (HostChain.ChainId hc) c o m (icaTxResult k1 c o m)]
  end.
  split; [by destruct (icaTxResult _ _ _ _)|].
  repeat constructor. by exists hc, v, (icaTxResult k1 (HostChain.ConnectionId hc)
    (ICAAccount.Owner (HostChain.DelegationAccount hc)) [undelegate_all hc v]).
Qed.

End validator_undelegation.

(** ** Unbonding epochs *)

Section unbonding_epochs.
Context `{Externals}.

(** X14. For every chain and epoch, redelegation and undelegation exclude
    each other: on an unbonding epoch of the chain the rebalance step does
    nothing, and on any other epoch the two undelegation steps do nothing. *)
Theorem rebalance_excludes_undelegation (epoch : Z) (hc : HostChain) (k : Keeper) :
  (IsUnbondingEpoch (HostChain.UnbondingFactor hc) epoch = true
   ∧ RebalanceWorkflow_chain epoch hc k = (k, Next tt))
  ∨ (IsUnbondingEpoch (HostChain.UnbondingFactor hc) epoch = false
     ∧ UndelegationWorkflow_chain epoch hc k = (k, Next tt)
     ∧ ValidatorUndelegationWorkflow_chain epoch hc k = (k, Next tt)).
Proof.
  unfold RebalanceWorkflow_chain, UndelegationWorkflow_chain,
    ValidatorUndelegationWorkflow_chain.
  destruct (IsUnbondingEpoch _ epoch); [by left|right].
  split_and!; [done|by destruct (HostChain.Active hc)..].
Qed.

End unbonding_epochs.

(** ** Rebalance workflow *)

Section rebalance.
Context `{Externals}.

Lemma RebalanceWorkflow_msg_Next hc msg k : snd (RebalanceWorkflow_msg hc msg k) = Next tt.
Proof.
  unfold RebalanceWorkflow_msg, GenerateAndExecuteICATx. unfold_M. by case_match.
Qed.

Lemma RebalanceWorkflow_msgs hc (msgs : list Msg) k :
  let k' := exec (for_range msgs (RebalanceWorkflow_msg hc)) k in
  ∃ results : list (option string),
    length results = length msgs
    ∧ outbox k'
      = outbox k
        ++ zip_with (λ msg res,
                       SentICATx (HostChain.ChainId hc) (HostChain.ConnectionId hc)
                         (ICAAccount.Owner (HostChain.DelegationAccount hc)) [msg] res)
                    msgs results
    ∧ (∀ ibcSeq, Some ibcSeq ∈ results →
         store_get RedelegateTx.key (HostChain.ChainId hc, ibcSeq) (redelegateTxs k')
         = Some (RedelegateTx.mk (HostChain.ChainId hc) ibcSeq RedelegateTx_REDELEGATE_SENT))
    ∧ (∀ c q,
         let sent := RedelegateTx.mk c q RedelegateTx_REDELEGATE_SENT in
         store_get RedelegateTx.key (c, q) (redelegateTxs k) = Some sent →
         store_get RedelegateTx.key (c, q) (redelegateTxs k') = Some sent).
Proof.
  revert k. induction msgs as [|msg msgs IH]; intros k; simpl.
  { exists []. split_and!; [done|simpl; by rewrite app_nil_r|by intros ? ?%elem_of_nil|done]. }
  unfold exec. simpl. unfold_M.
  pose proof (RebalanceWorkflow_msg_Next hc msg k) as Hnext.
  destruct (RebalanceWorkflow_msg hc msg k) as [k1 r] eqn:Hstep. simpl in Hnext. subst r.
  fold (exec (for_range msgs (RebalanceWorkflow_msg hc)) k1).
  destruct (IH k1) as (results & Hlen & Hout & Hrec & Hkeep). clear IH.
  set (res := icaTxResult k (HostChain.ConnectionId hc)
                (ICAAccount.Owner (HostChain.DelegationAccount hc)) [msg]).
  assert (outbox k1
          = outbox k ++ [SentICATx (HostChain.ChainId hc) (HostChain.ConnectionId hc)
                           (ICAAccount.Owner (HostChain.DelegationAccount hc)) [msg] res]
          ∧ redelegateTxs k1
            = match res with
              | Some ibcSeq =>
                  store_set RedelegateTx.key
                    (RedelegateTx.mk (HostChain.ChainId hc) ibcSeq RedelegateTx_REDELEGATE_SENT)
                    (redelegateTxs k)
              | None => redelegateTxs k
              end) as [Hout1 Hred1].
  { revert Hstep. unfold RebalanceWorkflow_msg, GenerateAndExecuteICATx. unfold_M.
    fold res. destruct res; intros [= <-]; done. }
  exists (res :: results). simpl. split_and!.
  - by rewrite Hlen.
  - by rewrite Hout, Hout1, <- app_assoc.
  - intros ibcSeq [Hhere|Hin]%elem_of_cons; [|by apply Hrec].
    apply Hkeep. rewrite Hred1, <- Hhere.
    apply (store_get_set_eq RedelegateTx.key
             (RedelegateTx.mk (HostChain.ChainId hc) ibcSeq RedelegateTx_REDELEGATE_SENT)).
  - intros c q Hsent. apply Hkeep. rewrite Hred1. destruct res as [ibcSeq|]; [|done].
    destruct (decide ((HostChain.ChainId hc, ibcSeq) = (c, q))) as [[= <- <-]|Hne].
    + apply (store_get_set_eq RedelegateTx.key
               (RedelegateTx.mk (HostChain.ChainId hc) ibcSeq RedelegateTx_REDELEGATE_SENT)).
    + by rewrite store_get_set_ne.
Qed.

(** X15. The rebalance step of a chain submits one interchain-account
    transaction per redelegation message, each holding that single message,
    in the order of the messages and whatever the outcome of the earlier ones: a
    failed submission is skipped and the next message is still submitted.
    Every submission that succeeded leaves a redelegation record in state
    SENT under its sequence id.  On an unbonding epoch of the chain nothing is
    submitted. *)
Theorem RebalanceWorkflow_chain_one_tx_per_message (epoch : Z) (hc : HostChain) (k : Keeper) :
  let k' := exec (RebalanceWorkflow_chain epoch hc) k in
  let msgs :=
    if IsUnbondingEpoch (HostChain.UnbondingFactor hc) epoch then []
    else GenerateRedelegateMsgs k hc in
  result (RebalanceWorkflow_chain epoch hc) k = Next tt
  ∧ ∃ results : list (option string),
      length results = length msgs
      ∧ outbox k'
        = outbox k
          ++ zip_with (λ msg res,
                         SentICATx (HostChain.ChainId hc) (HostChain.ConnectionId hc)
                           (ICAAccount.Owner (HostChain.DelegationAccount hc)) [msg] res)
                      msgs results
      ∧ ∀ ibcSeq, Some ibcSeq ∈ results →
          store_get RedelegateTx.key (HostChain.ChainId hc, ibcSeq) (redelegateTxs k')
          = Some (RedelegateTx.mk (HostChain.ChainId hc) ibcSeq RedelegateTx_REDELEGATE_SENT).
Proof.
  intros k' msgs. subst k' msgs. unfold result, exec, RebalanceWorkflow_chain.
  destruct (IsUnbondingEpoch _ epoch).
  { split; [done|]. exists []. split_and!; [done|simpl; by rewrite app_nil_r|].
    by intros ? ?%elem_of_nil. }
  unfold_M. split.
  - rewrite for_range_falls_through; [done|]. intros. apply RebalanceWorkflow_msg_Next.
  - destruct (RebalanceWorkflow_msgs hc (GenerateRedelegateMsgs k hc) k)
      as (results & Hlen & Hout & Hrec & _).
    exists results. split_and!; done.
Qed.

End rebalance.

(** ** Rewards workflow: messages and balance queries *)

Section rewards_queries.
Context `{Externals}.

Lemma RewardsWorkflow_messages_foldl hc (vs : list Validator) (acc : list Msg) :
  foldl (λ messages validator,
           if 0 <? Validator.DelegatedAmount validator then
             messages ++ [MsgWithdrawDelegatorReward
                            (ICAAccount.Address (HostChain.DelegationAccount hc))
                            (Validator.OperatorAddress validator)]
           else messages) acc vs
  = acc ++ (withdraw_reward hc <$> filter (λ v, 0 < Validator.DelegatedAmount v) vs).
Proof.
  revert acc. induction vs as [|v vs IH]; intros acc; simpl; [by rewrite app_nil_r|].
  rewrite IH. destruct (0 <? Validator.DelegatedAmount v) eqn:Hv.
  - apply Z.ltb_lt in Hv. rewrite filter_cons_True by done. by rewrite <- app_assoc.
  - apply Z.ltb_ge in Hv. rewrite filter_cons_False by lia. done.
Qed.

(** X16. The reward-withdrawal batch of a chain holds one message per
    validator with a positive delegation, in the order of the validators, each
    from the chain's delegation account; validators with nothing delegated
    get no message. *)
Theorem RewardsWorkflow_messages_spec (hc : HostChain) :
  RewardsWorkflow_messages hc
  = withdraw_reward hc <$> filter (λ v, 0 < Validator.DelegatedAmount v)
                                  (HostChain.Validators hc).
Proof. unfold RewardsWorkflow_messages. by rewrite RewardsWorkflow_messages_foldl. Qed.

(** X17. The balance queries of the rewards step of a chain.  They go out
    only when the chain is active, has a rewards account with a created
    channel, and the withdrawal batch was empty or was submitted without
    error; the query for non-compoundable rewards comes first and only for a
    chain with reward parameters, and its failure does not hold back the
    second query.
    A failed submission sends no query and emits no event. *)
Theorem RewardsWorkflow_chain_queries (epoch : Z) (hc : HostChain) (k : Keeper) :
  let k' := exec (RewardsWorkflow_chain epoch hc) k in
  let messages := RewardsWorkflow_messages hc in
  let submitted :=
    icaTxResult k (HostChain.ConnectionId hc)
      (ICAAccount.Owner (HostChain.DelegationAccount hc)) messages in
  let created :=
    match HostChain.RewardsAccount hc with
    | Some account =>
        bool_decide (ICAAccount.ChannelState account = ICAAccount_ICA_CHANNEL_CREATED)
    | None => false
    end in
  queries k'
  = queries k
    ++ (if HostChain.Active hc
           && (bool_decide (messages = []) || bool_decide (is_Some submitted)) then
          if created then
            (if HostChain.HasRewardParams hc
             then [QueryNonCompoundableRewardsBalance (HostChain.ChainId hc)] else [])
            ++ [QueryRewardsBalance (HostChain.ChainId hc)]
          else []
        else [])
  ∧ (messages ≠ [] → submitted = None → events k' = events k ∧ queries k' = queries k).
Proof.
  intros k' messages submitted created. subst k'.
  unfold exec, RewardsWorkflow_chain, GenerateAndExecuteICATx, EmitEvent,
    QueryNonCompoundableRewardsHostChainAccountBalance, QueryRewardsHostChainAccountBalance.
  unfold_M. fold messages.
  destruct (HostChain.Active hc); simpl; [|split; [by rewrite app_nil_r|done]].
  destruct messages as [|m ms] eqn:Hm; simpl.
  - split; [|done]. subst created.
    destruct (HostChain.RewardsAccount hc) as [account|]; simpl; [|by rewrite app_nil_r].
    case_decide as Hc; [rewrite bool_decide_true by done|rewrite bool_decide_false by done];
      simpl; [|by rewrite app_nil_r].
    by destruct (HostChain.HasRewardParams hc); simpl; rewrite <- ?app_assoc.
  - fold submitted. destruct submitted as [sequenceID|] eqn:Hs; simpl.
    + split; [|done]. subst created.
      destruct (HostChain.RewardsAccount hc) as [account|]; simpl; [|by rewrite app_nil_r].
      case_decide as Hc; [rewrite bool_decide_true by done|rewrite bool_decide_false by done];
        simpl; [|by rewrite app_nil_r].
      by destruct (HostChain.HasRewardParams hc); simpl; rewrite <- ?app_assoc.
    + by rewrite app_nil_r.
Qed.

End rewards_queries.

(** ** The epoch hook *)

Section epoch_hook.
Context `{Externals}.

Lemma for_range_keeps_deposits {X} (l : list X) (body : X → M unit) :
  (∀ x, x ∈ l → keeps_deposits (body x)) → keeps_deposits (for_range l body).
Proof.
  unfold keeps_deposits, result, exec.
  induction l as [|x l IH]; intros Hbody k; simpl; [done|]. unfold_M.
  destruct (Hbody x (list_elem_of_here _ _) k) as (Hp & Hd & Hl).
  destruct (body x k) as [k1 [[]|e|]]; simpl in *; [|done..].
  destruct (IH (λ y Hy, Hbody y (list_elem_of_further _ _ _ Hy)) k1) as (Hp' & Hd' & Hl').
  split_and!; [done|congruence..].
Qed.

Lemma gets_for_range_keeps_deposits {X} (f : Keeper → list X) (body : X → M unit) :
  (∀ x, keeps_deposits (body x)) →
  keeps_deposits (l ← gets f; for_range l body).
Proof.
  intros Hbody k. unfold result, exec. unfold_M.
  by apply (for_range_keeps_deposits (f k) body).
Qed.

(** X18. Deposits are written by the deposit and LSM workflows only.  The
    validator undelegation, undelegation, rewards and rebalance workflows
    leave every deposit and every LSM deposit as it was, and none of them can
    panic. *)
Theorem later_workflows_keep_deposits (epoch : Z) :
  keeps_deposits (ValidatorUndelegationWorkflow epoch)
  ∧ keeps_deposits (UndelegationWorkflow epoch)
  ∧ keeps_deposits (RewardsWorkflow epoch)
  ∧ keeps_deposits (RebalanceWorkflow epoch).
Proof.
  split_and!; apply gets_for_range_keeps_deposits; intros hc.
  - unfold ValidatorUndelegationWorkflow_chain.
    destruct (HostChain.Active hc); simpl; [|done].
    destruct (IsUnbondingEpoch _ epoch); simpl; [|done].
    apply for_range_keeps_deposits. intros v _ k.
    unfold result, exec, ValidatorUndelegationWorkflow_validator, GenerateAndExecuteICATx,
      RedistributeValidatorWeight, EmitEvent. unfold_M.
    repeat (case_match; simplify_eq/=; try done).
  - intros k.
    unfold result, exec, UndelegationWorkflow_chain, unsuccessful_undelegation,
      GenerateAndExecuteICATx, EmitEvent. unfold_M.
    repeat (case_match; simplify_eq/=; try done).
  - intros k.
    unfold result, exec, RewardsWorkflow_chain, GenerateAndExecuteICATx, EmitEvent,
      QueryNonCompoundableRewardsHostChainAccountBalance, QueryRewardsHostChainAccountBalance.
    unfold_M.
    repeat (case_match; simplify_eq/=; try done).
  - unfold RebalanceWorkflow_chain.
    destruct (IsUnbondingEpoch _ epoch); simpl; [done|].
    apply gets_for_range_keeps_deposits. intros msg k.
    unfold result, exec, RebalanceWorkflow_msg, GenerateAndExecuteICATx. unfold_M.
    repeat (case_match; simplify_eq/=; try done).
Qed.

Lemma call_exec (w : M unit) k : result w k ≠ Panic → call w k = (exec w k, Next tt).
Proof. unfold call, result, exec. by destruct (w k) as [k1 [[]|e|]]. Qed.

(** X19. The epoch hook runs the workflows whose identifier is the one of
    the epoch that ended, in the order deposit, LSM, validator undelegation,
    undelegation, rewards, rebalance, each on the state the one before left;
    a workflow that returns early ends only itself.  The hook returns no
    error.  (The deposit and LSM workflows are the only ones that can panic;
    the statement is for runs in which they do not.) *)
Theorem AfterEpochEnd_runs_in_order (epochIdentifier : string) (epochNumber : Z)
    (k : Keeper) :
  let k1 := when_epoch epochIdentifier DelegationEpoch (DepositWorkflow epochNumber) k in
  let k2 := when_epoch epochIdentifier DelegationEpoch LSMWorkflow k1 in
  let k3 := when_epoch epochIdentifier UndelegationEpoch
              (ValidatorUndelegationWorkflow epochNumber) k2 in
  let k4 := when_epoch epochIdentifier UndelegationEpoch
              (UndelegationWorkflow epochNumber) k3 in
  let k5 := when_epoch epochIdentifier RewardsEpochIdentifier
              (RewardsWorkflow epochNumber) k4 in
  let k6 := when_epoch epochIdentifier RedelegationEpochIdentifer
              (RebalanceWorkflow epochNumber) k5 in
  (epochIdentifier = DelegationEpoch →
   result (DepositWorkflow epochNumber) k ≠ Panic ∧ result LSMWorkflow k1 ≠ Panic) →
  AfterEpochEnd epochIdentifier epochNumber k = (k6, Exit None).
Proof.
  intros k1 k2 k3 k4 k5 k6 Hpanic.
  destruct (later_workflows_keep_deposits epochNumber) as (Hv & Hu & Hr & Hb).
  subst k1 k2 k3 k4 k5 k6. unfold AfterEpochEnd, when_epoch in *. unfold_M.
  destruct (decide (epochIdentifier = DelegationEpoch)) as [Hd|Hd].
  - destruct (Hpanic Hd) as [Hp1 Hp2].
    rewrite (call_exec _ _ Hp1), (call_exec _ _ Hp2).
    destruct (decide (epochIdentifier = UndelegationEpoch));
      destruct (decide (epochIdentifier = RewardsEpochIdentifier));
      destruct (decide (epochIdentifier = RedelegationEpochIdentifer));
      rewrite ?call_exec; try done;
      first [apply Hv|apply Hu|apply Hr|apply Hb].
  - destruct (decide (epochIdentifier = UndelegationEpoch));
      destruct (decide (epochIdentifier = RewardsEpochIdentifier));
      destruct (decide (epochIdentifier = RedelegationEpochIdentifer));
      rewrite ?call_exec; try done;
      first [apply Hv|apply Hu|apply Hr|apply Hb].
Qed.

End epoch_hook.

(** * x/ratesync/types *)

(** ** Store keys *)

Lemma to_N_byte_of_Z v : Z.of_N (Byte.to_N (ratesync.byte_of_Z v)) = v `mod` 256.
Proof.
  unfold ratesync.byte_of_Z.
  pose proof (Z.mod_pos_bound v 256 ltac:(lia)) as Hb.
  destruct (Byte.of_N (Z.to_N (v `mod` 256))) as [b|] eqn:Hof; simpl.
  - apply Byte.to_of_N in Hof. rewrite Hof. lia.
  - apply Byte.of_N_None_iff in Hof. lia.
Qed.

Lemma big_endian_PutUint64 v :
  0 ≤ v < 2 ^ 64 → big_endian (ratesync.PutUint64 v) = v.
Proof.
  intros Hv. unfold ratesync.PutUint64, big_endian. simpl length.
  rewrite !to_N_byte_of_Z, !Z.shiftr_div_pow2 by lia.
  change (2 ^ 64) with 18446744073709551616 in Hv.
  change (2 ^ 56) with 72057594037927936. change (2 ^ 48) with 281474976710656.
  change (2 ^ 40) with 1099511627776. change (2 ^ 32) with 4294967296.
  change (2 ^ 24) with 16777216. change (2 ^ 16) with 65536. change (2 ^ 8) with 256.
  change (256 ^ Z.of_nat 7) with 72057594037927936.
  change (256 ^ Z.of_nat 6) with 281474976710656.
  change (256 ^ Z.of_nat 5) with 1099511627776.
  change (256 ^ Z.of_nat 4) with 4294967296.
  change (256 ^ Z.of_nat 3) with 16777216.
  change (256 ^ Z.of_nat 2) with 65536.
  change (256 ^ Z.of_nat 1) with 256.
  change (256 ^ Z.of_nat 0) with 1.
  Z.div_mod_to_equations. lia.
Qed.

Lemma big_endian_bound l : 0 ≤ big_endian l < 256 ^ Z.of_nat (length l).
Proof.
  induction l as [|x l IH]; simpl length; [simpl; lia|].
  cbn [big_endian]. pose proof (Byte.to_N_bounded x) as Hx.
  rewrite Nat2Z.inj_succ, Z.pow_succ_r by lia. nia.
Qed.

Lemma Compare_big_endian a b :
  length a = length b → Compare a b = (big_endian a ?= big_endian b).
Proof.
  revert b. induction a as [|x a IH]; intros [|y b] Hlen; try done.
  injection Hlen as Hlen. cbn [Compare big_endian]. rewrite (IH b) by done.
  rewrite <- Hlen.
  pose proof (big_endian_bound a) as Ha. pose proof (big_endian_bound b) as Hb.
  rewrite <- Hlen in Hb.
  pose proof (Byte.to_N_bounded x). pose proof (Byte.to_N_bounded y).
  destruct (N.compare_spec (Byte.to_N x) (Byte.to_N y)) as [Heq|Hlt|Hlt].
  - rewrite Heq. destruct (Z.compare_spec (big_endian a) (big_endian b));
      symmetry; [apply Z.compare_eq_iff|apply Z.compare_lt_iff|apply Z.compare_gt_iff]; lia.
  - symmetry. apply Z.compare_lt_iff. nia.
  - symmetry. apply Z.compare_gt_iff. nia.
Qed.

Lemma Compare_app p a b : Compare (p ++ a) (p ++ b) = Compare a b.
Proof. induction p as [|x p IH]; simpl; [done|]. by rewrite N.compare_refl. Qed.

(** X20. The store keys of two host chains compare, byte by byte, as the
    chains' ids compare as numbers: a store ordered by key holds the host
    chains in the order of their ids, and different ids have different keys. *)
Theorem HostChainKey_order (id1 id2 : Z) :
  0 ≤ id1 < 2 ^ 64 → 0 ≤ id2 < 2 ^ 64 →
  Compare (ratesync.HostChainKey id1) (ratesync.HostChainKey id2) = (id1 ?= id2)
  ∧ (ratesync.HostChainKey id1 = ratesync.HostChainKey id2 → id1 = id2).
Proof.
  intros H1 H2. unfold ratesync.HostChainKey. split.
  - rewrite Compare_app, Compare_big_endian by done. by rewrite !big_endian_PutUint64.
  - intros Hkey%app_inv_head.
    rewrite <- (big_endian_PutUint64 id1), <- (big_endian_PutUint64 id2) by done.
    by rewrite Hkey.
Qed.

(** ** Port identifiers *)

Lemma string_app_cons (x : Ascii.ascii) (a b : string) :
  String x a +:+ b = String x (a +:+ b).
Proof. done. Qed.

Lemma string_app_assoc (a b c : string) : (a +:+ b) +:+ c = a +:+ (b +:+ c).
Proof. induction a as [|x a IH]; [done|]. rewrite !string_app_cons. by rewrite IH. Qed.

Lemma trim_prefix_Some prefix s after :
  ratesync.trim_prefix prefix s = Some after ↔ s = prefix +:+ after.
Proof.
  revert s. induction prefix as [|a prefix IH]; intros s; simpl.
  - change ("" +:+ after) with after. split; [by intros [= ->]|by intros ->].
  - rewrite string_app_cons. destruct s as [|b s]; [done|]. case_decide as Hab.
    + subst b. rewrite IH. split; [by intros ->|by intros [= ->]].
    + split; [done|]. by intros [= -> _].
Qed.

Lemma digit_value_pretty_N_char (d : N) :
  (d < 10)%N → digit_value (pretty_N_char d) = Some (Z.of_N d).
Proof.
  intros Hd.
  assert (d = 0 ∨ d = 1 ∨ d = 2 ∨ d = 3 ∨ d = 4 ∨ d = 5 ∨ d = 6 ∨ d = 7 ∨ d = 8 ∨ d = 9)%N
    as Hcases by lia.
  by destruct_or!; subst d.
Qed.

Lemma digit_value_bound c d : digit_value c = Some d → 0 ≤ d ≤ 9.
Proof. unfold digit_value. case_match; [|done]. intros [= <-]. lia. Qed.

Lemma parse_digits_pretty_N_go (x : N) :
  ∃ n : nat, ∀ acc s,
    parse_digits acc (pretty_N_go x s) = parse_digits (acc * 10 ^ Z.of_nat n + Z.of_N x) s.
Proof.
  induction (N.lt_wf_0 x) as [x _ IH].
  destruct (decide (x = 0)%N) as [->|Hx].
  - exists 0%nat. intros acc s. rewrite pretty_N_go_0. f_equal. simpl. lia.
  - destruct (IH (x `div` 10)%N) as [n Hn]; [apply N.div_lt; lia|].
    exists (S n). intros acc s. rewrite pretty_N_go_step by lia. rewrite Hn.
    cbn [parse_digits]. rewrite digit_value_pretty_N_char by (apply N.mod_lt; lia).
    f_equal. rewrite Nat2Z.inj_succ, Z.pow_succ_r by lia.
    rewrite (N.div_mod x 10) at 3 by lia. rewrite N2Z.inj_add, N2Z.inj_mul. simpl Z.of_N. lia.
Qed.

Lemma parse_digits_pretty (id : Z) : 0 ≤ id → parse_digits 0 (pretty id) = Some id.
Proof.
  intros Hid. destruct id as [|p|p]; [done| |lia].
  unfold pretty, pretty_Z, pretty, pretty_positive, pretty, pretty_N.
  rewrite decide_False by done.
  destruct (parse_digits_pretty_N_go (N.pos p)) as [n Hn]. rewrite Hn. simpl. done.
Qed.

Lemma parse_digits_le acc s v : 0 ≤ acc → parse_digits acc s = Some v → acc ≤ v.
Proof.
  revert acc. induction s as [|c s IH]; intros acc Hacc; simpl.
  - intros [= <-]. lia.
  - destruct (digit_value c) as [d|] eqn:Hd; [|done].
    apply digit_value_bound in Hd. intros Hv%IH; lia.
Qed.

Lemma ParseUint_digits_parse s0 acc s v :
  0 ≤ acc → parse_digits acc s = Some v → v < 2 ^ 64 →
  ratesync.ParseUint_digits s0 acc s = ratesync.Ok v.
Proof.
  revert acc. induction s as [|c s IH]; intros acc Hacc; simpl.
  - by intros [= <-].
  - destruct (digit_value c) as [d|] eqn:Hd; [|done].
    pose proof (digit_value_bound _ _ Hd). intros Hv Hlt.
    assert (10 * acc + d ≤ v) by (eapply parse_digits_le; [|done]; lia).
    rewrite (proj2 (Z.leb_gt _ _)) by lia. apply IH; [lia|done..].
Qed.

Lemma ParseUint_digits_range s0 acc s v :
  0 ≤ acc < 2 ^ 64 → ratesync.ParseUint_digits s0 acc s = ratesync.Ok v → 0 ≤ v < 2 ^ 64.
Proof.
  revert acc. induction s as [|c s IH]; intros acc Hacc; simpl.
  - by intros [= <-].
  - destruct (digit_value c) as [d|] eqn:Hd; [|done].
    pose proof (digit_value_bound _ _ Hd). case_match eqn:Hle; [done|].
    apply Z.leb_gt in Hle. apply IH. lia.
Qed.

Lemma ParseUint_digits_overflow s0 acc s v :
  0 ≤ acc < 2 ^ 64 → parse_digits acc s = Some v → 2 ^ 64 ≤ v →
  ratesync.ParseUint_digits s0 acc s = ratesync.Err (ratesync.ErrRange s0).
Proof.
  revert acc. induction s as [|c s IH]; intros acc Hacc; simpl.
  - intros [= <-]. lia.
  - destruct (digit_value c) as [d|] eqn:Hd; [|done].
    pose proof (digit_value_bound _ _ Hd). intros Hv Hlt.
    case_match eqn:Hle; [done|]. apply Z.leb_gt in Hle. apply IH; [lia|done..].
Qed.

Lemma ParseUint_pretty (id : Z) :
  0 ≤ id < 2 ^ 64 → ratesync.ParseUint (pretty id) = ratesync.Ok id.
Proof.
  intros Hid. pose proof (parse_digits_pretty id ltac:(lia)) as Hparse.
  unfold ratesync.ParseUint. destruct (pretty id) as [|c s] eqn:Hs.
  - simpl in Hparse. injection Hparse as <-. done.
  - apply ParseUint_digits_parse; [done|done|lia].
Qed.

Section port_identifiers.
Context `{ratesync.Libraries}.

(** X21. The id of a host chain is read back from the controller port that is
    derived from its default port owner: printing the id in decimal after
    the two prefixes and parsing the port identifier gives the id again, for
    every 64-bit id.  So, when the library builds the port identifier of the
    default owner as the controller prefix followed by the owner,
    [MustICAPortIDfromOwner] does not panic on it, and both the id and the
    owner are read back from the port it returns. *)
Theorem IDfromPortID_DefaultPortOwner (id : Z) :
  let owner := ratesync.DefaultPortOwner id in
  0 ≤ id < 2 ^ 64 →
  ratesync.IDfromPortID (ratesync.ControllerPortPrefix +:+ owner) = ratesync.Ok id
  ∧ (ratesync.NewControllerPortID owner = inr (ratesync.ControllerPortPrefix +:+ owner) →
     ∃ portID,
       ratesync.MustICAPortIDfromOwner owner = Some portID
       ∧ ratesync.IDfromPortID portID = ratesync.Ok id
       ∧ ratesync.OwnerfromPortID portID = ratesync.Ok owner).
Proof.
  intros owner Hid.
  assert (ratesync.IDfromPortID (ratesync.ControllerPortPrefix +:+ owner) = ratesync.Ok id)
    as Hround.
  { unfold ratesync.IDfromPortID, owner, ratesync.DefaultPortOwner, ratesync.CutPrefix.
    rewrite <- string_app_assoc.
    rewrite (proj2 (trim_prefix_Some _ _ (pretty id))) by done.
    simpl. by rewrite ParseUint_pretty. }
  split; [done|]. intros Hlib. exists (ratesync.ControllerPortPrefix +:+ owner).
  unfold ratesync.MustICAPortIDfromOwner. rewrite Hlib. split_and!; [done..|].
  unfold ratesync.OwnerfromPortID, ratesync.CutPrefix.
  by rewrite (proj2 (trim_prefix_Some _ _ owner)).
Qed.

(** X22. A port identifier whose decimal id does not fit in 64 bits is
    rejected with the range error of the parser, which names the digits. *)
Theorem IDfromPortID_out_of_range (n : Z) :
  2 ^ 64 ≤ n →
  ratesync.IDfromPortID
    (ratesync.ControllerPortPrefix +:+ ratesync.DefaultPortOwnerPrefix +:+ pretty n)
  = ratesync.Err (ratesync.ErrRange (pretty n)).
Proof.
  intros Hn. unfold ratesync.IDfromPortID, ratesync.CutPrefix.
  rewrite <- string_app_assoc.
  rewrite (proj2 (trim_prefix_Some _ _ (pretty n))) by done. simpl.
  pose proof (parse_digits_pretty n ltac:(lia)) as Hparse.
  unfold ratesync.ParseUint. destruct (pretty n) as [|c s] eqn:Hs.
  - simpl in Hparse. injection Hparse as <-. lia.
  - by rewrite (ParseUint_digits_overflow _ 0 _ n).
Qed.

(** X23. [OwnerfromPortID] undoes the prefixing of a controller port: it
    returns an owner exactly for the port identifiers that are the controller
    prefix followed by that owner, and an invalid-port error for every other
    string.  A port identifier [IDfromPortID] accepts is one whose owner
    starts with the default owner prefix. *)
Theorem OwnerfromPortID_inverse (portID : string) :
  (∀ owner, ratesync.OwnerfromPortID portID = ratesync.Ok owner
            ↔ portID = ratesync.ControllerPortPrefix +:+ owner)
  ∧ ((∀ owner, portID ≠ ratesync.ControllerPortPrefix +:+ owner) →
     ratesync.OwnerfromPortID portID
     = ratesync.Err (ratesync.ErrInvalidPortID ratesync.ControllerPortPrefix))
  ∧ (∀ id, ratesync.IDfromPortID portID = ratesync.Ok id →
           0 ≤ id < 2 ^ 64
           ∧ ∃ digits, ratesync.OwnerfromPortID portID
                       = ratesync.Ok (ratesync.DefaultPortOwnerPrefix +:+ digits)).
Proof.
  unfold ratesync.OwnerfromPortID, ratesync.IDfromPortID, ratesync.CutPrefix.
  split_and!.
  - intros owner. rewrite <- trim_prefix_Some.
    destruct (ratesync.trim_prefix _ portID) as [after|]; simpl; [|done].
    split; by intros [= ->].
  - intros Hno. destruct (ratesync.trim_prefix _ portID) as [after|] eqn:Hcut; [|done].
    apply trim_prefix_Some in Hcut. by destruct (Hno after).
  - intros id.
    destruct (ratesync.trim_prefix (_ +:+ _) portID) as [digits|] eqn:Hcut; simpl; [|done].
    apply trim_prefix_Some in Hcut. rewrite string_app_assoc in Hcut.
    rewrite (proj2 (trim_prefix_Some _ _ _) Hcut). simpl.
    unfold ratesync.ParseUint. destruct digits as [|c digits]; [done|].
    destruct (ratesync.ParseUint_digits _ 0 _) as [v|] eqn:Hparse; simpl; [|done].
    intros [= <-]. split; [|by eexists].
    by apply ParseUint_digits_range in Hparse.
Qed.

End port_identifiers.

(** ** Feature configuration *)

Section features.
Context `{ratesync.Libraries}.

Lemma fail_if_Ok (cond : Prop) `{Decision cond} e :
  ratesync.fail_if cond e = ratesync.Ok tt ↔ ¬ cond.
Proof. unfold ratesync.fail_if. by case_decide. Qed.

Lemma fail_if_Err (cond : Prop) `{Decision cond} e :
  cond → ratesync.fail_if cond e = ratesync.Err e.
Proof. unfold ratesync.fail_if. by case_decide. Qed.

Lemma Res_bind_Ok {A B} (m : ratesync.Res A) (f : A → ratesync.Res B) b :
  m ≫= f = ratesync.Ok b ↔ ∃ a, m = ratesync.Ok a ∧ f a = ratesync.Ok b.
Proof.
  destruct m as [a|e]; simpl.
  - split; [by exists a|]. by intros (a' & [= <-] & ?).
  - split; [done|]. by intros (? & ? & ?).
Qed.

Lemma for_each_Ok {X} (l : list X) (body : X → ratesync.Res unit) :
  ratesync.for_each l body = ratesync.Ok tt ↔ Forall (λ x, body x = ratesync.Ok tt) l.
Proof.
  induction l as [|x l IH]; simpl; [by split|].
  rewrite Forall_cons, <- IH, Res_bind_Ok. split.
  - by intros ([] & ? & ?).
  - intros [? ?]. by exists tt.
Qed.

Lemma AllowsAllDenoms_true lsConfig :
  ratesync.LiquidStake_AllowsAllDenoms lsConfig = true
  ↔ ratesync.LiquidStake.Denoms lsConfig = [ratesync.LiquidStakeAllowAllDenoms].
Proof.
  unfold ratesync.LiquidStake_AllowsAllDenoms.
  destruct (ratesync.LiquidStake.Denoms lsConfig) as [|d [|d' ds]]; try done.
  rewrite bool_decide_eq_true. split; [by intros ->|by intros [= ->]].
Qed.

(** X24. A feature allows a denomination exactly when its list of
    denominations is the single wildcard entry or holds the denomination
    itself.  The wildcard counts only when it is the only entry: an empty list
    allows nothing, and a list of several entries allows just its entries. *)
Theorem AllowsDenom_spec (lsConfig : ratesync.LiquidStake) (denom : string) :
  ratesync.LiquidStake_AllowsDenom lsConfig denom = true
  ↔ ratesync.LiquidStake.Denoms lsConfig = [ratesync.LiquidStakeAllowAllDenoms]
    ∨ denom ∈ ratesync.LiquidStake.Denoms lsConfig.
Proof.
  unfold ratesync.LiquidStake_AllowsDenom, ratesync.Contains.
  pose proof (AllowsAllDenoms_true lsConfig) as Hall.
  destruct (ratesync.LiquidStake_AllowsAllDenoms lsConfig).
  - split; [|done]. intros _. left. by apply Hall.
  - rewrite bool_decide_eq_true. split; [by right|].
    intros [Hwild|?]; [|done]. by apply Hall in Hwild.
Qed.

(** X25. [Equals] holds exactly for configurations that agree on all six
    fields; it is the equality of configurations. *)
Theorem LiquidStake_Equals_spec (lsConfig l2 : ratesync.LiquidStake) :
  ratesync.LiquidStake_Equals lsConfig l2 = true ↔ lsConfig = l2.
Proof.
  unfold ratesync.LiquidStake_Equals. split.
  - repeat case_decide; try done. case_bool_decide; [|done]. intros _.
    destruct lsConfig, l2; simpl in *.
    repeat match goal with H : ¬ _ ≠ _ |- _ => apply dec_stable in H end.
    by simplify_eq.
  - intros <-. rewrite !decide_False by (by intros []). by rewrite bool_decide_true.
Qed.

Lemma ValidateLiquidStakeDenoms_Ok denoms :
  ratesync.ValidateLiquidStakeDenoms denoms = ratesync.Ok tt
  ↔ denoms = [ratesync.LiquidStakeAllowAllDenoms]
    ∨ Forall (λ denom, ratesync.IsLiquidStakingDenom denom = true) denoms.
Proof.
  unfold ratesync.ValidateLiquidStakeDenoms.
  assert (ratesync.for_each denoms (λ denom,
            ratesync.fail_if (ratesync.IsLiquidStakingDenom denom = false)
              (ratesync.ErrInvalidDenom denom)) = ratesync.Ok tt
          ↔ Forall (λ denom, ratesync.IsLiquidStakingDenom denom = true) denoms) as Hloop.
  { rewrite for_each_Ok. apply Forall_iff. intros denom. rewrite fail_if_Ok.
    by destruct (ratesync.IsLiquidStakingDenom denom). }
  destruct denoms as [|d [|d' ds]]; try (rewrite Hloop; split; [by right|by intros [|]]).
  case_bool_decide as Hd; [subst d; by split; [left|]|].
  rewrite Hloop. split; [by right|]. intros [[= ?]|?]; done.
Qed.

(** X26. The denominations of a validated feature: either the single
    wildcard, or liquid-staking denominations only.  So whatever a validated
    feature without the wildcard allows is a liquid-staking denomination, and
    the first entry that is not one is the one the error names. *)
Theorem ValidateLiquidStakeDenoms_spec (lsConfig : ratesync.LiquidStake) :
  let denoms := ratesync.LiquidStake.Denoms lsConfig in
  (ratesync.ValidateLiquidStakeDenoms denoms = ratesync.Ok tt
   ↔ denoms = [ratesync.LiquidStakeAllowAllDenoms]
     ∨ Forall (λ denom, ratesync.IsLiquidStakingDenom denom = true) denoms)
  ∧ (ratesync.ValidateLiquidStakeDenoms denoms = ratesync.Ok tt →
     ratesync.LiquidStake_AllowsAllDenoms lsConfig = false →
     ∀ denom, ratesync.LiquidStake_AllowsDenom lsConfig denom = true →
              ratesync.IsLiquidStakingDenom denom = true)
  ∧ (∀ valid denom rest,
       denoms = valid ++ denom :: rest →
       denoms ≠ [ratesync.LiquidStakeAllowAllDenoms] →
       Forall (λ denom, ratesync.IsLiquidStakingDenom denom = true) valid →
       ratesync.IsLiquidStakingDenom denom = false →
       ratesync.ValidateLiquidStakeDenoms denoms
       = ratesync.Err (ratesync.ErrInvalidDenom denom)).
Proof.
  intros denoms. split_and!.
  - apply ValidateLiquidStakeDenoms_Ok.
  - intros Hvalid Hnotall denom Hallows.
    apply ValidateLiquidStakeDenoms_Ok in Hvalid. apply AllowsDenom_spec in Hallows.
    assert (denoms ≠ [ratesync.LiquidStakeAllowAllDenoms]) as Hne.
    { intros Hall%AllowsAllDenoms_true. congruence. }
    destruct Hvalid as [?|Hvalid], Hallows as [?|Hin]; try done.
    by apply (proj1 (Forall_forall _ _) Hvalid).
  - intros valid denom rest Hsplit Hne Hvalid Hdenom.
    unfold ratesync.ValidateLiquidStakeDenoms.
    assert (ratesync.for_each denoms (λ denom,
              ratesync.fail_if (ratesync.IsLiquidStakingDenom denom = false)
                (ratesync.ErrInvalidDenom denom))
            = ratesync.Err (ratesync.ErrInvalidDenom denom)) as Hloop.
    { rewrite Hsplit. clear Hsplit Hne. induction Hvalid as [|d valid Hd _ IH]; simpl.
      - by rewrite fail_if_Err.
      - rewrite (proj2 (fail_if_Ok _ _)) by congruence. done. }
    destruct denoms as [|d [|d' ds]]; try done.
    case_bool_decide; [congruence|done].
Qed.

(** X27. What validation guarantees about a feature configuration: a feature
    that is switched on is past the two not-yet-instantiated states and has a
    code id; a not-yet-instantiated feature has no contract address; a
    feature whose instantiation completed has a contract address that
    decodes, and a code id.  (A state number the enum does not name is let
    through with no check of its own.) *)
Theorem LiquidStake_ValdidateBasic_sound (lsConfig : ratesync.LiquidStake) :
  let state := ratesync.LiquidStake.Instantiation lsConfig in
  ratesync.LiquidStake_ValdidateBasic lsConfig = ratesync.Ok tt →
  (ratesync.LiquidStake.Enabled lsConfig = true →
     state ≠ ratesync.InstantiationState_INSTANTIATION_NOT_INITIATED
     ∧ state ≠ ratesync.InstantiationState_INSTANTIATION_INITIATED
     ∧ ratesync.LiquidStake.CodeID lsConfig ≠ 0)
  ∧ (state = ratesync.InstantiationState_INSTANTIATION_NOT_INITIATED
     ∨ state = ratesync.InstantiationState_INSTANTIATION_INITIATED →
     ratesync.LiquidStake.ContractAddress lsConfig = "")
  ∧ (state = ratesync.InstantiationState_INSTANTIATION_INITIATED →
     ratesync.LiquidStake.CodeID lsConfig ≠ 0)
  ∧ (state = ratesync.InstantiationState_INSTANTIATION_COMPLETED →
     ratesync.LiquidStake.ContractAddress lsConfig ≠ ""
     ∧ ratesync.DecodeAndConvert (ratesync.LiquidStake.ContractAddress lsConfig) = None
     ∧ ratesync.LiquidStake.CodeID lsConfig ≠ 0)
  ∧ ratesync.ValidateLiquidStakeDenoms (ratesync.LiquidStake.Denoms lsConfig)
    = ratesync.Ok tt.
Proof.
  intros state. unfold ratesync.LiquidStake_ValdidateBasic. fold state.
  intros ([] & Hcode & Hrest)%Res_bind_Ok.
  apply Res_bind_Ok in Hrest as ([] & Hstate & Hdenoms).
  assert (ratesync.LiquidStake.CodeID lsConfig = 0 →
          state = ratesync.InstantiationState_INSTANTIATION_NOT_INITIATED) as Hzero.
  { intros Hz. rewrite decide_True in Hcode by done.
    apply fail_if_Ok in Hcode. by apply dec_stable in Hcode. }
  clear Hcode. split_and!; [| | | |done].
  - intros Hon. destruct state; simpl in Hstate;
      repeat (apply Res_bind_Ok in Hstate as ([] & ?%fail_if_Ok & Hstate)
              || apply fail_if_Ok in Hstate); try done.
    + split_and!; try done. intros Hz. by specialize (Hzero Hz).
    + split_and!; try done. intros Hz. by specialize (Hzero Hz).
  - intros [Hs|Hs]; rewrite Hs in Hstate; simpl in Hstate;
      apply Res_bind_Ok in Hstate as ([] & ?%fail_if_Ok & Hstate);
      by apply dec_stable.
  - intros Hs Hz. specialize (Hzero Hz). congruence.
  - intros Hs. rewrite Hs in Hstate. simpl in Hstate.
    apply Res_bind_Ok in Hstate as ([] & ?%fail_if_Ok & Hstate).
    apply Res_bind_Ok in Hstate as ([] & Hdec & ?%fail_if_Ok).
    split_and!; try done. by destruct (ratesync.DecodeAndConvert _).
Qed.

(** X28. A validated host chain whose interchain account is still being
    created has no account address and is not active; one whose account is
    created has an address that decodes.  Both features of a validated host
    chain sit in their own slot. *)
Theorem HostChain_ValidateBasic_sound (hc : ratesync.HostChain) :
  let account := ratesync.HostChain.IcaAccount hc in
  let features := ratesync.HostChain.Features hc in
  ratesync.HostChain_ValidateBasic hc = ratesync.Ok tt →
  (ICAAccount.ChannelState account = ICAAccount_ICA_CHANNEL_CREATING →
     ICAAccount.Address account = "" ∧ ratesync.HostChain_IsActive hc = false)
  ∧ (ICAAccount.ChannelState account = ICAAccount_ICA_CHANNEL_CREATED →
     ICAAccount.Address account ≠ ""
     ∧ ratesync.DecodeAndConvert (ICAAccount.Address account) = None)
  ∧ (ratesync.ConnectionIdentifierValidator (ratesync.HostChain.ConnectionId hc) = None
     ∨ ratesync.HostChain.ConnectionId hc = ratesync.LocalhostConnectionID)
  ∧ ratesync.LiquidStake.FeatureType (ratesync.Feature.LiquidStakeIBC features)
    = ratesync.FeatureType_LIQUID_STAKE_IBC
  ∧ ratesync.LiquidStake.FeatureType (ratesync.Feature.LiquidStake features)
    = ratesync.FeatureType_LIQUID_STAKE
  ∧ ratesync.LiquidStake_ValdidateBasic (ratesync.Feature.LiquidStakeIBC features)
    = ratesync.Ok tt
  ∧ ratesync.LiquidStake_ValdidateBasic (ratesync.Feature.LiquidStake features)
    = ratesync.Ok tt.
Proof.
  intros account features. unfold ratesync.HostChain_ValidateBasic. fold account features.
  intros ([] & Hconn%fail_if_Ok & Hrest)%Res_bind_Ok.
  apply Res_bind_Ok in Hrest as ([] & _ & Hrest).
  apply Res_bind_Ok in Hrest as ([] & Hstate & Hfeatures).
  unfold ratesync.Feature_ValdidateBasic in Hfeatures. fold features in Hfeatures.
  apply Res_bind_Ok in Hfeatures as ([] & Hibc%fail_if_Ok & Hfeatures).
  apply Res_bind_Ok in Hfeatures as ([] & Hibcv & Hfeatures).
  apply Res_bind_Ok in Hfeatures as ([] & Hls%fail_if_Ok & Hlsv).
  apply dec_stable in Hconn, Hibc, Hls. split_and!; try done.
  - intros Hs. rewrite Hs in Hstate.
    apply Res_bind_Ok in Hstate as ([] & Haddr%fail_if_Ok & Hoff%fail_if_Ok).
    apply dec_stable in Haddr. split; [done|].
    unfold ratesync.HostChain_IsActive. fold features.
    destruct (ratesync.LiquidStake.Enabled (ratesync.Feature.LiquidStakeIBC features)),
      (ratesync.LiquidStake.Enabled (ratesync.Feature.LiquidStake features));
      try done; destruct Hoff; auto.
  - intros Hs. rewrite Hs in Hstate.
    apply Res_bind_Ok in Hstate as ([] & Haddr%fail_if_Ok & Hdec).
    split; [done|]. by destruct (ratesync.DecodeAndConvert _).
Qed.

End features.

(** ** The deployment, continued *)

Section fixtures.
Import Scenario Fixtures.
Local Existing Instance externals.
Local Existing Instance libraries.

Ltac unique_keys := apply (bool_decide_unpack _); vm_compute; exact I.

(** The proceeds of chain-b's matured unbonding arrive: the unbonding of
    epoch 4 is claimable, the pending one of epoch 8 is as it was. *)
Lemma inbound_undelegation_settles_matured_witness :
  let k := keeper [chainB] [] [maturedB; pendingB] in
  unbondings (exec (OnRecvIBCTransferPacket unbondedPacket true) k)
  = [ Unbonding.mk "chain-b" 4 (Coin.mk "uatom" 300) (Coin.mk "stk/uatom" 290)
        Unbonding_UNBONDING_CLAIMABLE "";
      pendingB ].
Proof.
  intros k. unfold exec.
  rewrite (inbound_undelegation_settles_matured k unbondedPacket
             (FungibleTokenPacketData.mk
                "uatom" "300" "cosmos1bdelegation" "persistence1undelegation" "") chainB).
  - reflexivity.
  - reflexivity.
  - reflexivity.
  - reflexivity.
  - reflexivity.
  - reflexivity.
  - discriminate.
  - by eexists.
  - unique_keys.
Defined.

(** The proceeds of a forced validator unbonding arrive: the deposit of the
    current epoch grows by the whole 700. *)
Lemma inbound_validator_unbonding_credits_deposit_witness :
  let k := keeper [chainB] [pending "chain-b" 5 1000] [] in
  OnRecvIBCTransferPacket validatorUnbondedPacket true k
  = (set_events
       (λ es, es ++ [NewEvent EventTypeValidatorUnbondingMaturedReceived
          [ NewAttribute AttributeChainID (VString "chain-b");
            NewAttribute AttributeValidatorUnbondingMaturedAmount
              (VCoin (Coin.mk "uatom" 700)) ]])
       (keeper [chainB] [pending "chain-b" 5 1700] []),
     Exit None).
Proof.
  intros k.
  rewrite (inbound_validator_unbonding_credits_deposit k validatorUnbondedPacket
             (FungibleTokenPacketData.mk
                "uatom" "700" "cosmos1bdelegation" "persistence1deposit" "")
             chainB (account "cosmos1brewards" "chain-b.rewards" 0)).
  - reflexivity.
  - reflexivity.
  - reflexivity.
  - reflexivity.
  - reflexivity.
  - reflexivity.
  - discriminate.
  - reflexivity.
  - discriminate.
Defined.

(** Chain-z has no rewards account: the transfer of its unbonded tokens
    ends in a panic. *)
Lemma inbound_without_rewards_account_panics_witness :
  let k := keeper [chainZ] [] [] in
  let packet :=
    Packet.mk 3 "transfer" "channel-100" "transfer" "channel-3"
      (Some (FungibleTokenPacketData.mk
               "uatom" "10" "cosmos1zdelegation" "persistence1undelegation" "")) in
  result (OnRecvIBCTransferPacket packet true) k = Panic.
Proof.
  intros k packet.
  apply (inbound_without_rewards_account_panics k packet
           (FungibleTokenPacketData.mk
              "uatom" "10" "cosmos1zdelegation" "persistence1undelegation" "") chainZ).
  - reflexivity.
  - reflexivity.
  - reflexivity.
  - discriminate.
Defined.

(** An autocompounding transfer when the current epoch has no deposit: the
    fee of 10 is sent, nothing is credited, and the handler returns the
    error. *)
Lemma inbound_autocompounding_fee_precedes_lookup_witness :
  let k := keeper [chainB] [] [] in
  OnRecvIBCTransferPacket rewardsPacket true k
  = (set_feeTransfers (λ _, [([Coin.mk "ibc/uatom" 10], "persistence1fee")]) k,
     Exit (Some (ErrDepositNotFound "chain-b" 5))).
Proof.
  intros k.
  rewrite (inbound_autocompounding_fee_precedes_lookup k rewardsPacket rewardsData chainB
             (account "cosmos1brewards" "chain-b.rewards" 0) 500).
  - reflexivity.
  - reflexivity.
  - reflexivity.
  - reflexivity.
  - reflexivity.
  - discriminate.
  - reflexivity.
  - reflexivity.
  - reflexivity.
  - reflexivity.
Defined.

(** An acknowledgement that reports failure is refused and changes nothing. *)
Lemma callback_errors_before_any_write_witness :
  let k := keeper [chainB] [sentDeposit] [] in
  exec (OnAcknowledgementIBCTransferPacket transferPacket (Some false) None) k = k.
Proof.
  intros k.
  apply (callback_errors_before_any_write k transferPacket (Some false) None
           ErrInvalidAcknowledgement).
  - discriminate.
  - reflexivity.
Defined.

(** The acknowledgement and the timeout of chain-b's transfer when chain-b
    is not registered: both return the error, the deposit already rewritten. *)
Lemma callback_unregistered_chain_after_write_witness :
  let k := keeper [] [sentDeposit] [] in
  OnAcknowledgementIBCTransferPacket transferPacket (Some true) None k
  = (keeper []
       [Deposit.mk "chain-b" (Coin.mk "ibc/uatom" 1000) 5 Deposit_DEPOSIT_RECEIVED ""] [],
     Exit (Some (ErrHostChainNotRegistered "chain-b")))
  ∧ OnTimeoutIBCTransferPacket transferPacket None k
    = (keeper [] [pending "chain-b" 5 1000] [],
       Exit (Some (ErrHostChainNotRegistered "chain-b"))).
Proof.
  intros k.
  destruct (callback_unregistered_chain_after_write k transferPacket transferData
              sentDeposit []) as [Hack Htimeout].
  - reflexivity.
  - reflexivity.
  - reflexivity.
  - reflexivity.
  - split; [apply Hack; by eexists | exact Htimeout].
Defined.

(** The acknowledgement of the transfer that carried chain-l's shares in
    flight: that LSM deposit is RECEIVED, the pending one is as it was. *)
Lemma ack_settles_matching_lsm_deposits_witness :
  let k := keeperLSM [chainL] [] [lsmPending; lsmSent] in
  lsmDeposits (exec (OnAcknowledgementIBCTransferPacket transferPacket (Some true) None) k)
  = [ lsmPending;
      LSMDeposit.mk "chain-l" "cosmosvaloper1l/2" "ibc/lsm2" (Dec.mk (7 * 10 ^ 18))
        LSMDeposit_DEPOSIT_RECEIVED "" ].
Proof.
  intros k.
  destruct (ack_settles_matching_lsm_deposits k transferPacket transferData 1000)
    as [Hlsm _].
  - reflexivity.
  - reflexivity.
  - reflexivity.
  - unique_keys.
  - intros d Hd. vm_compute in Hd. by apply elem_of_nil in Hd.
  - exact Hlsm.
Defined.

(** Chain-b's deposit of 1000 after the deposit workflow of epoch 5: the
    record of before, now SENT, with the same amount. *)
Lemma DepositWorkflow_keeps_amounts_witness :
  let k := keeper [chainB] [pending "chain-b" 5 1000] [] in
  ∃ d, d ∈ deposits k ∧ kept_or_sent 5 d sentDeposit.
Proof.
  intros k. apply (DepositWorkflow_keeps_amounts 5 k sentDeposit).
  vm_compute. left.
Defined.


(** Chain-b's deposit of day 5 is transferred by the first run of the day;
    the second run finds it SENT and transfers nothing. *)
Lemma DepositWorkflow_sends_no_deposit_twice_witness :
  let k := keeper [chainB] [pending "chain-b" 5 1000] [] in
  let k1 := exec (DepositWorkflow 5) k in
  length (outbox k1) = 1%nat
  ∧ outbox (exec (DepositWorkflow 5) k1) = outbox k1.
Proof.
  intros k k1.
  destruct (DepositWorkflow_sends_no_deposit_twice 5 k) as (_ & _ & Hout).
  - intros k0 msg. by eexists _, _, _.
  - split; [reflexivity|exact Hout].
Defined.


(** The end of day 5 with one pending deposit of chain-b: the hook runs all
    six workflows and returns no error. *)
Lemma AfterEpochEnd_runs_in_order_witness :
  let k := keeper [chainB] [pending "chain-b" 5 1000] [] in
  returned (AfterEpochEnd "day" 5) k = Some None.
Proof.
  intros k. unfold returned.
  rewrite (AfterEpochEnd_runs_in_order "day" 5 k).
  - reflexivity.
  - intros _. split; vm_compute; discriminate.
Defined.

(** Ids 7 and 300: the key of the first sorts before the key of the second. *)
Lemma HostChainKey_order_witness :
  Compare (ratesync.HostChainKey 7) (ratesync.HostChainKey 300) = Lt.
Proof.
  destruct (HostChainKey_order 7 300) as [Horder _]; [lia..|]. exact Horder.
Defined.

(** The largest id. *)
Lemma IDfromPortID_DefaultPortOwner_witness :
  ratesync.IDfromPortID "icacontroller-pstake_ratesync_18446744073709551615"
  = ratesync.Ok 18446744073709551615.
Proof.
  destruct (IDfromPortID_DefaultPortOwner 18446744073709551615) as [Hround _]; [lia|].
  exact Hround.
Defined.

(** One more than the largest id. *)
Lemma IDfromPortID_out_of_range_witness :
  ratesync.IDfromPortID "icacontroller-pstake_ratesync_18446744073709551616"
  = ratesync.Err (ratesync.ErrRange "18446744073709551616").
Proof.
  assert (2 ^ 64 ≤ 18446744073709551616) as Hn by lia.
  exact (IDfromPortID_out_of_range 18446744073709551616 Hn).
Defined.

(** The instantiated feature validates: it has its contract and code id. *)
Lemma LiquidStake_ValdidateBasic_sound_witness :
  ratesync.LiquidStake_ValdidateBasic liquidStakeIBC = ratesync.Ok tt
  ∧ ratesync.LiquidStake.CodeID liquidStakeIBC ≠ 0.
Proof.
  split; [reflexivity|].
  destruct (LiquidStake_ValdidateBasic_sound liquidStakeIBC) as (Hon & _); [reflexivity|].
  apply Hon. reflexivity.
Defined.

(** The host chain whose account is being created validates, and is not
    active. *)
Lemma HostChain_ValidateBasic_sound_witness :
  ratesync.HostChain_ValidateBasic creating = ratesync.Ok tt
  ∧ ratesync.HostChain_IsActive creating = false.
Proof.
  split; [reflexivity|].
  destruct (HostChain_ValidateBasic_sound creating) as (Hcreating & _); [reflexivity|].
  apply Hcreating. reflexivity.
Defined.

End fixtures.
